(** * Player: a shallow embedding of [src/creatures/players/player.cpp]

    The server-side player entity of the game server, restricted to the
    members and methods that the specification's testable properties speak
    about: storage, progression (skills, magic level, experience, death),
    slot placement, the VIP list, unjustified kills and the Battle Instinct
    re-evaluation of the Wheel of Destiny; and to the neighbouring methods
    that work on the same members: mounts (a bit set kept in the storage
    map), the open containers, the skull timer and the outfit list.

    Conventions.
    - A C++ integer of width [w] is a [Z]; every operation that can leave the
      range is wrapped explicitly ([u8] .. [u64], [i32], [i64]).
    - A [double] is the rational ([Q]) it stands for, and every operation and
      conversion that produces one rounds its exact result to binary64 with
      [fl] (to nearest, ties to even; 53 significant bits, subnormals
      included).  Evaluation is strict binary64, without fused operations.
      Infinities and NaN are not represented: a result of magnitude 2^1024
      or more and a division by zero are outside the model.
    - Each module carries the members of [class Player] its methods read or
      write; members a method does not mention are left out of its state.
    - Calls to external collaborators (client protocol, event bus, game
      facade) are recorded in an output trace, oldest first. *)

From Stdlib Require Import ZArith QArith Qround Qabs Qpower Lia Lqa String List Bool.
From stdpp Require Import gmap.

Local Open Scope Z_scope.

(** ** Machine integers *)

Definition wrap (w z : Z) : Z := z mod 2 ^ w.
Definition swrap (w z : Z) : Z := (z + 2 ^ (w - 1)) mod 2 ^ w - 2 ^ (w - 1).

Definition u8 := wrap 8.
Definition u16 := wrap 16.
Definition u32 := wrap 32.
Definition u64 := wrap 64.
Definition i32 := swrap 32.
Definition i64 := swrap 64.

Definition in_u32 (z : Z) : Prop := 0 <= z < 2 ^ 32.
Definition in_u64 (z : Z) : Prop := 0 <= z < 2 ^ 64.
Definition in_i32 (z : Z) : Prop := - 2 ^ 31 <= z < 2 ^ 31.

(** ** Doubles *)

(** The exponent of the binade of [x]: [2 ^ Qlog2 x <= |x| < 2 ^ (Qlog2 x + 1)]. *)
Definition Qlog2 (x : Q) : Z :=
  let e := Z.log2 (Z.abs (Qnum x)) - Z.log2 (Zpos (Qden x)) in
  if Qle_bool (2 ^ e) (Qabs x) then e else e - 1.

(** The nearest integer, halves to the even one. *)
Definition rne (x : Q) : Z :=
  let f := Qfloor x in
  match (x - inject_Z f ?= 1 # 2)%Q with
  | Lt => f
  | Gt => f + 1
  | Eq => if Z.even f then f else f + 1
  end.

(** Rounding to binary64: the nearest multiple of the unit in the last place
    of the binade of [x], which is [2 ^ (Qlog2 x - 52)] and never less than
    [2 ^ -1074]. *)
Definition fl (x : Q) : Q :=
  if Qeq_bool x 0 then 0%Q
  else
    let c := Z.max (Qlog2 x - 52) (-1074) in
    (inject_Z (rne (x / 2 ^ c)) * 2 ^ c)%Q.

(** The conversion of an integer to [double] and the four operations. *)
Definition dint (z : Z) : Q := fl (inject_Z z).
Definition dadd (x y : Q) : Q := fl (x + y).
Definition dsub (x y : Q) : Q := fl (x - y).
Definition dmul (x y : Q) : Q := fl (x * y).
Definition ddiv (x y : Q) : Q := fl (x / y).

(** [std::floor] and C's [round] (halves away from zero), and the truncation
    of a [static_cast] from [double] to an integer type. *)
Definition floor (x : Q) : Z := Qfloor x.
Definition round (x : Q) : Z :=
  if Qle_bool 0 x then Qfloor (x + (1 # 2)) else Qceiling (x - (1 # 2)).
Definition trunc (x : Q) : Z :=
  if Qle_bool 0 x then Qfloor x else Qceiling x.
Definition Qlt_bool (x y : Q) : bool := negb (Qle_bool y x).

(** ** Storage (§3 "Storage", §8 round-trips) *)

Module Storage.

(** What [addStorageValue] hands to collaborators. *)
Inductive Output :=
| OnStorageUpdate (key value oldValue frameTime : Z)
| LogWarnUnknownReservedKey (key : Z).

(** The members [addStorageValue]/[getStorageValue] touch:
  [std::map<uint32_t, int32_t> storageMap], the outfit list
  ([lookType], [addons]) and the familiar list ([lookType]). *)
Record Player := {
storageMap : gmap Z Z;
outfits : list (Z * Z);
familiars : list Z;
trace : list Output
}.

(** The key-range tests [IS_IN_KEYRANGE(key, X_RANGE)] expand a macro over
  constants that are declared outside this file: they are parameters. *)
Record KeyRanges := {
in_RESERVED_RANGE : Z -> bool;
in_OUTFITS_RANGE : Z -> bool;
in_MOUNTS_RANGE : Z -> bool;
in_FAMILIARS_RANGE : Z -> bool
}.

(** [bool Player::getStorageValue(const uint32_t key, int32_t& value) const]:
  the result paired with the out-parameter. *)
Definition getStorageValue (p : Player) (key : Z) : bool * Z :=
match storageMap p !! key with
| None => (false, -1)
| Some v => (true, v)
end.

Section AddStorageValue.
Variable R : KeyRanges.
(** [g_dispatcher.getDispatcherCycle()] *)
Variable dispatcherCycle : Z.

Definition store (key value : Z) (isLogin : bool) (p : Player) : Player :=
if negb (value =? -1) then
let oldValue := snd (getStorageValue p key) in
{| storageMap := <[key := value]> (storageMap p);
   outfits := outfits p;
   familiars := familiars p;
   trace := if isLogin then trace p
            else trace p ++ [OnStorageUpdate key value oldValue dispatcherCycle] |}
else
{| storageMap := delete key (storageMap p);
   outfits := outfits p;
   familiars := familiars p;
   trace := trace p |}.

(** [void Player::addStorageValue(const uint32_t key, const int32_t value,
const bool isLogin)].  [value >> 16] is an arithmetic shift; the entry
it is stored in holds a [uint16_t] look type and a [uint8_t] for the
addons. *)
Definition addStorageValue (key value : Z) (isLogin : bool) (p : Player) : Player :=
if in_RESERVED_RANGE R key then
if in_OUTFITS_RANGE R key then
  {| storageMap := storageMap p;
     outfits := outfits p ++ [(u16 (Z.shiftr value 16), u8 (Z.land value 255))];
     familiars := familiars p;
     trace := trace p |}
else if in_MOUNTS_RANGE R key then
  store key value isLogin p
else if in_FAMILIARS_RANGE R key then
  {| storageMap := storageMap p;
     outfits := outfits p;
     familiars := familiars p ++ [u16 (Z.shiftr value 16)];
     trace := trace p |}
else
  {| storageMap := storageMap p;
     outfits := outfits p;
     familiars := familiars p;
     trace := trace p ++ [LogWarnUnknownReservedKey key] |}
else store key value isLogin p.
End AddStorageValue.

(** Keys for which [addStorageValue] goes on to the map: those outside the
  reserved block, and inside it the mount keys that are not also outfit
  keys. *)
Definition reaches_map (R : KeyRanges) (key : Z) : Prop :=
in_RESERVED_RANGE R key = false
\/ (in_OUTFITS_RANGE R key = false /\ in_MOUNTS_RANGE R key = true).

(** Modelled from the spec: the reserved key ranges (§3, "certain key ranges
  are reserved (outfits, mounts, familiars)") are declared outside
  player.cpp.  This instance fixes them, for the concrete evaluations
  only, to the layout of the upstream server: a reserved block of
  10,000,000 keys from 10,000,000 on, with outfits at +1000 (500 keys),
  mounts at +2001 (10 keys) and familiars at +3000 (500 keys). *)
Definition IS_IN_KEYRANGE (start size key : Z) : bool :=
(start <=? key) && (u32 (key - start) <=? size).

Definition upstream_ranges : KeyRanges := {|
in_RESERVED_RANGE := IS_IN_KEYRANGE 10000000 10000000;
in_OUTFITS_RANGE := IS_IN_KEYRANGE 10001000 500;
in_MOUNTS_RANGE := IS_IN_KEYRANGE 10002001 10;
in_FAMILIARS_RANGE := IS_IN_KEYRANGE 10003000 500
|}.

Definition empty_player : Player :=
{| storageMap := ∅; outfits := []; familiars := []; trace := [] |}.

End Storage.
(** ** Progression (§4.5): skills, magic level, experience, death *)

Module Skill.
(** One entry of [skills[]]; [level] is a [uint16_t], [tries] a [uint64_t]. *)
Record t := { level : Z; tries : Z; percent : Q }.
End Skill.

Module Progression.

(** [skills_t]: the seven trained skills, then the two identifiers that
  only name an advance ([SKILL_MAGLEVEL], [SKILL_LEVEL]). *)
Inductive skills_t :=
| SKILL_FIST | SKILL_CLUB | SKILL_SWORD | SKILL_AXE
| SKILL_DISTANCE | SKILL_SHIELD | SKILL_FISHING
| SKILL_MAGLEVEL | SKILL_LEVEL.

Definition skills_t_eqb (a b : skills_t) : bool :=
match a, b with
| SKILL_FIST, SKILL_FIST | SKILL_CLUB, SKILL_CLUB | SKILL_SWORD, SKILL_SWORD
| SKILL_AXE, SKILL_AXE | SKILL_DISTANCE, SKILL_DISTANCE
| SKILL_SHIELD, SKILL_SHIELD | SKILL_FISHING, SKILL_FISHING
| SKILL_MAGLEVEL, SKILL_MAGLEVEL | SKILL_LEVEL, SKILL_LEVEL => true
| _, _ => false
end.

(** [SKILL_FIRST .. SKILL_LAST], the range the death penalty walks. *)
Definition trained_skills : list skills_t :=
[SKILL_FIST; SKILL_CLUB; SKILL_SWORD; SKILL_AXE; SKILL_DISTANCE; SKILL_SHIELD;
 SKILL_FISHING].

Inductive Skulls_t :=
| SKULL_NONE | SKULL_YELLOW | SKULL_GREEN | SKULL_WHITE | SKULL_RED | SKULL_BLACK
| SKULL_ORANGE.

Inductive PlayerFlags := PlayerFlag_NotGainMana | PlayerFlag_NotGainInFight.

Inductive OperatingSystem_t :=
| CLIENTOS_LINUX | CLIENTOS_WINDOWS | CLIENTOS_FLASH
| CLIENTOS_NEW_LINUX | CLIENTOS_NEW_WINDOWS | CLIENTOS_NEW_MAC.

(** The vocation object, as far as the player reads it. *)
Record Vocation := {
getId : Z;
getHPGain : Z;
getManaGain : Z;
getCapGain : Z;
getReqSkillTries : skills_t -> Z -> Z;
getReqMana : Z -> Z
}.

Record Condition := { conditionType : Z; isPersistent : bool }.

(** An entry of [damageMap]: damage dealt and the time of the last hit. *)
Record CountBlock_t := { total : Z; ticks : Z }.

Definition Position : Type := Z * Z * Z.

(** The creature handed to [death], as far as it is inspected: whether it
  is a player, whether its master is one, and for a monster the race id
  of its monster type when [g_monsters] knows the name. *)
Record Creature := {
getPlayer : bool;
masterIsPlayer : bool;
getMonster : bool;
monsterTypeRaceId : option Z
}.

(** Calls out of the player, in program order. *)
Inductive Output :=
| SendTextAdvanceSkill (skill : skills_t) (newLevel : Z)
| SendTextAdvanceMagic (newLevel : Z)
| SendTextGainedExperience (exp : Z)
| SendTextLostExperience (lostExp : Z)
| SendTextAdvanceLevel (prevLevel newLevel : Z)
| SendTextDowngradeLevel (oldLevel newLevel : Z)
| PlayerAdvance (skill : skills_t) (oldLevel newLevel : Z)
| SendSkills
| SendStats
| SendExperienceInfo (rawExp exp : Z)
| UpdateBaseSpeed
| ChangeSpeed
| AddCreatureHealth
| AddPlayerMana
| UpdateSharedExperience
| SendSingleSoundEffect
| SendReLoginWindow (unfairFightReduction : Z)
| SendBlessStatus
| EndCondition (conditionType : Z)
| InternalTeleport (pos : Position)
| OnThink
| OnIdleStatus
| CreatureOnEndCondition (conditionType : Z)
| UpdateCreatureSkull (newSkull : Skulls_t)
| SendIcons.

Record Player := {
vocation : Vocation;
groupFlags : PlayerFlags -> bool;  (* group->flags, read by hasFlag *)
operatingSystem : OperatingSystem_t;
level : Z;  (* uint32_t *)
experience : Z;  (* uint64_t *)
levelPercent : Q;
magLevel : Z;  (* uint32_t *)
manaSpent : Z;  (* uint64_t *)
magLevelPercent : Q;
skills : skills_t -> Skill.t;
health : Z;
healthMax : Z;
mana : Z;
manaMax : Z;
capacity : Z;  (* uint32_t *)
skull : Skulls_t;
pzLocked : bool;
attackedSet : list Z;  (* the guids in the std::unordered_set *)
blessings : list Z;
conditions : list Condition;
damageMap : list (Z * CountBlock_t);  (* std::map, in key order *)
skillLoss : bool;
charmRuneBless : Z;
templePosition : Position;  (* town->getTemplePosition() *)
loginPosition : Position;
party : bool;  (* whether the party pointer is set *)
trace : list Output
}.

Definition set_level (v : Z) (p : Player) : Player :=
Build_Player (vocation p) (groupFlags p) (operatingSystem p) v (experience p)
  (levelPercent p) (magLevel p) (manaSpent p) (magLevelPercent p) (skills p) (health p)
  (healthMax p) (mana p) (manaMax p) (capacity p) (skull p) (pzLocked p) (attackedSet p)
  (blessings p) (conditions p) (damageMap p) (skillLoss p) (charmRuneBless p)
  (templePosition p) (loginPosition p) (party p) (trace p).
Definition set_experience (v : Z) (p : Player) : Player :=
Build_Player (vocation p) (groupFlags p) (operatingSystem p) (level p) v
  (levelPercent p) (magLevel p) (manaSpent p) (magLevelPercent p) (skills p) (health p)
  (healthMax p) (mana p) (manaMax p) (capacity p) (skull p) (pzLocked p) (attackedSet p)
  (blessings p) (conditions p) (damageMap p) (skillLoss p) (charmRuneBless p)
  (templePosition p) (loginPosition p) (party p) (trace p).
Definition set_levelPercent (v : Q) (p : Player) : Player :=
Build_Player (vocation p) (groupFlags p) (operatingSystem p) (level p) (experience p) v
  (magLevel p) (manaSpent p) (magLevelPercent p) (skills p) (health p) (healthMax p)
  (mana p) (manaMax p) (capacity p) (skull p) (pzLocked p) (attackedSet p) (blessings p)
  (conditions p) (damageMap p) (skillLoss p) (charmRuneBless p) (templePosition p)
  (loginPosition p) (party p) (trace p).
Definition set_magLevel (v : Z) (p : Player) : Player :=
Build_Player (vocation p) (groupFlags p) (operatingSystem p) (level p) (experience p)
  (levelPercent p) v (manaSpent p) (magLevelPercent p) (skills p) (health p)
  (healthMax p) (mana p) (manaMax p) (capacity p) (skull p) (pzLocked p) (attackedSet p)
  (blessings p) (conditions p) (damageMap p) (skillLoss p) (charmRuneBless p)
  (templePosition p) (loginPosition p) (party p) (trace p).
Definition set_manaSpent (v : Z) (p : Player) : Player :=
Build_Player (vocation p) (groupFlags p) (operatingSystem p) (level p) (experience p)
  (levelPercent p) (magLevel p) v (magLevelPercent p) (skills p) (health p)
  (healthMax p) (mana p) (manaMax p) (capacity p) (skull p) (pzLocked p) (attackedSet p)
  (blessings p) (conditions p) (damageMap p) (skillLoss p) (charmRuneBless p)
  (templePosition p) (loginPosition p) (party p) (trace p).
Definition set_magLevelPercent (v : Q) (p : Player) : Player :=
Build_Player (vocation p) (groupFlags p) (operatingSystem p) (level p) (experience p)
  (levelPercent p) (magLevel p) (manaSpent p) v (skills p) (health p) (healthMax p)
  (mana p) (manaMax p) (capacity p) (skull p) (pzLocked p) (attackedSet p) (blessings p)
  (conditions p) (damageMap p) (skillLoss p) (charmRuneBless p) (templePosition p)
  (loginPosition p) (party p) (trace p).
Definition set_skills (v : skills_t -> Skill.t) (p : Player) : Player :=
Build_Player (vocation p) (groupFlags p) (operatingSystem p) (level p) (experience p)
  (levelPercent p) (magLevel p) (manaSpent p) (magLevelPercent p) v (health p)
  (healthMax p) (mana p) (manaMax p) (capacity p) (skull p) (pzLocked p) (attackedSet p)
  (blessings p) (conditions p) (damageMap p) (skillLoss p) (charmRuneBless p)
  (templePosition p) (loginPosition p) (party p) (trace p).
Definition set_health (v : Z) (p : Player) : Player :=
Build_Player (vocation p) (groupFlags p) (operatingSystem p) (level p) (experience p)
  (levelPercent p) (magLevel p) (manaSpent p) (magLevelPercent p) (skills p) v
  (healthMax p) (mana p) (manaMax p) (capacity p) (skull p) (pzLocked p) (attackedSet p)
  (blessings p) (conditions p) (damageMap p) (skillLoss p) (charmRuneBless p)
  (templePosition p) (loginPosition p) (party p) (trace p).
Definition set_healthMax (v : Z) (p : Player) : Player :=
Build_Player (vocation p) (groupFlags p) (operatingSystem p) (level p) (experience p)
  (levelPercent p) (magLevel p) (manaSpent p) (magLevelPercent p) (skills p) (health p)
  v (mana p) (manaMax p) (capacity p) (skull p) (pzLocked p) (attackedSet p)
  (blessings p) (conditions p) (damageMap p) (skillLoss p) (charmRuneBless p)
  (templePosition p) (loginPosition p) (party p) (trace p).
Definition set_mana (v : Z) (p : Player) : Player :=
Build_Player (vocation p) (groupFlags p) (operatingSystem p) (level p) (experience p)
  (levelPercent p) (magLevel p) (manaSpent p) (magLevelPercent p) (skills p) (health p)
  (healthMax p) v (manaMax p) (capacity p) (skull p) (pzLocked p) (attackedSet p)
  (blessings p) (conditions p) (damageMap p) (skillLoss p) (charmRuneBless p)
  (templePosition p) (loginPosition p) (party p) (trace p).
Definition set_manaMax (v : Z) (p : Player) : Player :=
Build_Player (vocation p) (groupFlags p) (operatingSystem p) (level p) (experience p)
  (levelPercent p) (magLevel p) (manaSpent p) (magLevelPercent p) (skills p) (health p)
  (healthMax p) (mana p) v (capacity p) (skull p) (pzLocked p) (attackedSet p)
  (blessings p) (conditions p) (damageMap p) (skillLoss p) (charmRuneBless p)
  (templePosition p) (loginPosition p) (party p) (trace p).
Definition set_capacity (v : Z) (p : Player) : Player :=
Build_Player (vocation p) (groupFlags p) (operatingSystem p) (level p) (experience p)
  (levelPercent p) (magLevel p) (manaSpent p) (magLevelPercent p) (skills p) (health p)
  (healthMax p) (mana p) (manaMax p) v (skull p) (pzLocked p) (attackedSet p)
  (blessings p) (conditions p) (damageMap p) (skillLoss p) (charmRuneBless p)
  (templePosition p) (loginPosition p) (party p) (trace p).
Definition set_skull (v : Skulls_t) (p : Player) : Player :=
Build_Player (vocation p) (groupFlags p) (operatingSystem p) (level p) (experience p)
  (levelPercent p) (magLevel p) (manaSpent p) (magLevelPercent p) (skills p) (health p)
  (healthMax p) (mana p) (manaMax p) (capacity p) v (pzLocked p) (attackedSet p)
  (blessings p) (conditions p) (damageMap p) (skillLoss p) (charmRuneBless p)
  (templePosition p) (loginPosition p) (party p) (trace p).
Definition set_pzLocked (v : bool) (p : Player) : Player :=
Build_Player (vocation p) (groupFlags p) (operatingSystem p) (level p) (experience p)
  (levelPercent p) (magLevel p) (manaSpent p) (magLevelPercent p) (skills p) (health p)
  (healthMax p) (mana p) (manaMax p) (capacity p) (skull p) v (attackedSet p)
  (blessings p) (conditions p) (damageMap p) (skillLoss p) (charmRuneBless p)
  (templePosition p) (loginPosition p) (party p) (trace p).
Definition set_attackedSet (v : list Z) (p : Player) : Player :=
Build_Player (vocation p) (groupFlags p) (operatingSystem p) (level p) (experience p)
  (levelPercent p) (magLevel p) (manaSpent p) (magLevelPercent p) (skills p) (health p)
  (healthMax p) (mana p) (manaMax p) (capacity p) (skull p) (pzLocked p) v (blessings p)
  (conditions p) (damageMap p) (skillLoss p) (charmRuneBless p) (templePosition p)
  (loginPosition p) (party p) (trace p).
Definition set_blessings (v : list Z) (p : Player) : Player :=
Build_Player (vocation p) (groupFlags p) (operatingSystem p) (level p) (experience p)
  (levelPercent p) (magLevel p) (manaSpent p) (magLevelPercent p) (skills p) (health p)
  (healthMax p) (mana p) (manaMax p) (capacity p) (skull p) (pzLocked p) (attackedSet p)
  v (conditions p) (damageMap p) (skillLoss p) (charmRuneBless p) (templePosition p)
  (loginPosition p) (party p) (trace p).
Definition set_conditions (v : list Condition) (p : Player) : Player :=
Build_Player (vocation p) (groupFlags p) (operatingSystem p) (level p) (experience p)
  (levelPercent p) (magLevel p) (manaSpent p) (magLevelPercent p) (skills p) (health p)
  (healthMax p) (mana p) (manaMax p) (capacity p) (skull p) (pzLocked p) (attackedSet p)
  (blessings p) v (damageMap p) (skillLoss p) (charmRuneBless p) (templePosition p)
  (loginPosition p) (party p) (trace p).
Definition set_skillLoss (v : bool) (p : Player) : Player :=
Build_Player (vocation p) (groupFlags p) (operatingSystem p) (level p) (experience p)
  (levelPercent p) (magLevel p) (manaSpent p) (magLevelPercent p) (skills p) (health p)
  (healthMax p) (mana p) (manaMax p) (capacity p) (skull p) (pzLocked p) (attackedSet p)
  (blessings p) (conditions p) (damageMap p) v (charmRuneBless p) (templePosition p)
  (loginPosition p) (party p) (trace p).
Definition set_loginPosition (v : Position) (p : Player) : Player :=
Build_Player (vocation p) (groupFlags p) (operatingSystem p) (level p) (experience p)
  (levelPercent p) (magLevel p) (manaSpent p) (magLevelPercent p) (skills p) (health p)
  (healthMax p) (mana p) (manaMax p) (capacity p) (skull p) (pzLocked p) (attackedSet p)
  (blessings p) (conditions p) (damageMap p) (skillLoss p) (charmRuneBless p)
  (templePosition p) v (party p) (trace p).
Definition set_trace (v : list Output) (p : Player) : Player :=
Build_Player (vocation p) (groupFlags p) (operatingSystem p) (level p) (experience p)
  (levelPercent p) (magLevel p) (manaSpent p) (magLevelPercent p) (skills p) (health p)
  (healthMax p) (mana p) (manaMax p) (capacity p) (skull p) (pzLocked p) (attackedSet p)
  (blessings p) (conditions p) (damageMap p) (skillLoss p) (charmRuneBless p)
  (templePosition p) (loginPosition p) (party p) v.

Definition emit (os : list Output) (p : Player) : Player :=
  set_trace (trace p ++ os) p.

Definition set_skill (skill : skills_t) (s : Skill.t) (p : Player) : Player :=
  set_skills (fun k => if skills_t_eqb k skill then s else skills p k) p.

Definition hasFlag (p : Player) (f : PlayerFlags) : bool := groupFlags p f.

(** What the methods read from the rest of the server.  The event hooks
    receive their count by reference; the model keeps the value they leave
    in it.  [getPlayerByID] yields the level of an online player. *)
Record Env := {
  VOCATION_NONE : Z;
  noneVocation : Vocation;
  getExpForLevel : Z -> Z;
  getPromotedVocation : Z -> Z;
  DEATH_LOSE_PERCENT : Z;
  OTSYS_TIME : Z;
  CONDITION_INFIGHT : Z;
  getPlayerByID : Z -> option Z;
  hasBlessing : list Z -> Z -> bool;
  removeBlessing : Z -> Z -> list Z -> list Z;
  eventPlayerOnGainSkillTries : Player -> skills_t -> Z -> Z;
  eventPlayerOnGainExperience : Player -> Z -> Z;
  eventPlayerOnLoseExperience : Player -> Z -> Z
}.

(** [double_t Player::getPercentLevel(uint64_t count, uint64_t nextLevelCount)] *)
Definition getPercentLevel (count nextLevelCount : Z) : Q :=
  if nextLevelCount =? 0 then 0%Q
  else
    let result :=
      ddiv (inject_Z (round (dmul (ddiv (dmul (dint count) 100)
                                        (dint nextLevelCount)) 100))) 100 in
    if Qlt_bool 100 result then 0%Q else result.

Section Methods.
Variable E : Env.

Definition reqSkillTries (p : Player) (skill : skills_t) (lvl : Z) : Z :=
u64 (getReqSkillTries (vocation p) skill (u16 lvl)).
Definition reqMana (p : Player) (lvl : Z) : Z :=
u64 (getReqMana (vocation p) (u32 lvl)).
Definition expForLevel (lvl : Z) : Z := u64 (getExpForLevel E (u32 lvl)).

(** The [while] loop of [addSkillAdvance]; the locals are [count],
  [currReqTries], [nextReqTries] and [sendUpdateSkills]. *)
Fixpoint addSkillAdvance_loop (fuel : nat) (skill : skills_t) (p : Player)
  (count currReqTries nextReqTries : Z) (sendUpdateSkills : bool)
  : Player * Z * Z * Z * bool :=
match fuel with
| O => (p, count, currReqTries, nextReqTries, sendUpdateSkills)
| S fuel' =>
  let sk := skills p skill in
  if u64 (Skill.tries sk + count) >=? nextReqTries then
    let count := u64 (count - u64 (nextReqTries - Skill.tries sk)) in
    let newLevel := u16 (Skill.level sk + 1) in
    let p := set_skill skill
               {| Skill.level := newLevel; Skill.tries := 0; Skill.percent := 0 |} p in
    let p := emit [SendTextAdvanceSkill skill newLevel;
                   PlayerAdvance skill (newLevel - 1) newLevel] p in
    let currReqTries := nextReqTries in
    let nextReqTries := reqSkillTries p skill (newLevel + 1) in
    if currReqTries >=? nextReqTries then
      (p, 0, currReqTries, nextReqTries, true)
    else addSkillAdvance_loop fuel' skill p count currReqTries nextReqTries true
  else (p, count, currReqTries, nextReqTries, sendUpdateSkills)
end.

(** After its first round the loop has [tries = 0] and takes at least one
  try off [count] per round, so it runs at most once more than the
  count left by the first round. *)
Definition advance_fuel (tries count nextReq : Z) : nat :=
S (S (Z.to_nat (u64 (count - u64 (nextReq - tries))))).

(** [void Player::addSkillAdvance(skills_t skill, uint64_t count)] *)
Definition addSkillAdvance (skill : skills_t) (count : Z) (p : Player) : Player :=
let currReqTries := reqSkillTries p skill (Skill.level (skills p skill)) in
let nextReqTries := reqSkillTries p skill (Skill.level (skills p skill) + 1) in
if currReqTries >=? nextReqTries then p
else
  let count := u64 (eventPlayerOnGainSkillTries E p skill count) in
  if count =? 0 then p
  else
    let '(p, count, currReqTries, nextReqTries, sendUpdateSkills) :=
      addSkillAdvance_loop
        (advance_fuel (Skill.tries (skills p skill)) count nextReqTries)
        skill p count currReqTries nextReqTries false in
    let sk := skills p skill in
    let tries := u64 (Skill.tries sk + count) in
    let newPercent :=
      if nextReqTries >? currReqTries
      then u32 (trunc (getPercentLevel tries nextReqTries)) else 0 in
    let changed := negb (Qeq_bool (Skill.percent sk) (inject_Z newPercent)) in
    let p := set_skill skill
               {| Skill.level := Skill.level sk; Skill.tries := tries;
                  Skill.percent := if changed then inject_Z newPercent
                                   else Skill.percent sk |} p in
    if sendUpdateSkills || changed then emit [SendSkills; SendStats] p else p.

(** The [while] loop of [addManaSpent]; [inr] is the [return] taken inside
  the loop when the required-mana curve stops growing. *)
Fixpoint addManaSpent_loop (fuel : nat) (p : Player)
  (amount currReqMana nextReqMana : Z) (sendUpdateStats : bool)
  : (Player * Z * Z * Z * bool) + Player :=
match fuel with
| O => inl (p, amount, currReqMana, nextReqMana, sendUpdateStats)
| S fuel' =>
  if u64 (manaSpent p + amount) >=? nextReqMana then
    let amount := u64 (amount - u64 (nextReqMana - manaSpent p)) in
    let newLevel := u32 (magLevel p + 1) in
    let p := set_manaSpent 0 (set_magLevel newLevel p) in
    let p := emit [SendTextAdvanceMagic newLevel;
                   PlayerAdvance SKILL_MAGLEVEL (newLevel - 1) newLevel] p in
    let currReqMana := nextReqMana in
    let nextReqMana := reqMana p (newLevel + 1) in
    if currReqMana >=? nextReqMana then inr p
    else addManaSpent_loop fuel' p amount currReqMana nextReqMana true
  else inl (p, amount, currReqMana, nextReqMana, sendUpdateStats)
end.

(** [void Player::addManaSpent(uint64_t amount)] *)
Definition addManaSpent (amount : Z) (p : Player) : Player :=
if hasFlag p PlayerFlag_NotGainMana then p
else
  let currReqMana := reqMana p (magLevel p) in
  let nextReqMana := reqMana p (magLevel p + 1) in
  if currReqMana >=? nextReqMana then p
  else
    let amount := u64 (eventPlayerOnGainSkillTries E p SKILL_MAGLEVEL amount) in
    if amount =? 0 then p
    else
      match addManaSpent_loop (advance_fuel (manaSpent p) amount nextReqMana)
              p amount currReqMana nextReqMana false with
      | inr p => p
      | inl (p, amount, currReqMana, nextReqMana, sendUpdateStats) =>
        let p := set_manaSpent (u64 (manaSpent p + amount)) p in
        let oldPercent := u8 (trunc (magLevelPercent p)) in
        let p := set_magLevelPercent
                   (if nextReqMana >? currReqMana
                    then getPercentLevel (manaSpent p) nextReqMana else 0%Q) p in
        let changed := negb (Qeq_bool (inject_Z oldPercent) (magLevelPercent p)) in
        if sendUpdateStats || changed then emit [SendStats; SendSkills] p else p
      end.

(** Level-up gains: from the [VOCATION_NONE] table up to level 8. *)
Definition gainVocation (p : Player) : Vocation :=
  if negb (getId (vocation p) =? VOCATION_NONE E) && (level p <=? 8)
  then noneVocation E else vocation p.

(** One round of the loop of [addExperience]: [++level] and the gains. *)
Definition levelUp (p : Player) : Player :=
  let p := set_level (u32 (level p + 1)) p in
  let v := gainVocation p in
  let p := set_healthMax (healthMax p + getHPGain v) p in
  let p := set_health (health p + getHPGain v) p in
  let p := set_manaMax (manaMax p + getManaGain v) p in
  let p := set_mana (mana p + getManaGain v) p in
  set_capacity (u32 (capacity p + getCapGain v)) p.

(** The [while] loop of [addExperience]; the locals are [currLevelExp]
    and [nextLevelExp]. *)
Fixpoint addExperience_loop (fuel : nat) (p : Player) (currLevelExp nextLevelExp : Z)
    : Player * Z * Z :=
  match fuel with
  | O => (p, currLevelExp, nextLevelExp)
  | S fuel' =>
    if experience p >=? nextLevelExp then
      let p := levelUp p in
      let currLevelExp := nextLevelExp in
      let nextLevelExp := expForLevel (level p + 1) in
      if currLevelExp >=? nextLevelExp then (p, currLevelExp, nextLevelExp)
      else addExperience_loop fuel' p currLevelExp nextLevelExp
    else (p, currLevelExp, nextLevelExp)
  end.

(** [nextLevelExp] grows with every round that does not [break], and a
    round needs [experience >= nextLevelExp]. *)
Definition addExperience_fuel (p : Player) (nextLevelExp : Z) : nat :=
  Z.to_nat (experience p + 1 - nextLevelExp).

(** The percentage both experience paths and [death] store last. *)
Definition percentOfLevel (p : Player) (currLevelExp nextLevelExp : Z) : Q :=
  if nextLevelExp >? currLevelExp
  then getPercentLevel (u64 (experience p - currLevelExp))
                       (u64 (nextLevelExp - currLevelExp))
  else 0%Q.

(** [void Player::addExperience(Creature* source, uint64_t exp, bool sendText)] *)
Definition addExperience (exp : Z) (sendText : bool) (p : Player) : Player :=
  let currLevelExp := expForLevel (level p) in
  let nextLevelExp := expForLevel (level p + 1) in
  let rawExp := exp in
  if currLevelExp >=? nextLevelExp then
    emit [SendStats] (set_levelPercent 0%Q p)
  else
    let exp := u64 (eventPlayerOnGainExperience E p exp) in
    if exp =? 0 then p
    else
      let p := set_experience (u64 (experience p + exp)) p in
      let p := if sendText then emit [SendTextGainedExperience exp] p else p in
      let prevLevel := level p in
      let '(p, currLevelExp, nextLevelExp) :=
        addExperience_loop (addExperience_fuel p nextLevelExp)
                           p currLevelExp nextLevelExp in
      let p :=
        if negb (prevLevel =? level p) then
          let p := set_health (healthMax p) p in
          let p := set_mana (manaMax p) p in
          let p := emit [UpdateBaseSpeed; ChangeSpeed; AddCreatureHealth;
                         AddPlayerMana] p in
          let p := if party p then emit [UpdateSharedExperience] p else p in
          emit [PlayerAdvance SKILL_LEVEL prevLevel (level p);
                SendTextAdvanceLevel prevLevel (level p)] p
        else p in
      let p := set_levelPercent (percentOfLevel p currLevelExp nextLevelExp) p in
      emit [SendStats; SendExperienceInfo rawExp exp] p.

(** One level down: [--level] and the vitals' maxima cut by the gains of
    [v], each kept at or above zero. *)
Definition loseLevel (v : Vocation) (p : Player) : Player :=
  let p := set_healthMax (Z.max 0 (i64 (healthMax p - getHPGain v))) p in
  let p := set_manaMax (Z.max 0 (i64 (manaMax p - getManaGain v))) p in
  set_capacity (Z.max 0 (i32 (capacity p - getCapGain v))) p.

(** One round of the loop of [removeExperience]: [--level] and the
    losses, from the [VOCATION_NONE] table up to level 8. *)
Definition levelDown (p : Player) : Player :=
  let p := set_level (u32 (level p - 1)) p in
  loseLevel (gainVocation p) p.

(** The [while] loop of [removeExperience]; the local is [currLevelExp]. *)
Fixpoint removeExperience_loop (fuel : nat) (p : Player) (currLevelExp : Z)
    : Player * Z :=
  match fuel with
  | O => (p, currLevelExp)
  | S fuel' =>
    if (level p >? 1) && (experience p <? currLevelExp) then
      let p := levelDown p in
      removeExperience_loop fuel' p (expForLevel (level p))
    else (p, currLevelExp)
  end.

(** [void Player::removeExperience(uint64_t exp, bool sendText)] *)
Definition removeExperience (exp : Z) (sendText : bool) (p : Player) : Player :=
  if (experience p =? 0) || (exp =? 0) then p
  else
    let exp := u64 (eventPlayerOnLoseExperience E p exp) in
    if exp =? 0 then p
    else
      let lostExp := experience p in
      let p := set_experience (Z.max 0 (i64 (u64 (experience p - exp)))) p in
      let p := if sendText
               then emit [SendTextLostExperience (u64 (lostExp - experience p))] p
               else p in
      let oldLevel := level p in
      let '(p, currLevelExp) :=
        removeExperience_loop (Z.to_nat (level p)) p (expForLevel (level p)) in
      let p :=
        if negb (oldLevel =? level p) then
          let p := set_health (healthMax p) p in
          let p := set_mana (manaMax p) p in
          let p := emit [UpdateBaseSpeed; ChangeSpeed; AddCreatureHealth;
                         AddPlayerMana] p in
          let p := if party p then emit [UpdateSharedExperience] p else p in
          emit [SendTextDowngradeLevel oldLevel (level p)] p
        else p in
      let nextLevelExp := expForLevel (level p + 1) in
      let p := set_levelPercent (percentOfLevel p currLevelExp nextLevelExp) p in
      emit [SendStats] p.

(** [Skulls_t Player::getSkull() const] *)
Definition getSkull (p : Player) : Skulls_t :=
  if hasFlag p PlayerFlag_NotGainInFight then SKULL_NONE else skull p.

(** [bool Player::lastHitIsPlayer(Creature* lastHitCreature)] *)
Definition lastHitIsPlayer (lastHitCreature : option Creature) : bool :=
  match lastHitCreature with
  | None => false
  | Some c => if getPlayer c then true else masterIsPlayer c
  end.

(** [bool Player::isPromoted() const] *)
Definition isPromoted (p : Player) : bool :=
  let promotedVocation := u16 (getPromotedVocation E (getId (vocation p))) in
  (promotedVocation =? VOCATION_NONE E)
  && negb (getId (vocation p) =? promotedVocation).

(** The integers [lo .. hi], as a [for] loop visits them. *)
Definition range (lo hi : Z) : list Z :=
  map (fun k => lo + Z.of_nat k) (seq 0 (Z.to_nat (hi + 1 - lo))).

(** [double Player::getLostPercent() const] *)
Definition getLostPercent (p : Player) : Q :=
  let maxBlessing :=
    match operatingSystem p with
    | CLIENTOS_NEW_WINDOWS | CLIENTOS_NEW_MAC => 8
    | _ => 6
    end in
  let blessingCount :=
    Z.of_nat (length (List.filter (fun i => hasBlessing E (blessings p) i)
                             (range 2 maxBlessing))) in
  let deathLosePercent := DEATH_LOSE_PERCENT E in
  if negb (deathLosePercent =? -1) then
    let deathLosePercent :=
      if isPromoted p then deathLosePercent - 3 else deathLosePercent in
    let deathLosePercent := deathLosePercent - blessingCount in
    ddiv (dint (Z.max 0 deathLosePercent)) 100
  else
    let lossPercent :=
      if level p >=? 24 then
        let tmpLevel := dadd (dint (level p)) (ddiv (levelPercent p) 100) in
        ddiv (dmul (dmul (dadd tmpLevel 50) 50)
                   (dadd (dsub (dmul tmpLevel tmpLevel) (dmul 5 tmpLevel)) 8))
             (dint (experience p))
      else 5%Q in
    let percentReduction := if isPromoted p then dadd 0 30 else 0%Q in
    let percentReduction := dadd percentReduction (dint (blessingCount * 8)) in
    ddiv (dmul lossPercent (dsub 1 (ddiv percentReduction 100))) 100.

(** The walk over [damageMap] at the head of [death]: damage by players,
    damage by others and the summed levels of the player attackers, over
    the entries of the last five minutes. *)
Definition death_damage (p : Player) : Z * Z * Z :=
  let inFightTicks := 5 * 60 * 1000 in
  fold_left
    (fun '(playerDmg, othersDmg, sumLevels) '(id, cb) =>
       if OTSYS_TIME E - ticks cb <=? inFightTicks then
         match getPlayerByID E id with
         | Some dealerLevel =>
           (playerDmg + total cb, othersDmg, u32 (sumLevels + dealerLevel))
         | None => (playerDmg, othersDmg + total cb, sumLevels)
         end
       else (playerDmg, othersDmg, sumLevels))
    (damageMap p) (0, 0, 0).

Definition death_pvpDeath (lastHitCreature : option Creature) (p : Player) : bool :=
  let '(playerDmg, othersDmg, _) := death_damage p in
  if (playerDmg >? 0) || (othersDmg >? 0) then
    lastHitIsPlayer lastHitCreature
    || Qle_bool (fl (5 # 100))
         (ddiv (dint playerDmg) (dadd (dint playerDmg) (dint othersDmg)))
  else false.

(** [uint8_t unfairFightReduction], as set before the losses are taken. *)
Definition reduction (lvl sumLevels : Z) : Z :=
  let reduce := ddiv (dint lvl) (dint sumLevels) in
  Z.max 20 (u8 (floor (dadd (dmul reduce 100) (1 # 2)))).

Definition death_unfairFightReduction (lastHitCreature : option Creature)
    (p : Player) : Z :=
  let '(_, _, sumLevels) := death_damage p in
  if death_pvpDeath lastHitCreature p && (sumLevels >? level p)
  then reduction (level p) sumLevels
  else 100.

(** [double deathLossPercent] as first assigned. *)
Definition death_lossBeforeCharm (lastHitCreature : option Creature)
    (p : Player) : Q :=
  let unfairFightReduction := death_unfairFightReduction lastHitCreature p in
  dmul (getLostPercent p) (ddiv (dint unfairFightReduction) 100).

(** The charm adjustment: a tenth off when the last hit came from a
    monster of the race the player's charm rune blesses against. *)
Definition death_charmBless (lastHitCreature : option Creature) (p : Player)
    (deathLossPercent : Q) : Q :=
  match lastHitCreature with
  | Some c =>
    if getMonster c && negb (charmRuneBless p =? 0) then
      match monsterTypeRaceId c with
      | Some raceid =>
        if raceid =? charmRuneBless p
        then ddiv (dmul deathLossPercent 90) 100 else deathLossPercent
      | None => deathLossPercent
      end
    else deathLossPercent
  | None => deathLossPercent
  end.

Definition death_deathLossPercent (lastHitCreature : option Creature)
    (p : Player) : Q :=
  death_charmBless lastHitCreature p (death_lossBeforeCharm lastHitCreature p).

(** Magic level loss. *)
Fixpoint death_magic_loop (fuel : nat) (p : Player) (lostMana : Z) : Player * Z :=
  match fuel with
  | O => (p, lostMana)
  | S fuel' =>
    if (lostMana >? manaSpent p) && (magLevel p >? 0) then
      let lostMana := u64 (lostMana - manaSpent p) in
      let p := set_manaSpent (reqMana p (magLevel p)) p in
      let p := set_magLevel (u32 (magLevel p - 1)) p in
      death_magic_loop fuel' p lostMana
    else (p, lostMana)
  end.

Definition death_magicLoss (deathLossPercent : Q) (p : Player) : Player :=
  let sumMana :=
    fold_left (fun acc i => u64 (acc + reqMana p i)) (range 1 (magLevel p)) 0 in
  let sumMana := u64 (sumMana + manaSpent p) in
  let lostMana := u64 (trunc (dmul (dint sumMana) deathLossPercent)) in
  let '(p, lostMana) := death_magic_loop (Z.to_nat (magLevel p)) p lostMana in
  let p := set_manaSpent (u64 (manaSpent p - lostMana)) p in
  let nextReqMana := reqMana p (magLevel p + 1) in
  set_magLevelPercent
    (if nextReqMana >? reqMana p (magLevel p)
     then getPercentLevel (manaSpent p) nextReqMana else 0%Q) p.

(** Skill loss, one skill: the inner [while] with its floor at level 10. *)
Fixpoint death_skill_loop (fuel : nat) (p : Player) (i : skills_t)
    (lvl tries lostSkillTries : Z) : Z * Z * Z :=
  match fuel with
  | O => (lvl, tries, lostSkillTries)
  | S fuel' =>
    if lostSkillTries >? tries then
      let lostSkillTries := u32 (lostSkillTries - tries) in
      if lvl <=? 10 then (10, 0, 0)
      else death_skill_loop fuel' p i (u16 (lvl - 1)) (reqSkillTries p i lvl)
                            lostSkillTries
    else (lvl, tries, lostSkillTries)
  end.

Definition death_skillLoss_one (deathLossPercent : Q) (p : Player) (i : skills_t)
    : Player :=
  let sk := skills p i in
  let sumSkillTries :=
    fold_left (fun acc c => u64 (acc + reqSkillTries p i c))
              (range 11 (Skill.level sk)) 0 in
  let sumSkillTries := u64 (sumSkillTries + Skill.tries sk) in
  let lostSkillTries := u32 (trunc (dmul (dint sumSkillTries) deathLossPercent)) in
  let '(lvl, tries, lostSkillTries) :=
    death_skill_loop (S (Z.to_nat (Skill.level sk))) p i
                     (Skill.level sk) (Skill.tries sk) lostSkillTries in
  let tries := Z.max 0 (i32 (u64 (tries - lostSkillTries))) in
  set_skill i {| Skill.level := lvl; Skill.tries := tries;
                 Skill.percent := getPercentLevel tries (reqSkillTries p i lvl) |} p.

Definition death_skillLoss (deathLossPercent : Q) (p : Player) : Player :=
  fold_left (death_skillLoss_one deathLossPercent) trained_skills p.

(** One round of the level loop of [death]: [--level] and the losses,
    always from the player's own vocation. *)
Definition death_levelDown (p : Player) : Player :=
  let p := set_level (u32 (level p - 1)) p in
  loseLevel (vocation p) p.

(** Level loss; [expLoss] is the value the lose-experience hook left. *)
Fixpoint death_level_loop (fuel : nat) (p : Player) : Player :=
  match fuel with
  | O => p
  | S fuel' =>
    if (level p >? 1) && (experience p <? expForLevel (level p)) then
      death_level_loop fuel' (death_levelDown p)
    else p
  end.

Definition death_levelLoss (deathLossPercent : Q) (p : Player) : Player :=
  let expLoss := u64 (trunc (dmul (dint (experience p)) deathLossPercent)) in
  let expLoss := u64 (eventPlayerOnLoseExperience E p expLoss) in
  if negb (expLoss =? 0) then
    let oldLevel := level p in
    let p := if (getId (vocation p) =? VOCATION_NONE E) || (level p >? 7)
             then set_experience (u64 (experience p - expLoss)) p else p in
    let p := death_level_loop (Z.to_nat (level p)) p in
    let p := if negb (oldLevel =? level p)
             then emit [SendTextDowngradeLevel oldLevel (level p)] p else p in
    let currLevelExp := expForLevel (level p) in
    let nextLevelExp := expForLevel (level p + 1) in
    set_levelPercent (percentOfLevel p currLevelExp nextLevelExp) p
  else p.

(** Blessings lost: the first one alone on a PvP death that has it, the
    standard ones otherwise. *)
Definition death_blessings (pvpDeath : bool) (p : Player) : Player :=
  let maxBlessing := 8 in
  if pvpDeath && hasBlessing E (blessings p) 1 then
    set_blessings (removeBlessing E 1 1 (blessings p)) p
  else
    fold_left (fun p i => set_blessings (removeBlessing E i 1 (blessings p)) p)
              (range 2 maxBlessing) p.

(** [Creature::setSkull], with the update it sends to the game. *)
Definition setSkull (newSkull : Skulls_t) (p : Player) : Player :=
  emit [UpdateCreatureSkull newSkull] (set_skull newSkull p).

(** [void Player::onEndCondition(ConditionType_t type)] *)
Definition onEndCondition (type : Z) (p : Player) : Player :=
  let p := emit [CreatureOnEndCondition type] p in
  let p :=
    if type =? CONDITION_INFIGHT E then
      let p := emit [OnIdleStatus] p in
      let p := set_pzLocked false p in
      let p := set_attackedSet [] p in
      match getSkull p with
      | SKULL_RED | SKULL_BLACK => p
      | _ => setSkull SKULL_NONE p
      end
    else p in
  emit [SendIcons] p.

(** Persistent conditions are erased and ended, each with its
    [onEndCondition], in list order; the others stay.  Nothing in the
    loop's body reads [conditions], so the list is cut first. *)
Definition death_conditions (p : Player) : Player :=
  let ended := List.filter isPersistent (conditions p) in
  let p := set_conditions (List.filter (fun c => negb (isPersistent c)) (conditions p))
             p in
  fold_left
    (fun p c => onEndCondition (conditionType c)
                  (emit [EndCondition (conditionType c)] p))
    ended p.

(** [void Player::death(Creature* lastHitCreature)] *)
Definition death (lastHitCreature : option Creature) (p : Player) : Player :=
  let p := set_loginPosition (templePosition p) p in
  let p := emit [SendSingleSoundEffect] p in
  if skillLoss p then
    let pvpDeath := death_pvpDeath lastHitCreature p in
    let unfairFightReduction := death_unfairFightReduction lastHitCreature p in
    let deathLossPercent := death_deathLossPercent lastHitCreature p in
    let p := death_magicLoss deathLossPercent p in
    let p := death_skillLoss deathLossPercent p in
    let p := death_levelLoss deathLossPercent p in
    let p := death_blessings pvpDeath p in
    let p := emit [SendStats; SendSkills; SendReLoginWindow unfairFightReduction;
                   SendBlessStatus] p in
    let p :=
      match getSkull p with
      | SKULL_BLACK => set_mana 0 (set_health 40 p)
      | _ => set_mana (manaMax p) (set_health (healthMax p) p)
      end in
    death_conditions p
  else
    let p := set_skillLoss true p in
    let p := death_conditions p in
    let p := set_health (healthMax p) p in
    emit [InternalTeleport (templePosition p); AddCreatureHealth; AddPlayerMana;
          OnThink; OnIdleStatus; SendStats] p.

End Methods.

(** *** The specification's formulas, word for word *)

(** §3: "levelPercent = floor((experience - expFor(level)) / (expFor(level+1)
    - expFor(level)) * 10000) / 100". *)
Definition spec_levelPercent (experience currLevelExp nextLevelExp : Z) : Q :=
  (inject_Z (floor ((inject_Z (experience - currLevelExp)
                     / inject_Z (nextLevelExp - currLevelExp)) * 10000)) / 100)%Q.

(** §8: "floor of level/sumLevels x 100, clamped >= 20". *)
Definition spec_unfairFightReduction (lvl sumLevels : Z) : Z :=
  Z.max 20 (floor ((inject_Z lvl / inject_Z sumLevels) * 100)).

(** *** What the code computes, in closed form *)

(** The nearest number of hundredths of a percent, halves upwards, in
    integer arithmetic, and its hundredth part as [getPercentLevel]
    divides it. *)
Definition rounded_levelPercent (count nextLevelCount : Z) : Q :=
  ddiv (inject_Z ((20000 * count + nextLevelCount) / (2 * nextLevelCount))) 100.

(** The same one hundredth lower: what is stored when the exact value
    lies halfway and its binary64 image falls just below. *)
Definition rounded_down_levelPercent (count nextLevelCount : Z) : Q :=
  ddiv (inject_Z ((20000 * count + nextLevelCount) / (2 * nextLevelCount) - 1)) 100.

(** [count / nextLevelCount * 10000] lies halfway between two integers. *)
Definition halfway (count nextLevelCount : Z) : Prop :=
  (20000 * count + nextLevelCount) mod (2 * nextLevelCount) = 0.

(** The nearest whole percent, halves upwards, clamped to at least 20. *)
Definition rounded_unfairFightReduction (lvl sumLevels : Z) : Z :=
  Z.max 20 ((200 * lvl + sumLevels) / (2 * sumLevels)).

(** The same one lower: what is taken when the exact value lies halfway
    and its binary64 image falls just below. *)
Definition rounded_down_unfairFightReduction (lvl sumLevels : Z) : Z :=
  Z.max 20 ((200 * lvl + sumLevels) / (2 * sumLevels) - 1).

(** [lvl / sumLevels * 100] lies halfway between two integers. *)
Definition halfway_percent (lvl sumLevels : Z) : Prop :=
  (200 * lvl + sumLevels) mod (2 * sumLevels) = 0.

(** [levelPercent] as the experience paths leave it, read off the final
    level and experience. *)
Definition recomputed_levelPercent (E : Env) (p : Player) : Q :=
  let currLevelExp := expForLevel E (level p) in
  let nextLevelExp := expForLevel E (level p + 1) in
  if nextLevelExp >? currLevelExp
  then getPercentLevel (u64 (experience p - currLevelExp))
                       (nextLevelExp - currLevelExp)
  else 0%Q.

(** The experience gathered inside the current level, and the width of
    the level. *)
Definition into_level (E : Env) (p : Player) : Z :=
  experience p - expForLevel E (level p).
Definition level_width (E : Env) (p : Player) : Z :=
  expForLevel E (level p + 1) - expForLevel E (level p).

(** Health and mana are at their maxima. *)
Definition refilled (p : Player) : Prop :=
  health p = healthMax p /\ mana p = manaMax p.

(** The summed attacker levels that [death] compares with the level. *)
Definition death_sumLevels (E : Env) (p : Player) : Z := snd (death_damage E p).

(** [keeps f g]: the step [g] does not change what [f] reads. *)
Definition keeps {A : Type} (f : Player -> A) (g : Player -> Player) : Prop :=
  forall p, f (g p) = f p.

(** *** Concrete data for the evaluations *)

(** Modelled from the spec: §3 and §4.5 name [expFor(level)], the
    vocation gains and cost curves, the blessing slots and the event hooks
    without defining them; they are declared outside player.cpp.  For the
    concrete evaluations only, the experience table is the upstream
    polynomial in 64-bit arithmetic, the vocations are the upstream "none"
    and "knight" rows, blessings are counters indexed from 1, and the
    hooks leave their argument alone. *)
Definition upstream_getExpForLevel (lvl : Z) : Z :=
  u64 (u64 (((lvl - 6) * lvl + 17) * lvl - 12) / 6 * 100).

Definition vocation_none : Vocation := {|
  getId := 0; getHPGain := 5; getManaGain := 5; getCapGain := 1000;
  getReqSkillTries := fun _ lvl => 50 * lvl;
  getReqMana := fun lvl => 1600 * lvl
|}.

Definition vocation_knight : Vocation := {|
  getId := 4; getHPGain := 15; getManaGain := 5; getCapGain := 2500;
  getReqSkillTries := fun _ lvl => 50 * lvl;
  getReqMana := fun lvl => 1600 * lvl
|}.

(** A vocation whose cost curves are flat: every skill and the magic
    level are at their maximum. *)
Definition vocation_flat : Vocation := {|
  getId := 4; getHPGain := 15; getManaGain := 5; getCapGain := 2500;
  getReqSkillTries := fun _ _ => 1000;
  getReqMana := fun _ => 1000
|}.

Definition example_env (players : Z -> option Z) : Env := {|
  VOCATION_NONE := 0;
  noneVocation := vocation_none;
  getExpForLevel := upstream_getExpForLevel;
  getPromotedVocation := fun voc => voc + 4;
  DEATH_LOSE_PERCENT := -1;
  OTSYS_TIME := 1000000;
  CONDITION_INFIGHT := 1024;
  getPlayerByID := players;
  hasBlessing := fun bl i => negb (nth (Z.to_nat (i - 1)) bl 0 =? 0);
  removeBlessing := fun i n bl =>
    if nth (Z.to_nat (i - 1)) bl 0 =? 0 then bl
    else <[Z.to_nat (i - 1) := u8 (nth (Z.to_nat (i - 1)) bl 0 - n)]> bl;
  eventPlayerOnGainSkillTries := fun _ _ count => count;
  eventPlayerOnGainExperience := fun _ exp => exp;
  eventPlayerOnLoseExperience := fun _ exp => exp
|}.

Definition no_flags : PlayerFlags -> bool := fun _ => false.

Definition fresh_skill : Skill.t :=
  {| Skill.level := 10; Skill.tries := 0; Skill.percent := 0 |}.

(** A knight of the given level, experience and skull, with full vitals,
    no blessings, no conditions and the given [damageMap]. *)
Definition knight (lvl exp : Z) (sk : Skulls_t) (dmg : list (Z * CountBlock_t))
    : Player := {|
  vocation := vocation_knight; groupFlags := no_flags;
  operatingSystem := CLIENTOS_NEW_WINDOWS;
  level := lvl; experience := exp; levelPercent := 0;
  magLevel := 0; manaSpent := 0; magLevelPercent := 0;
  skills := fun _ => fresh_skill;
  health := 200; healthMax := 200; mana := 50; manaMax := 50; capacity := 40000;
  skull := sk; pzLocked := false; attackedSet := []; blessings := [0; 0; 0; 0; 0; 0; 0; 0]; conditions := [];
  damageMap := dmg; skillLoss := true; charmRuneBless := 0;
  templePosition := (100, 100, 7); loginPosition := (100, 100, 7);
  party := false; trace := []
|}.

Definition a_player : Creature :=
  {| getPlayer := true; masterIsPlayer := false; getMonster := false;
     monsterTypeRaceId := None |}.

(** Nobody else is online. *)
Definition lonely_env : Env := example_env (fun _ => None).

(** Player 1 is online at level 3. *)
Definition duel_env : Env := example_env (fun id => if id =? 1 then Some 3 else None).

(** Level 5 begins at 800 experience and level 6 at 1500. *)
Definition knight_level5 : Player := knight 5 800 SKULL_NONE [].

(** A black-skulled knight, 100 experience into level 9. *)
Definition black_knight_level9 : Player := knight 9 6500 SKULL_BLACK [].

(** A level 2 knight hit for 50 by player 1 a second ago. *)
Definition knight_level2_hit : Player :=
  knight 2 100 SKULL_NONE [(1, {| total := 50; ticks := 999000 |})].

(** A level 10 knight hit for 50 by player 1 a second ago. *)
Definition knight_level10_hit : Player :=
  knight 10 9300 SKULL_NONE [(1, {| total := 50; ticks := 999000 |})].

(** Player 1 is online at level 30. *)
Definition triple_env : Env :=
  example_env (fun id => if id =? 1 then Some 30 else None).

(** A player whose vocation has flat cost curves. *)
Definition maxed_player : Player :=
  set_magLevel 130 (set_manaSpent 17
    (set_skill SKILL_SWORD {| Skill.level := 120; Skill.tries := 5; Skill.percent := 0 |}
       (Build_Player vocation_flat no_flags CLIENTOS_NEW_WINDOWS 8 4200 0%Q 0 0 0%Q
          (fun _ => fresh_skill) 200 200 50 50 40000 SKULL_NONE false []
          [0; 0; 0; 0; 0; 0; 0; 0] [] [] true 0 (100, 100, 7) (100, 100, 7) false []))).

End Progression.

(** ** Slot inventory (§4.1): placement in the hands *)

Module Inventory.

Inductive WeaponType_t :=
| WEAPON_NONE | WEAPON_SWORD | WEAPON_CLUB | WEAPON_AXE | WEAPON_SHIELD
| WEAPON_DISTANCE | WEAPON_WAND | WEAPON_AMMO | WEAPON_QUIVER.

Definition WeaponType_eqb (a b : WeaponType_t) : bool :=
  match a, b with
  | WEAPON_NONE, WEAPON_NONE | WEAPON_SWORD, WEAPON_SWORD | WEAPON_CLUB, WEAPON_CLUB
  | WEAPON_AXE, WEAPON_AXE | WEAPON_SHIELD, WEAPON_SHIELD
  | WEAPON_DISTANCE, WEAPON_DISTANCE | WEAPON_WAND, WEAPON_WAND
  | WEAPON_AMMO, WEAPON_AMMO | WEAPON_QUIVER, WEAPON_QUIVER => true
  | _, _ => false
  end.

Inductive slots_t :=
| CONST_SLOT_WHEREEVER | CONST_SLOT_HEAD | CONST_SLOT_NECKLACE | CONST_SLOT_BACKPACK
| CONST_SLOT_ARMOR | CONST_SLOT_RIGHT | CONST_SLOT_LEFT | CONST_SLOT_LEGS
| CONST_SLOT_FEET | CONST_SLOT_RING | CONST_SLOT_AMMO | CONST_SLOT_STORE_INBOX.

(** The [int32_t index] of a cylinder query: a slot, [-1], or any other
    number (the [default] of the switch). *)
Inductive Index :=
| Slot (s : slots_t)
| INDEX_WHEREEVER
| OtherIndex (i : Z).

Inductive ReturnValue :=
| RETURNVALUE_NOERROR
| RETURNVALUE_NOTPOSSIBLE
| RETURNVALUE_NOTENOUGHROOM
| RETURNVALUE_NOTENOUGHCAPACITY
| RETURNVALUE_CANNOTPICKUP
| RETURNVALUE_CANNOTBEDRESSED
| RETURNVALUE_PUTTHISOBJECTINYOURHAND
| RETURNVALUE_PUTTHISOBJECTINBOTHHANDS
| RETURNVALUE_BOTHHANDSNEEDTOBEFREE
| RETURNVALUE_DROPTWOHANDEDITEM
| RETURNVALUE_CANONLYUSEONESHIELD
| RETURNVALUE_CANONLYUSEONEWEAPON
| RETURNVALUE_NEEDEXCHANGE.

Definition ReturnValue_eqb (a b : ReturnValue) : bool :=
  match a, b with
  | RETURNVALUE_NOERROR, RETURNVALUE_NOERROR
  | RETURNVALUE_NOTPOSSIBLE, RETURNVALUE_NOTPOSSIBLE
  | RETURNVALUE_NOTENOUGHROOM, RETURNVALUE_NOTENOUGHROOM
  | RETURNVALUE_NOTENOUGHCAPACITY, RETURNVALUE_NOTENOUGHCAPACITY
  | RETURNVALUE_CANNOTPICKUP, RETURNVALUE_CANNOTPICKUP
  | RETURNVALUE_CANNOTBEDRESSED, RETURNVALUE_CANNOTBEDRESSED
  | RETURNVALUE_PUTTHISOBJECTINYOURHAND, RETURNVALUE_PUTTHISOBJECTINYOURHAND
  | RETURNVALUE_PUTTHISOBJECTINBOTHHANDS, RETURNVALUE_PUTTHISOBJECTINBOTHHANDS
  | RETURNVALUE_BOTHHANDSNEEDTOBEFREE, RETURNVALUE_BOTHHANDSNEEDTOBEFREE
  | RETURNVALUE_DROPTWOHANDEDITEM, RETURNVALUE_DROPTWOHANDEDITEM
  | RETURNVALUE_CANONLYUSEONESHIELD, RETURNVALUE_CANONLYUSEONESHIELD
  | RETURNVALUE_CANONLYUSEONEWEAPON, RETURNVALUE_CANONLYUSEONEWEAPON
  | RETURNVALUE_NEEDEXCHANGE, RETURNVALUE_NEEDEXCHANGE => true
  | _, _ => false
  end.

(** An item as [queryAdd] and [hasCapacity] see it.  [ref] stands for the
    object's address: two items are the same object when their [ref]s
    agree.  [topParentIsPlayer] is [item->getTopParent() == this]. *)
Record Item := {
  ref : Z;
  getID : Z;
  getSlotPosition : Z;
  getWeaponType : WeaponType_t;
  isPickupable : bool;
  isStackable : bool;
  getItemCount : Z;
  getContainer : bool;
  getWeight : Z;
  getBaseWeight : Z;
  topParentIsPlayer : bool
}.

Definition same_item (a b : Item) : bool := ref a =? ref b.

Inductive Thing := ThingItem (item : Item) | ThingCreature.

Definition getItem (thing : Thing) : option Item :=
  match thing with ThingItem item => Some item | ThingCreature => None end.

Inductive PlayerFlags := PlayerFlag_CannotPickupItem | PlayerFlag_HasInfiniteCapacity.

Record Player := {
  inventory : slots_t -> option Item;
  groupFlags : PlayerFlags -> bool;
  getFreeCapacity : Z
}.

Definition hasFlag (p : Player) (f : PlayerFlags) : bool := groupFlags p f.

(** The bit masks of [slotPosition] and of the query flags are declared
    outside this file: they are parameters, as are the configuration
    switch and the equip hook of the move events. *)
Record Env := {
  SLOTP_HEAD : Z;
  SLOTP_NECKLACE : Z;
  SLOTP_BACKPACK : Z;
  SLOTP_ARMOR : Z;
  SLOTP_RIGHT : Z;
  SLOTP_LEFT : Z;
  SLOTP_LEGS : Z;
  SLOTP_FEET : Z;
  SLOTP_RING : Z;
  SLOTP_AMMO : Z;
  SLOTP_TWO_HAND : Z;
  FLAG_NOLIMIT : Z;
  FLAG_CHILDISOWNER : Z;
  CLASSIC_EQUIPMENT_SLOTS : bool;
  onPlayerEquip : Player -> Item -> Index -> bool
}.

(** [x & mask] read as a condition; also [hasBitSet(mask, x)]. *)
Definition has (x mask : Z) : bool := negb (Z.land x mask =? 0).

Section Methods.
Variable E : Env.

(** [bool Player::hasCapacity(const Item* item, uint32_t count) const] *)
Definition hasCapacity (p : Player) (item : Item) (count : Z) : bool :=
  if hasFlag p PlayerFlag_CannotPickupItem then false
  else if hasFlag p PlayerFlag_HasInfiniteCapacity || topParentIsPlayer item then true
  else
    let itemWeight := if getContainer item then getWeight item
                      else getBaseWeight item in
    let itemWeight := if isStackable item then u32 (itemWeight * count)
                      else itemWeight in
    itemWeight <=? getFreeCapacity p.

(** [getInventoryItem(static_cast<slots_t>(index))]: null outside
    [CONST_SLOT_FIRST .. CONST_SLOT_LAST]. *)
Definition getInventoryItem (p : Player) (index : Index) : option Item :=
  match index with
  | Slot CONST_SLOT_WHEREEVER => None
  | Slot s => inventory p s
  | _ => None
  end.

(** [ret] as initialised from the item's slot position. *)
Definition queryAdd_init (slotPosition : Z) : ReturnValue :=
  if has slotPosition (SLOTP_HEAD E) || has slotPosition (SLOTP_NECKLACE E)
     || has slotPosition (SLOTP_BACKPACK E) || has slotPosition (SLOTP_ARMOR E)
     || has slotPosition (SLOTP_LEGS E) || has slotPosition (SLOTP_FEET E)
     || has slotPosition (SLOTP_RING E)
  then RETURNVALUE_CANNOTBEDRESSED
  else if has slotPosition (SLOTP_TWO_HAND E)
  then RETURNVALUE_PUTTHISOBJECTINBOTHHANDS
  else if has slotPosition (SLOTP_RIGHT E) || has slotPosition (SLOTP_LEFT E) then
    if negb (CLASSIC_EQUIPMENT_SLOTS E) then RETURNVALUE_CANNOTBEDRESSED
    else RETURNVALUE_PUTTHISOBJECTINYOURHAND
  else RETURNVALUE_NOERROR.

(** The classic-mode test of one hand against the item in the other. *)
Definition classic_other_hand (item other : Item) (count : Z) : ReturnValue :=
  let type := getWeaponType item in
  let otherType := getWeaponType other in
  if has (getSlotPosition other) (SLOTP_TWO_HAND E) then RETURNVALUE_DROPTWOHANDEDITEM
  else if same_item item other && (count =? getItemCount item)
  then RETURNVALUE_NOERROR
  else if WeaponType_eqb otherType WEAPON_SHIELD && WeaponType_eqb type WEAPON_SHIELD
  then RETURNVALUE_CANONLYUSEONESHIELD
  else if WeaponType_eqb otherType WEAPON_NONE || WeaponType_eqb type WEAPON_NONE
          || WeaponType_eqb otherType WEAPON_SHIELD
          || WeaponType_eqb otherType WEAPON_AMMO
          || WeaponType_eqb type WEAPON_SHIELD || WeaponType_eqb type WEAPON_AMMO
  then RETURNVALUE_NOERROR
  else RETURNVALUE_CANONLYUSEONEWEAPON.

(** [case CONST_SLOT_RIGHT] *)
Definition queryAdd_right (p : Player) (item : Item) (count : Z) (ret : ReturnValue)
    : ReturnValue :=
  let slotPosition := getSlotPosition item in
  if has slotPosition (SLOTP_RIGHT E) then
    if negb (CLASSIC_EQUIPMENT_SLOTS E) then
      if negb (WeaponType_eqb (getWeaponType item) WEAPON_SHIELD)
         && negb (WeaponType_eqb (getWeaponType item) WEAPON_QUIVER)
      then RETURNVALUE_CANNOTBEDRESSED
      else
        match inventory p CONST_SLOT_LEFT with
        | Some leftItem =>
          if has (Z.lor (getSlotPosition leftItem) slotPosition) (SLOTP_TWO_HAND E) then
            if WeaponType_eqb (getWeaponType item) WEAPON_QUIVER
               && WeaponType_eqb (getWeaponType leftItem) WEAPON_DISTANCE
            then RETURNVALUE_NOERROR
            else RETURNVALUE_BOTHHANDSNEEDTOBEFREE
          else RETURNVALUE_NOERROR
        | None => RETURNVALUE_NOERROR
        end
    else if has slotPosition (SLOTP_TWO_HAND E) then
      match inventory p CONST_SLOT_LEFT with
      | Some leftItem =>
        if negb (same_item leftItem item) then RETURNVALUE_BOTHHANDSNEEDTOBEFREE
        else RETURNVALUE_NOERROR
      | None => RETURNVALUE_NOERROR
      end
    else
      match inventory p CONST_SLOT_LEFT with
      | Some leftItem => classic_other_hand item leftItem count
      | None => RETURNVALUE_NOERROR
      end
  else ret.

(** [case CONST_SLOT_LEFT] *)
Definition queryAdd_left (p : Player) (item : Item) (count : Z) (ret : ReturnValue)
    : ReturnValue :=
  let slotPosition := getSlotPosition item in
  if has slotPosition (SLOTP_LEFT E) then
    if negb (CLASSIC_EQUIPMENT_SLOTS E) then
      let type := getWeaponType item in
      if WeaponType_eqb type WEAPON_NONE || WeaponType_eqb type WEAPON_SHIELD
         || WeaponType_eqb type WEAPON_AMMO
      then RETURNVALUE_CANNOTBEDRESSED
      else
        match inventory p CONST_SLOT_RIGHT with
        | Some rightItem =>
          if has slotPosition (SLOTP_TWO_HAND E) then
            if WeaponType_eqb type WEAPON_DISTANCE
               && WeaponType_eqb (getWeaponType rightItem) WEAPON_QUIVER
            then RETURNVALUE_NOERROR
            else RETURNVALUE_BOTHHANDSNEEDTOBEFREE
          else RETURNVALUE_NOERROR
        | None => RETURNVALUE_NOERROR
        end
    else if has slotPosition (SLOTP_TWO_HAND E) then
      match inventory p CONST_SLOT_RIGHT with
      | Some rightItem =>
        if negb (same_item rightItem item) then RETURNVALUE_BOTHHANDSNEEDTOBEFREE
        else RETURNVALUE_NOERROR
      | None => RETURNVALUE_NOERROR
      end
    else
      match inventory p CONST_SLOT_RIGHT with
      | Some rightItem => classic_other_hand item rightItem count
      | None => RETURNVALUE_NOERROR
      end
  else ret.

(** The [switch (index)]: [ret] after the slot's own test. *)
Definition queryAdd_switch (p : Player) (index : Index) (item : Item) (count : Z)
    : ReturnValue :=
  let slotPosition := getSlotPosition item in
  let ret := queryAdd_init slotPosition in
  let accept mask := if has slotPosition mask then RETURNVALUE_NOERROR else ret in
  match index with
  | Slot CONST_SLOT_HEAD => accept (SLOTP_HEAD E)
  | Slot CONST_SLOT_NECKLACE => accept (SLOTP_NECKLACE E)
  | Slot CONST_SLOT_BACKPACK => accept (SLOTP_BACKPACK E)
  | Slot CONST_SLOT_ARMOR => accept (SLOTP_ARMOR E)
  | Slot CONST_SLOT_RIGHT => queryAdd_right p item count ret
  | Slot CONST_SLOT_LEFT => queryAdd_left p item count ret
  | Slot CONST_SLOT_LEGS => accept (SLOTP_LEGS E)
  | Slot CONST_SLOT_FEET => accept (SLOTP_FEET E)
  | Slot CONST_SLOT_RING => accept (SLOTP_RING E)
  | Slot CONST_SLOT_AMMO =>
    if has slotPosition (SLOTP_AMMO E) || CLASSIC_EQUIPMENT_SLOTS E
    then RETURNVALUE_NOERROR else ret
  | Slot CONST_SLOT_WHEREEVER | INDEX_WHEREEVER => RETURNVALUE_NOTENOUGHROOM
  | Slot CONST_SLOT_STORE_INBOX | OtherIndex _ => RETURNVALUE_NOTPOSSIBLE
  end.

(** The checks behind an accepted slot: exchange, capacity, equip hook. *)
Definition queryAdd_checks (p : Player) (index : Index) (item : Item) (count : Z)
    (ret : ReturnValue) : ReturnValue :=
  if ReturnValue_eqb ret RETURNVALUE_NOERROR
     || ReturnValue_eqb ret RETURNVALUE_NOTENOUGHROOM then
    let needExchange :=
      match getInventoryItem p index with
      | Some inventoryItem =>
        negb (isStackable inventoryItem) || negb (getID inventoryItem =? getID item)
      | None => false
      end in
    if needExchange then RETURNVALUE_NEEDEXCHANGE
    else if negb (hasCapacity p item count) then RETURNVALUE_NOTENOUGHCAPACITY
    else if negb (onPlayerEquip E p item index) then RETURNVALUE_CANNOTBEDRESSED
    else ret
  else ret.

(** [ReturnValue Player::queryAdd(int32_t index, const Thing& thing,
    uint32_t count, uint32_t flags, Creature* ) const] *)
Definition queryAdd (p : Player) (index : Index) (thing : Thing) (count flags : Z)
    : ReturnValue :=
  match getItem thing with
  | None => RETURNVALUE_NOTPOSSIBLE
  | Some item =>
    if has flags (FLAG_CHILDISOWNER E) then
      if has flags (FLAG_NOLIMIT E) || hasCapacity p item count
      then RETURNVALUE_NOERROR else RETURNVALUE_NOTENOUGHCAPACITY
    else if negb (isPickupable item) then RETURNVALUE_CANNOTPICKUP
    else queryAdd_checks p index item count (queryAdd_switch p index item count)
  end.
End Methods.

(** The quiver exception: a distance weapon against a quiver. *)
Definition quiver_pair (item other : Item) : bool :=
  WeaponType_eqb (getWeaponType item) WEAPON_DISTANCE
  && WeaponType_eqb (getWeaponType other) WEAPON_QUIVER.

(** Modelled from the spec: §4.1 gives every slot "a bitmask of accepted
    slot-position flags" without the values, which are declared outside
    player.cpp.  This instance fixes them, for the concrete evaluations
    only, to one bit each in the order of the upstream enumeration, with
    classic equipment slots switched by [classic] and an equip hook that
    approves everything. *)
Definition upstream_env (classic : bool) : Env := {|
  SLOTP_HEAD := 1; SLOTP_NECKLACE := 2; SLOTP_BACKPACK := 4; SLOTP_ARMOR := 8;
  SLOTP_RIGHT := 16; SLOTP_LEFT := 32; SLOTP_LEGS := 64; SLOTP_FEET := 128;
  SLOTP_RING := 256; SLOTP_AMMO := 512; SLOTP_TWO_HAND := 2048;
  FLAG_NOLIMIT := 1; FLAG_CHILDISOWNER := 8;
  CLASSIC_EQUIPMENT_SLOTS := classic;
  onPlayerEquip := fun _ _ _ => true
|}.

End Inventory.

(** *** Concrete items for the evaluations *)

Module InventoryExamples.
Import Inventory.

(** A bow: a two-handed distance weapon that fits either hand. *)
Definition bow : Item := {|
  ref := 1; getID := 3350; getSlotPosition := 16 + 32 + 2048;
  getWeaponType := WEAPON_DISTANCE; isPickupable := true; isStackable := false;
  getItemCount := 1; getContainer := false; getWeight := 3100; getBaseWeight := 3100;
  topParentIsPlayer := false
|}.

(** A two-handed sword. *)
Definition two_handed_sword : Item := {|
  ref := 2; getID := 3265; getSlotPosition := 16 + 32 + 2048;
  getWeaponType := WEAPON_SWORD; isPickupable := true; isStackable := false;
  getItemCount := 1; getContainer := false; getWeight := 7000; getBaseWeight := 7000;
  topParentIsPlayer := false
|}.

(** A quiver: a container for the right hand. *)
Definition quiver : Item := {|
  ref := 3; getID := 35562; getSlotPosition := 16;
  getWeaponType := WEAPON_QUIVER; isPickupable := true; isStackable := false;
  getItemCount := 1; getContainer := true; getWeight := 500; getBaseWeight := 500;
  topParentIsPlayer := true
|}.

(** A player who carries only the given item, in the right hand. *)
Definition holding_right (item : Item) : Player := {|
  inventory := fun s => match s with CONST_SLOT_RIGHT => Some item | _ => None end;
  groupFlags := fun _ => false;
  getFreeCapacity := 40000
|}.
End InventoryExamples.

(** ** What the advance loops leave behind *)

Module ProgressionLoops.
Import Progression.

(** What a finished run of the [while] loop of [addSkillAdvance] leaves in
    its locals and in the player, started from player [p0]: the two
    requirements are those of the skill level reached, and either the
    tries still to add stay below the next requirement or the loop broke
    at a plateau with nothing left to add; nothing but the advanced skill
    has changed. *)
Definition advance_done (p0 : Player) (skill : skills_t)
    (r : Player * Z * Z * Z * bool) : Prop :=
  let '(p', count', curr', next', _) := r in
  vocation p' = vocation p0
  /\ curr' = reqSkillTries p0 skill (Skill.level (skills p' skill))
  /\ next' = reqSkillTries p0 skill (Skill.level (skills p' skill) + 1)
  /\ (u64 (Skill.tries (skills p' skill) + count') < next'
      \/ (count' = 0 /\ Skill.tries (skills p' skill) = 0 /\ next' <= curr'))
  /\ (forall k, k <> skill -> skills p' k = skills p0 k)
  /\ magLevel p' = magLevel p0 /\ manaSpent p' = manaSpent p0
  /\ level p' = level p0 /\ experience p' = experience p0.

(** The same for the loop of [addManaSpent], whose plateau exit is the
    [return] inside the loop. *)
Definition mana_done (p0 : Player) (r : (Player * Z * Z * Z * bool) + Player)
    : Prop :=
  match r with
  | inl (p', amount', curr', next', _) =>
    vocation p' = vocation p0 /\ skills p' = skills p0
    /\ level p' = level p0 /\ experience p' = experience p0
    /\ curr' = reqMana p0 (magLevel p') /\ next' = reqMana p0 (magLevel p' + 1)
    /\ curr' < next' /\ u64 (manaSpent p' + amount') < next'
  | inr p' =>
    vocation p' = vocation p0 /\ skills p' = skills p0
    /\ level p' = level p0 /\ experience p' = experience p0
    /\ manaSpent p' = 0
    /\ reqMana p0 (magLevel p' + 1) <= reqMana p0 (magLevel p')
  end.

(** A knight of level 5 whose death costs nothing. *)
Definition spared_knight : Player := set_skillLoss false knight_level5.

(** A knight of level 5 under one condition that ends with death and one
    that outlasts it. *)
Definition cursed_knight : Player :=
  set_conditions [ {| conditionType := 1; isPersistent := true |};
                   {| conditionType := 2; isPersistent := false |} ] knight_level5.
End ProgressionLoops.

(** ** VIP list (§4.7) *)

Module Vip.

Inductive PlayerFlags := PlayerFlag_IsAlwaysPremium.

Inductive Output :=
| SendTextMessageFailure (text : string)
| AddVIPEntry (account guid : Z)
| RemoveVIPEntry (account guid : Z)
| SendVIP (guid : Z) (name : string) (status : Z)
| SendBasicData.

(** [VIPList] is a [std::unordered_set<uint32_t>]; [client] says whether a
    client is attached. *)
Record Player := {
  accountNumber : Z;
  maxVipEntries : Z;  (* group->maxVipEntries *)
  groupFlags : PlayerFlags -> bool;
  premiumDays : Z;
  VIPList : gset Z;
  client : bool;
  trace : list Output
}.

Definition set_VIPList (v : gset Z) (p : Player) : Player :=
  Build_Player (accountNumber p) (maxVipEntries p) (groupFlags p) (premiumDays p) v
    (client p) (trace p).
Definition set_premiumDays (v : Z) (p : Player) : Player :=
  Build_Player (accountNumber p) (maxVipEntries p) (groupFlags p) v (VIPList p)
    (client p) (trace p).
Definition emit (os : list Output) (p : Player) : Player :=
  Build_Player (accountNumber p) (maxVipEntries p) (groupFlags p) (premiumDays p)
    (VIPList p) (client p) (trace p ++ os).

Definition hasFlag (p : Player) (f : PlayerFlags) : bool := groupFlags p f.

Definition VIPList_size (p : Player) : Z := Z.of_nat (size (VIPList p)).

Section Methods.
(** [g_config.getBoolean(ConfigManager::FREE_PREMIUM)] *)
Variable FREE_PREMIUM : bool.

(** [bool Player::isPremium() const] *)
Definition isPremium (p : Player) : bool :=
  if FREE_PREMIUM || hasFlag p PlayerFlag_IsAlwaysPremium then true
  else premiumDays p >? 0.

(** [size_t Player::getMaxVIPEntries() const] *)
Definition getMaxVIPEntries (p : Player) : Z :=
  if negb (maxVipEntries p =? 0) then maxVipEntries p
  else if isPremium p then 100
  else 20.

(** [bool Player::removeVIP(uint32_t vipGuid)] *)
Definition removeVIP (vipGuid : Z) (p : Player) : Player * bool :=
  if decide (vipGuid ∈ VIPList p) then
    (emit [RemoveVIPEntry (accountNumber p) vipGuid]
          (set_VIPList (VIPList p ∖ {[vipGuid]}) p), true)
  else (p, false).

(** [bool Player::addVIP(uint32_t vipGuid, const std::string& vipName,
    VipStatus_t status)] *)
Definition addVIP (vipGuid : Z) (vipName : string) (status : Z) (p : Player)
    : Player * bool :=
  if (VIPList_size p >=? getMaxVIPEntries p) || (VIPList_size p =? 200) then
    (emit [SendTextMessageFailure "You cannot add more buddies."] p, false)
  else if decide (vipGuid ∈ VIPList p) then
    (emit [SendTextMessageFailure "This player is already in your list."] p, false)
  else
    let p := set_VIPList ({[vipGuid]} ∪ VIPList p) p in
    let p := emit [AddVIPEntry (accountNumber p) vipGuid] p in
    let p := if client p then emit [SendVIP vipGuid vipName status] p else p in
    (p, true).

(** [bool Player::addVIPInternal(uint32_t vipGuid)] *)
Definition addVIPInternal (vipGuid : Z) (p : Player) : Player * bool :=
  if (VIPList_size p >=? getMaxVIPEntries p) || (VIPList_size p =? 200) then
    (p, false)
  else if decide (vipGuid ∈ VIPList p) then (p, false)
  else (set_VIPList ({[vipGuid]} ∪ VIPList p) p, true).

(** The calls that change [VIPList]. *)
Inductive VipCall :=
| CallAddVIP (vipGuid : Z) (vipName : string) (status : Z)
| CallAddVIPInternal (vipGuid : Z)
| CallRemoveVIP (vipGuid : Z).

Definition call (c : VipCall) (p : Player) : Player * bool :=
  match c with
  | CallAddVIP g n s => addVIP g n s p
  | CallAddVIPInternal g => addVIPInternal g p
  | CallRemoveVIP g => removeVIP g p
  end.

Definition run (cs : list VipCall) (p : Player) : Player :=
  fold_left (fun p c => fst (call c p)) cs p.

(** [void Player::setPremiumDays(int32_t v)] *)
Definition setPremiumDays (v : Z) (p : Player) : Player :=
  emit [SendBasicData] (set_premiumDays v p).

(** The list calls, and between them changes of the premium days. *)
Inductive AccountCall :=
| ListCall (c : VipCall)
| CallSetPremiumDays (v : Z).

Definition account_call (c : AccountCall) (p : Player) : Player :=
  match c with
  | ListCall c => fst (call c p)
  | CallSetPremiumDays v => setPremiumDays v p
  end.

Definition account_run (cs : list AccountCall) (p : Player) : Player :=
  fold_left (fun p c => account_call c p) cs p.
End Methods.

(** The bound of a list: the player's maximum, and 200 in any case. *)
Definition within_bound (bound : Z) (p : Player) : Prop :=
  VIPList_size p <= bound /\ VIPList_size p <= 200.

(** A free account without a group limit and with an empty list. *)
Definition newcomer : Player := {|
  accountNumber := 1; maxVipEntries := 0; groupFlags := fun _ => false;
  premiumDays := 0; VIPList := ∅; client := true; trace := []
|}.

(** The same account with thirty premium days. *)
Definition subscriber : Player := set_premiumDays 30 newcomer.

(** The largest maximum the player can have, whatever the premium state. *)
Definition largest_maximum (p : Player) : Z :=
  if maxVipEntries p =? 0 then 100 else maxVipEntries p.

Definition twenty_one_requests : list VipCall :=
  map CallAddVIPInternal
      [1; 2; 3; 4; 5; 6; 7; 8; 9; 10; 11; 12; 13; 14; 15; 16; 17; 18; 19; 20; 21].

End Vip.

(** ** Unjustified kills and skulls (§4.7) *)

Module Unjustified.

Inductive Skulls_t :=
| SKULL_NONE | SKULL_YELLOW | SKULL_GREEN | SKULL_WHITE | SKULL_RED | SKULL_BLACK
| SKULL_ORANGE.

Inductive WorldType_t := WORLD_TYPE_NO_PVP | WORLD_TYPE_PVP | WORLD_TYPE_PVP_ENFORCED.

Inductive PlayerFlags := PlayerFlag_NotGainInFight.

(** An entry of [unjustifiedKills]. *)
Record Kill := { target : Z; time : Z; unavenged : bool }.

Inductive Output :=
| SendTextWarningNotJustified (name : string)
| UpdateCreatureSkull (skull : Skulls_t)
| SendUnjustifiedPoints.

(** [id] stands for the object's address in [attacked == this]. *)
Record Player := {
  id : Z;
  getName : string;
  getGUID : Z;
  groupFlags : PlayerFlags -> bool;
  skull : Skulls_t;
  skullTicks : Z;  (* int64_t *)
  unjustifiedKills : list Kill;
  trace : list Output
}.

Definition set_skull (v : Skulls_t) (p : Player) : Player :=
  Build_Player (id p) (getName p) (getGUID p) (groupFlags p) v (skullTicks p)
    (unjustifiedKills p) (trace p).
Definition set_skullTicks (v : Z) (p : Player) : Player :=
  Build_Player (id p) (getName p) (getGUID p) (groupFlags p) (skull p) v
    (unjustifiedKills p) (trace p).
Definition set_unjustifiedKills (v : list Kill) (p : Player) : Player :=
  Build_Player (id p) (getName p) (getGUID p) (groupFlags p) (skull p) (skullTicks p)
    v (trace p).
Definition emit (os : list Output) (p : Player) : Player :=
  Build_Player (id p) (getName p) (getGUID p) (groupFlags p) (skull p) (skullTicks p)
    (unjustifiedKills p) (trace p ++ os).

Definition hasFlag (p : Player) (f : PlayerFlags) : bool := groupFlags p f.

(** The world, the clock ([time(nullptr)], read once per call) and the
    configured numbers. *)
Record Env := {
  getWorldType : WorldType_t;
  now : Z;
  DAY_KILLS_TO_RED : Z;
  WEEK_KILLS_TO_RED : Z;
  MONTH_KILLS_TO_RED : Z;
  RED_SKULL_DURATION : Z;
  BLACK_SKULL_DURATION : Z
}.

Section Methods.
Variable E : Env.

(** [Skulls_t Player::getSkull() const] *)
Definition getSkull (p : Player) : Skulls_t :=
  if hasFlag p PlayerFlag_NotGainInFight then SKULL_NONE else skull p.

(** [Creature::setSkull], with the update it sends to the game. *)
Definition setSkull (newSkull : Skulls_t) (p : Player) : Player :=
  emit [UpdateCreatureSkull newSkull] (set_skull newSkull p).

(** The three [uint8_t] counters after the walk over [unjustifiedKills]. *)
Definition countKills (kills : list Kill) : Z * Z * Z :=
  fold_left
    (fun '(dayKills, weekKills, monthKills) kill =>
       let diff := now E - time kill in
       (if diff <=? 4 * 60 * 60 then u8 (dayKills + 1) else dayKills,
        if diff <=? 7 * 24 * 60 * 60 then u8 (weekKills + 1) else weekKills,
        if diff <=? 30 * 24 * 60 * 60 then u8 (monthKills + 1) else monthKills))
    kills (0, 0, 0).

(** [void Player::addUnjustifiedDead(const Player* attacked)] *)
Definition addUnjustifiedDead (attacked : Player) (p : Player) : Player :=
  if hasFlag p PlayerFlag_NotGainInFight || (id attacked =? id p)
     || match getWorldType E with WORLD_TYPE_PVP_ENFORCED => true | _ => false end
  then p
  else
    let p := emit [SendTextWarningNotJustified (getName attacked)] p in
    let p := set_unjustifiedKills
               (unjustifiedKills p
                ++ [{| target := getGUID attacked; time := now E; unavenged := true |}])
               p in
    let '(dayKills, weekKills, monthKills) := countKills (unjustifiedKills p) in
    let p :=
      match getSkull p with
      | SKULL_BLACK => p
      | _ =>
        if (dayKills >=? 2 * DAY_KILLS_TO_RED E)
           || (weekKills >=? 2 * WEEK_KILLS_TO_RED E)
           || (monthKills >=? 2 * MONTH_KILLS_TO_RED E) then
          let p := setSkull SKULL_BLACK p in
          set_skullTicks (i64 (i64 (BLACK_SKULL_DURATION E) * 24 * 60 * 60 * 1000)) p
        else if (dayKills >=? DAY_KILLS_TO_RED E)
                || (weekKills >=? WEEK_KILLS_TO_RED E)
                || (monthKills >=? MONTH_KILLS_TO_RED E) then
          let p := setSkull SKULL_RED p in
          set_skullTicks (i64 (i64 (RED_SKULL_DURATION E) * 24 * 60 * 60 * 1000)) p
        else p
      end in
    emit [SendUnjustifiedPoints] p.
End Methods.

(** Whether a kill counts towards the four-hour window. *)
Definition within4h (E : Env) (kill : Kill) : bool :=
  now E - time kill <=? 4 * 60 * 60.

Definition killsWithin4h (E : Env) (kills : list Kill) : Z :=
  Z.of_nat (length (List.filter (within4h E) kills)).

(** *** Concrete data for the evaluations *)

(** A PvP world at second 100000 with the thresholds 3, 5 and 10 and
    skull durations of 30 and 45 days. *)
Definition example_env : Env := {|
  getWorldType := WORLD_TYPE_PVP; now := 100000;
  DAY_KILLS_TO_RED := 3; WEEK_KILLS_TO_RED := 5; MONTH_KILLS_TO_RED := 10;
  RED_SKULL_DURATION := 30; BLACK_SKULL_DURATION := 45
|}.

Definition kill_at (t : Z) : Kill := {| target := 7; time := t; unavenged := true |}.

(** A player without skull who killed five times within the last hour. *)
Definition killer : Player := {|
  id := 1; getName := "Killer"; getGUID := 1001; groupFlags := fun _ => false;
  skull := SKULL_NONE; skullTicks := 0;
  unjustifiedKills := [kill_at 97000; kill_at 97500; kill_at 98000; kill_at 98500;
                       kill_at 99000];
  trace := []
|}.

Definition victim : Player := {|
  id := 2; getName := "Victim"; getGUID := 1002; groupFlags := fun _ => false;
  skull := SKULL_NONE; skullTicks := 0; unjustifiedKills := []; trace := []
|}.

(** A player without skull and without kills, and the same player after
    five recorded kills of [victim]: the third one made the skull red. *)
Definition newcomer : Player := {|
  id := 3; getName := "Newcomer"; getGUID := 1003; groupFlags := fun _ => false;
  skull := SKULL_NONE; skullTicks := 0; unjustifiedKills := []; trace := []
|}.

Definition after_five_kills : Player :=
  Nat.iter 5 (addUnjustifiedDead example_env victim) newcomer.

End Unjustified.

(** ** Wheel of Destiny (§4.8): Battle Instinct *)

Module Wheel.

Inductive WheelOfDestinyMajor_t :=
| WHEEL_OF_DESTINY_MAJOR_MELEE
| WHEEL_OF_DESTINY_MAJOR_SHIELD
| WHEEL_OF_DESTINY_MAJOR_DISTANCE
| WHEEL_OF_DESTINY_MAJOR_MAGIC.

Definition Major_eqb (a b : WheelOfDestinyMajor_t) : bool :=
  match a, b with
  | WHEEL_OF_DESTINY_MAJOR_MELEE, WHEEL_OF_DESTINY_MAJOR_MELEE
  | WHEEL_OF_DESTINY_MAJOR_SHIELD, WHEEL_OF_DESTINY_MAJOR_SHIELD
  | WHEEL_OF_DESTINY_MAJOR_DISTANCE, WHEEL_OF_DESTINY_MAJOR_DISTANCE
  | WHEEL_OF_DESTINY_MAJOR_MAGIC, WHEEL_OF_DESTINY_MAJOR_MAGIC => true
  | _, _ => false
  end.

Definition Position : Type := Z * Z * Z.

(** A creature on a tile: [id] stands for its address, [getMaster] for the
    address of its master when it has one. *)
Record Creature := { id : Z; getMaster : option Z }.

(** A tile, through [getTopVisibleCreature(this)]. *)
Record Tile := { getTopVisibleCreature : option Creature }.

Record Player := {
  self : Z;  (* the address [this] *)
  getPosition : Position;
  wheelOfDestinyMajorStats : WheelOfDestinyMajor_t -> Z;
  wheelOfDestinyCreaturesNearby : Z;
  battleInstinctTimer : Z  (* the on-think timer of this hook *)
}.

Definition getWheelOfDestinyMajorStat (p : Player) (m : WheelOfDestinyMajor_t) : Z :=
  wheelOfDestinyMajorStats p m.

Definition setWheelOfDestinyMajorStat (m : WheelOfDestinyMajor_t) (v : Z) (p : Player)
    : Player :=
  Build_Player (self p) (getPosition p)
    (fun k => if Major_eqb k m then v else wheelOfDestinyMajorStats p k)
    (wheelOfDestinyCreaturesNearby p) (battleInstinctTimer p).
Definition set_wheelOfDestinyCreaturesNearby (v : Z) (p : Player) : Player :=
  Build_Player (self p) (getPosition p) (wheelOfDestinyMajorStats p) v
    (battleInstinctTimer p).
Definition set_battleInstinctTimer (v : Z) (p : Player) : Player :=
  Build_Player (self p) (getPosition p) (wheelOfDestinyMajorStats p)
    (wheelOfDestinyCreaturesNearby p) v.

(** [g_game.map.getTile] and [OTSYS_TIME()]. *)
Record Env := { getTile : Position -> option Tile; OTSYS_TIME : Z }.

Section Methods.
Variable E : Env.

(** Whether the tile at the offset adds to [creaturesNearby]: it exists
    and its top visible creature is neither the player nor a summon of
    the player. *)
Definition countsAt (p : Player) (offsetX offsetY : Z) : bool :=
  let '(x, y, z) := getPosition p in
  match getTile E (x + offsetX, y + offsetY, z) with
  | None => false
  | Some tile =>
    match getTopVisibleCreature tile with
    | None => false
    | Some creature =>
      if (id creature =? self p)
         || match getMaster creature with
            | Some master => master =? self p
            | None => false
            end
      then false else true
    end
  end.

(** The two nested [for] loops over the offsets -1, 0, 1.  A [break]
    leaves the inner loop, and the outer one at its next test, as soon
    as eight creatures are counted; since the counter never falls, every
    later round is skipped. *)
Definition countNearby (p : Player) : Z :=
  fold_left
    (fun creaturesNearby offsetX =>
       if creaturesNearby >=? 8 then creaturesNearby
       else
         fold_left
           (fun creaturesNearby offsetY =>
              if creaturesNearby >=? 8 then creaturesNearby
              else if countsAt p offsetX offsetY then u16 (creaturesNearby + 1)
              else creaturesNearby)
           [-1; 0; 1] creaturesNearby)
    [-1; 0; 1] 0.

(** [bool Player::checkWheelOfDestinyBattleInstinct()] *)
Definition checkWheelOfDestinyBattleInstinct (p : Player) : Player * bool :=
  let p := set_battleInstinctTimer (OTSYS_TIME E + 2000) p in
  let p := set_wheelOfDestinyCreaturesNearby 0 p in
  let creaturesNearby := countNearby p in
  if creaturesNearby >=? 5 then
    let p := set_wheelOfDestinyCreaturesNearby creaturesNearby p in
    let creaturesNearby := u16 (creaturesNearby - 4) in
    let meleeSkill := u16 (1 * creaturesNearby) in
    let shieldSkill := u16 (6 * creaturesNearby) in
    if negb (getWheelOfDestinyMajorStat p WHEEL_OF_DESTINY_MAJOR_MELEE =? meleeSkill)
       || negb (getWheelOfDestinyMajorStat p WHEEL_OF_DESTINY_MAJOR_SHIELD
                =? shieldSkill)
    then
      let p := setWheelOfDestinyMajorStat WHEEL_OF_DESTINY_MAJOR_MELEE meleeSkill p in
      let p := setWheelOfDestinyMajorStat WHEEL_OF_DESTINY_MAJOR_SHIELD shieldSkill p in
      (p, true)
    else (p, false)
  else if negb (getWheelOfDestinyMajorStat p WHEEL_OF_DESTINY_MAJOR_MELEE =? 0)
          || negb (getWheelOfDestinyMajorStat p WHEEL_OF_DESTINY_MAJOR_SHIELD =? 0)
  then
    let p := setWheelOfDestinyMajorStat WHEEL_OF_DESTINY_MAJOR_MELEE 0 p in
    let p := setWheelOfDestinyMajorStat WHEEL_OF_DESTINY_MAJOR_SHIELD 0 p in
    (p, true)
  else (p, false).
End Methods.

(** The nine offsets in the order the loops visit them. *)
Definition neighborhood : list (Z * Z) :=
  [(-1, -1); (-1, 0); (-1, 1); (0, -1); (0, 0); (0, 1); (1, -1); (1, 0); (1, 1)].

(** The number of tiles of the neighborhood that count. *)
Definition countingTiles (E : Env) (p : Player) : Z :=
  Z.of_nat (length (List.filter (fun '(offsetX, offsetY) => countsAt E p offsetX offsetY)
                           neighborhood)).

(** One if the tile at the offset counts, zero if not. *)
Definition tile (E : Env) (p : Player) (offsetX offsetY : Z) : Z :=
  if countsAt E p offsetX offsetY then 1 else 0.

Definition melee (p : Player) : Z :=
  getWheelOfDestinyMajorStat p WHEEL_OF_DESTINY_MAJOR_MELEE.
Definition shield (p : Player) : Z :=
  getWheelOfDestinyMajorStat p WHEEL_OF_DESTINY_MAJOR_SHIELD.

(** §4.8 word for word: "above 5, adds (n-4) melee and 6(n-4) shield",
    and nothing otherwise. *)
Definition spec_battleInstinct (n : Z) : Z * Z :=
  if 5 <? n then (n - 4, 6 * (n - 4)) else (0, 0).

(** *** Concrete data for the evaluations *)

Definition wild (i : Z) : Tile :=
  {| getTopVisibleCreature := Some {| id := i; getMaster := None |} |}.

(** The player stands at (100, 100, 7); five of the eight tiles around
    hold a wild creature, the others are empty ground. *)
Definition five_around : Env := {|
  getTile := fun '(x, y, z) =>
    if (x =? 99) && (z =? 7) then Some (wild (200 + y))
    else if (x =? 100) && negb (y =? 100) && (z =? 7) then Some (wild (300 + y))
    else Some {| getTopVisibleCreature := None |};
  OTSYS_TIME := 5000
|}.

Definition calm_player : Player := {|
  self := 1; getPosition := (100, 100, 7);
  wheelOfDestinyMajorStats := fun _ => 0;
  wheelOfDestinyCreaturesNearby := 0; battleInstinctTimer := 0
|}.

End Wheel.

(** ** Mounts: a bit set in the storage map *)

Module Mounts.

(** [struct Mount], as far as the player code reads it. *)
Record Mount := { id : Z; speed : Z; premium : bool }.

(** What the mount code hands to the game. *)
Inductive Output :=
| ChangeSpeed (delta : Z)
| InternalCreatureChangeOutfit.

(** The members the mount code touches: the storage members of
    [Storage.Player], [defaultOutfit.lookMount], [group->access] (read by
    [isAccessPlayer()]) and the members [isPremium()] reads. *)
Record Player := {
  storage : Storage.Player;
  lookMount : Z;
  access : bool;
  groupFlags : Vip.PlayerFlags -> bool;
  premiumDays : Z;
  trace : list Output
}.

Definition set_storage (v : Storage.Player) (p : Player) : Player :=
  Build_Player v (lookMount p) (access p) (groupFlags p) (premiumDays p) (trace p).
Definition set_lookMount (v : Z) (p : Player) : Player :=
  Build_Player (storage p) v (access p) (groupFlags p) (premiumDays p) (trace p).
Definition emit (os : list Output) (p : Player) : Player :=
  Build_Player (storage p) (lookMount p) (access p) (groupFlags p) (premiumDays p)
    (trace p ++ os).

Definition hasFlag (p : Player) (f : Vip.PlayerFlags) : bool := groupFlags p f.
Definition isAccessPlayer (p : Player) : bool := access p.

(** The storage key constants, the key ranges and [isMounted()] are
    declared outside this file: they are parameters, as are the mount
    registry [g_game.mounts] and the configuration. *)
Record Env := {
  ranges : Storage.KeyRanges;
  dispatcherCycle : Z;
  FREE_PREMIUM : bool;
  PSTRG_MOUNTS_RANGE_START : Z;
  PSTRG_MOUNTS_CURRENTMOUNT : Z;
  getMountByID : Z -> option Mount;
  isMounted : Player -> bool
}.

Section Methods.
Variable E : Env.

(** [bool Player::isPremium() const] *)
Definition isPremium (p : Player) : bool :=
  if FREE_PREMIUM E || hasFlag p Vip.PlayerFlag_IsAlwaysPremium then true
  else premiumDays p >? 0.

(** [getStorageValue] and [addStorageValue] on the storage members; the
    key arrives as [uint32_t]. *)
Definition getStorageValue (p : Player) (key : Z) : bool * Z :=
  Storage.getStorageValue (storage p) (u32 key).

Definition addStorageValue (key value : Z) (p : Player) : Player :=
  set_storage
    (Storage.addStorageValue (ranges E) (dispatcherCycle E) (u32 key) value false
       (storage p)) p.

(** [uint8_t Player::getCurrentMount() const] *)
Definition getCurrentMount (p : Player) : Z :=
  let '(found, value) := getStorageValue p (PSTRG_MOUNTS_CURRENTMOUNT E) in
  if found then u8 value else 0.

(** [void Player::setCurrentMount(uint8_t mount)] *)
Definition setCurrentMount (mount : Z) (p : Player) : Player :=
  addStorageValue (PSTRG_MOUNTS_CURRENTMOUNT E) mount p.

(** [bool Player::tameMount(uint8_t mountId)].  The bit operations on
    [int32_t] cannot leave its range. *)
Definition tameMount (mountId : Z) (p : Player) : Player * bool :=
  match getMountByID E mountId with
  | None => (p, false)
  | Some _ =>
    let tmpMountId := u8 (mountId - 1) in
    let key := u32 (PSTRG_MOUNTS_RANGE_START E + tmpMountId / 31) in
    let '(found, value) := getStorageValue p key in
    let value := if found then Z.lor value (Z.shiftl 1 (tmpMountId mod 31))
                 else Z.shiftl 1 (tmpMountId mod 31) in
    (addStorageValue key value p, true)
  end.

(** [void Player::dismount()] *)
Definition dismount (p : Player) : Player :=
  let p := match getMountByID E (getCurrentMount p) with
           | Some mount =>
             if speed mount >? 0 then emit [ChangeSpeed (- speed mount)] p else p
           | None => p
           end in
  set_lookMount 0 p.

(** [bool Player::untameMount(uint8_t mountId)] *)
Definition untameMount (mountId : Z) (p : Player) : Player * bool :=
  match getMountByID E mountId with
  | None => (p, false)
  | Some _ =>
    let tmpMountId := u8 (mountId - 1) in
    let key := u32 (PSTRG_MOUNTS_RANGE_START E + tmpMountId / 31) in
    let '(found, value) := getStorageValue p key in
    if negb found then (p, true)
    else
      let value := Z.land value (Z.lnot (Z.shiftl 1 (tmpMountId mod 31))) in
      let p := addStorageValue key value p in
      let p :=
        if getCurrentMount p =? mountId then
          let p := if isMounted E p
                   then emit [InternalCreatureChangeOutfit] (dismount p)
                   else p in
          setCurrentMount 0 p
        else p in
      (p, true)
  end.

(** [bool Player::hasMount(const Mount* mount) const] *)
Definition hasMount (p : Player) (mount : Mount) : bool :=
  if isAccessPlayer p then true
  else if premium mount && negb (isPremium p) then false
  else
    let tmpMountId := u8 (id mount - 1) in
    let '(found, value) :=
      getStorageValue p (PSTRG_MOUNTS_RANGE_START E + tmpMountId / 31) in
    if negb found then false
    else negb (Z.land (Z.shiftl 1 (tmpMountId mod 31)) value =? 0).
End Methods.

(** The storage key of the group of 31 mounts that holds a mount id, and
    the mount's bit in the group. *)
Definition mountKey (E : Env) (mountId : Z) : Z :=
  u32 (PSTRG_MOUNTS_RANGE_START E + u8 (mountId - 1) / 31).
Definition mountBit (mountId : Z) : Z := u8 (mountId - 1) mod 31.

(** The value stored for the group of a mount id is not negative: it uses
    the bits 0 to 30 only, as [tameMount] and [untameMount] write them. *)
Definition group_clean (E : Env) (p : Player) (mountId : Z) : Prop :=
  forall v, Storage.storageMap (storage p) !! mountKey E mountId = Some v -> 0 <= v.

(** The bit of a mount in what is stored for its group. *)
Definition stored_bit (E : Env) (p : Player) (mount : Mount) : bool :=
  match Storage.storageMap (storage p) !! mountKey E (id mount) with
  | Some v => Z.testbit v (mountBit (id mount))
  | None => false
  end.

(** *** Concrete data for the evaluations *)

(** Modelled from the spec: the mount keys are declared outside
    player.cpp.  For the concrete evaluations only, they follow the
    upstream layout: the groups from key 10,002,001 on and the current
    mount at key 10,002,011; mounts 1 to 200 exist, those above 100 for
    premium accounts only. *)
Definition upstream_env : Env := {|
  ranges := Storage.upstream_ranges;
  dispatcherCycle := 0;
  FREE_PREMIUM := false;
  PSTRG_MOUNTS_RANGE_START := 10002001;
  PSTRG_MOUNTS_CURRENTMOUNT := 10002011;
  getMountByID := fun i =>
    if (1 <=? i) && (i <=? 200)
    then Some {| id := i; speed := 20; premium := 100 <? i |} else None;
  isMounted := fun p => negb (lookMount p =? 0)
|}.

Definition rider : Player := {|
  storage := Storage.empty_player; lookMount := 0; access := false;
  groupFlags := fun _ => false; premiumDays := 0; trace := []
|}.

Definition mount_of (i : Z) : Mount := {| id := i; speed := 20; premium := 100 <? i |}.
End Mounts.

(** ** Open containers *)

Module Containers.

(** An entry of [openContainers].  A [Container*] is the address of the
    object, and 0 is the null pointer. *)
Record OpenContainer := { container : Z; index : Z }.

(** The reference counter calls made on containers. *)
Inductive Output :=
| IncrementReferenceCounter (container : Z)
| DecrementReferenceCounter (container : Z).

(** [openContainers] is a [std::map<uint8_t, OpenContainer>]. *)
Record Player := { openContainers : gmap Z OpenContainer; trace : list Output }.

Definition set_openContainers (v : gmap Z OpenContainer) (p : Player) : Player :=
  Build_Player v (trace p).
Definition emit (os : list Output) (p : Player) : Player :=
  Build_Player (openContainers p) (trace p ++ os).

(** The item id of the browse field is declared outside this file;
    [getID] is the item id of the container at an address. *)
Record Env := { ITEM_BROWSEFIELD : Z; getID : Z -> Z }.

Section Methods.
Variable E : Env.

(** [void Player::addContainer(uint8_t cid, Container* container)] *)
Definition addContainer (cid container : Z) (p : Player) : Player :=
  if cid >? 15 then p
  else if container =? 0 then p
  else
    let p := if getID E container =? ITEM_BROWSEFIELD E
             then emit [IncrementReferenceCounter container] p else p in
    match openContainers p !! cid with
    | Some openContainer =>
      let oldContainer := Containers.container openContainer in
      let p := if getID E oldContainer =? ITEM_BROWSEFIELD E
               then emit [DecrementReferenceCounter oldContainer] p else p in
      set_openContainers
        (<[cid := {| container := container; index := 0 |}]> (openContainers p)) p
    | None =>
      set_openContainers
        (<[cid := {| container := container; index := 0 |}]> (openContainers p)) p
    end.

(** [void Player::closeContainer(uint8_t cid)] *)
Definition closeContainer (cid : Z) (p : Player) : Player :=
  match openContainers p !! cid with
  | None => p
  | Some openContainer =>
    let container := Containers.container openContainer in
    let p := set_openContainers (delete cid (openContainers p)) p in
    if negb (container =? 0) && (getID E container =? ITEM_BROWSEFIELD E)
    then emit [DecrementReferenceCounter container] p else p
  end.

(** [void Player::setContainerIndex(uint8_t cid, uint16_t index)] *)
Definition setContainerIndex (cid index : Z) (p : Player) : Player :=
  match openContainers p !! cid with
  | None => p
  | Some openContainer =>
    set_openContainers
      (<[cid := {| container := container openContainer; index := index |}]>
         (openContainers p)) p
  end.

(** [Container* Player::getContainerByID(uint8_t cid)] *)
Definition getContainerByID (cid : Z) (p : Player) : Z :=
  match openContainers p !! cid with
  | None => 0
  | Some openContainer => container openContainer
  end.

(** [int8_t Player::getContainerID(const Container* container) const]:
    the walk over the map visits the [uint8_t] keys in ascending order. *)
Definition getContainerID (container : Z) (p : Player) : Z :=
  match
    List.find (fun cid =>
                 match openContainers p !! cid with
                 | Some openContainer =>
                   Containers.container openContainer =? container
                 | None => false
                 end) (seqZ 0 256)
  with
  | Some cid => swrap 8 cid
  | None => -1
  end.

(** [uint16_t Player::getContainerIndex(uint8_t cid) const] *)
Definition getContainerIndex (cid : Z) (p : Player) : Z :=
  match openContainers p !! cid with
  | None => 0
  | Some openContainer => index openContainer
  end.

(** The calls that change [openContainers]. *)
Inductive ContainerCall :=
| CallAddContainer (cid container : Z)
| CallCloseContainer (cid : Z)
| CallSetContainerIndex (cid index : Z).

Definition call (c : ContainerCall) (p : Player) : Player :=
  match c with
  | CallAddContainer cid container => addContainer cid container p
  | CallCloseContainer cid => closeContainer cid p
  | CallSetContainerIndex cid index => setContainerIndex cid index p
  end.

Definition run (cs : list ContainerCall) (p : Player) : Player :=
  fold_left (fun p c => call c p) cs p.
End Methods.

(** The [cid] of a call is a byte. *)
Definition byte_cid (c : ContainerCall) : Prop :=
  match c with
  | CallAddContainer cid _ | CallCloseContainer cid | CallSetContainerIndex cid _ =>
    0 <= cid < 256
  end.

(** Every open [cid] is one of 0 to 15 and holds a container. *)
Definition well_kept (p : Player) : Prop :=
  forall cid openContainer,
    openContainers p !! cid = Some openContainer ->
    0 <= cid <= 15 /\ container openContainer <> 0.



Definition nobody : Player := {| openContainers := ∅; trace := [] |}.

(** Item 460 is the browse field; the containers at the addresses below
    1000 are browse fields, the others are bags. *)
Definition example_env : Env :=
  {| ITEM_BROWSEFIELD := 460; getID := fun c => if c <? 1000 then 460 else 2853 |}.

(** A bag open in two windows, under the cids 5 and 3, and another bag
    under cid 1. *)
Definition two_windows : Player :=
  run example_env
      [CallAddContainer 5 2000; CallAddContainer 3 2000; CallAddContainer 1 2001]
      nobody.
End Containers.

(** ** The skull timer *)

Module SkullTicks.
Import Unjustified.

(** [void Player::checkSkullTicks(int64_t ticks)]; [inFight] is
    [hasCondition(CONDITION_INFIGHT)]. *)
Definition checkSkullTicks (inFight : bool) (ticks : Z) (p : Player) : Player :=
  let newTicks := i64 (skullTicks p - ticks) in
  let p := if newTicks <? 0 then set_skullTicks 0 p else set_skullTicks newTicks p in
  if match skull p with SKULL_RED | SKULL_BLACK => true | _ => false end
     && (skullTicks p <? 1) && negb inFight
  then setSkull SKULL_NONE p
  else p.

(** A black skull with a minute left on it. *)
Definition marked : Player := {|
  id := 1; getName := "Marked"; getGUID := 1001; groupFlags := fun _ => false;
  skull := SKULL_BLACK; skullTicks := 60000; unjustifiedKills := []; trace := []
|}.
End SkullTicks.

(** ** More hands for the evaluations *)

Module HandExamples.
Import Inventory.

(** A player who carries only the given item, in the left hand. *)
Definition holding_left (item : Item) : Player := {|
  inventory := fun s => match s with CONST_SLOT_LEFT => Some item | _ => None end;
  groupFlags := fun _ => false;
  getFreeCapacity := 40000
|}.

(** A player who may not pick up anything. *)
Definition barred : Player := {|
  inventory := fun _ => None;
  groupFlags := fun f => match f with
                         | PlayerFlag_CannotPickupItem => true
                         | PlayerFlag_HasInfiniteCapacity => false
                         end;
  getFreeCapacity := 40000
|}.
End HandExamples.

(** ** Outfits *)

Module Outfits.

(** [struct Outfit], as far as the player code reads it. *)
Record Outfit := { lookType : Z; premium : bool; unlocked : bool }.

(** The members the outfit code touches: [outfits], a vector of entries
    ([lookType], [addons]) as in [Storage.Player], [sex], [group->access]
    and the members [isPremium()] reads. *)
Record Player := {
  outfits : list (Z * Z);
  sex : Z;
  access : bool;
  groupFlags : Vip.PlayerFlags -> bool;
  premiumDays : Z
}.

Definition set_outfits (v : list (Z * Z)) (p : Player) : Player :=
  Build_Player v (sex p) (access p) (groupFlags p) (premiumDays p).

Definition hasFlag (p : Player) (f : Vip.PlayerFlags) : bool := groupFlags p f.

(** The outfit registry and the configuration. *)
Record Env := {
  FREE_PREMIUM : bool;
  getOutfitByLookType : Z -> Z -> option Outfit
}.

(** The walk of [addOutfit] and [removeOutfitAddon] to the first entry of
    a look type, which it updates; [None] when there is none. *)
Fixpoint update_first (lookType : Z) (f : Z -> Z) (entries : list (Z * Z))
    : option (list (Z * Z)) :=
  match entries with
  | [] => None
  | (entryLookType, entryAddons) :: rest =>
    if entryLookType =? lookType then Some ((entryLookType, f entryAddons) :: rest)
    else match update_first lookType f rest with
         | Some rest' => Some ((entryLookType, entryAddons) :: rest')
         | None => None
         end
  end.

(** The walk of [removeOutfit], which erases the first entry of a look
    type. *)
Fixpoint erase_first (lookType : Z) (entries : list (Z * Z))
    : option (list (Z * Z)) :=
  match entries with
  | [] => None
  | (entryLookType, entryAddons) :: rest =>
    if entryLookType =? lookType then Some rest
    else match erase_first lookType rest with
         | Some rest' => Some ((entryLookType, entryAddons) :: rest')
         | None => None
         end
  end.

(** The first entry of a look type, as the [for] loops of [canWear] and
    [getOutfitAddons] find it. *)
Definition first_entry (lookType : Z) (entries : list (Z * Z)) : option (Z * Z) :=
  List.find (fun entry => fst entry =? lookType) entries.

Section Methods.
Variable E : Env.

(** [bool Player::isPremium() const] *)
Definition isPremium (p : Player) : bool :=
  if FREE_PREMIUM E || hasFlag p Vip.PlayerFlag_IsAlwaysPremium then true
  else premiumDays p >? 0.

(** [bool Player::canWear(uint32_t lookType, uint8_t addons) const] *)
Definition canWear (lookType addons : Z) (p : Player) : bool :=
  if access p then true
  else
    match getOutfitByLookType E (sex p) lookType with
    | None => false
    | Some outfit =>
      if premium outfit && negb (isPremium p) then false
      else if unlocked outfit && (addons =? 0) then true
      else
        match first_entry lookType (outfits p) with
        | Some outfitEntry => Z.land (snd outfitEntry) addons =? addons
        | None => false
        end
    end.

(** [void Player::addOutfit(uint16_t lookType, uint8_t addons)] *)
Definition addOutfit (lookType addons : Z) (p : Player) : Player :=
  match update_first lookType (fun entryAddons => u8 (Z.lor entryAddons addons))
          (outfits p) with
  | Some entries => set_outfits entries p
  | None => set_outfits (outfits p ++ [(lookType, addons)]) p
  end.

(** [bool Player::removeOutfit(uint16_t lookType)] *)
Definition removeOutfit (lookType : Z) (p : Player) : Player * bool :=
  match erase_first lookType (outfits p) with
  | Some entries => (set_outfits entries p, true)
  | None => (p, false)
  end.

(** [bool Player::removeOutfitAddon(uint16_t lookType, uint8_t addons)] *)
Definition removeOutfitAddon (lookType addons : Z) (p : Player) : Player * bool :=
  match update_first lookType
          (fun entryAddons => u8 (Z.land entryAddons (Z.lnot addons)))
          (outfits p) with
  | Some entries => (set_outfits entries p, true)
  | None => (p, false)
  end.

(** [bool Player::getOutfitAddons(const Outfit& outfit, uint8_t& addons)
    const]: the result, with the addons when it is true. *)
Definition getOutfitAddons (outfit : Outfit) (p : Player) : option Z :=
  if access p then Some 3
  else if premium outfit && negb (isPremium p) then None
  else
    match first_entry (lookType outfit) (outfits p) with
    | Some outfitEntry => Some (snd outfitEntry)
    | None => if negb (unlocked outfit) then None else Some 0
    end.
End Methods.

(** *** Concrete data for the evaluations *)

(** Look types 128 to 160 are registered for every sex, free of charge
    and locked. *)
Definition example_env : Env := {|
  FREE_PREMIUM := false;
  getOutfitByLookType := fun _ l =>
    if (128 <=? l) && (l <=? 160)
    then Some {| lookType := l; premium := false; unlocked := false |}
    else None
|}.

(** A player who owns the look type 128 without addons. *)
Definition citizen : Player := {|
  outfits := [(128, 0)]; sex := 1; access := false; groupFlags := fun _ => false;
  premiumDays := 0
|}.
End Outfits.

(** * Properties *)

(** ** Machine integers *)

Lemma wrap_small w z : 0 <= z < 2 ^ w -> wrap w z = z.
Proof. intros H. unfold wrap. apply Z.mod_small. exact H. Qed.

Lemma wrap_range w z : 0 <= w -> 0 <= wrap w z < 2 ^ w.
Proof.
  intros Hw. unfold wrap. apply Z.mod_pos_bound.
  apply Z.pow_pos_nonneg; lia.
Qed.

Lemma swrap_small w z :
  0 < w -> - 2 ^ (w - 1) <= z < 2 ^ (w - 1) -> swrap w z = z.
Proof.
  intros Hw H. unfold swrap.
  assert (E : 2 ^ w = 2 * 2 ^ (w - 1)).
  { replace w with (Z.succ (w - 1)) at 1 by lia. apply Z.pow_succ_r. lia. }
  rewrite Z.mod_small; lia.
Qed.

Lemma u8_small z : 0 <= z < 256 -> u8 z = z.
Proof. intros H. apply wrap_small. change (2 ^ 8) with 256. exact H. Qed.

Lemma u16_small z : 0 <= z < 65536 -> u16 z = z.
Proof. intros H. apply wrap_small. change (2 ^ 16) with 65536. exact H. Qed.

Lemma u64_range z : 0 <= u64 z < 2 ^ 64.
Proof. apply wrap_range. lia. Qed.

Lemma i64_small z : - 2 ^ 63 <= z < 2 ^ 63 -> i64 z = z.
Proof. intros H. apply swrap_small; [lia | exact H]. Qed.

(** ** Storage *)

Section StorageFacts.
Import Storage.
Variable R : KeyRanges.
Variable dispatcherCycle : Z.

Lemma getStorageValue_lookup (p : Player) (key : Z) :
  getStorageValue p key =
  match storageMap p !! key with Some v => (true, v) | None => (false, -1) end.
Proof. unfold getStorageValue. destruct (storageMap p !! key); reflexivity. Qed.

(** A write that reaches the map: the key reads back when the value is not
    the sentinel, and is absent when it is. *)
Lemma store_lookup (key value : Z) (isLogin : bool) (p : Player) :
  storageMap (store dispatcherCycle key value isLogin p) !! key =
  if value =? -1 then None else Some value.
Proof.
  unfold store. destruct (value =? -1); simpl.
  - apply lookup_delete_eq.
  - apply lookup_insert_eq.
Qed.

Lemma store_lookup_other (key key' value : Z) (isLogin : bool) (p : Player) :
  key <> key' ->
  storageMap (store dispatcherCycle key value isLogin p) !! key' = storageMap p !! key'.
Proof.
  intros Hne. unfold store. destruct (value =? -1); simpl.
  - apply lookup_delete_ne. exact Hne.
  - apply lookup_insert_ne. exact Hne.
Qed.

Lemma addStorageValue_reaches_map (key value : Z) (isLogin : bool) (p : Player) :
  reaches_map R key ->
  addStorageValue R dispatcherCycle key value isLogin p
  = store dispatcherCycle key value isLogin p.
Proof.
  intros [Hres | [Hout Hmount]]; unfold addStorageValue.
  - rewrite Hres. reflexivity.
  - rewrite Hout, Hmount. destruct (in_RESERVED_RANGE R key); reflexivity.
Qed.

(** The sentinel never enters the map through [addStorageValue]. *)
Lemma addStorageValue_keeps_sentinel_out (key value : Z) (isLogin : bool) (p : Player) :
  (forall k, storageMap p !! k <> Some (-1)) ->
  forall k,
    storageMap (addStorageValue R dispatcherCycle key value isLogin p) !! k <> Some (-1).
Proof.
  intros Hinv k.
  assert (Hstore : storageMap (store dispatcherCycle key value isLogin p) !! k
                   <> Some (-1)).
  { destruct (decide (key = k)) as [-> | Hne].
    - rewrite store_lookup. destruct (value =? -1) eqn:Hv; [discriminate |].
      apply Z.eqb_neq in Hv. congruence.
    - rewrite store_lookup_other by exact Hne. apply Hinv. }
  unfold addStorageValue.
  destruct (in_RESERVED_RANGE R key); [| exact Hstore].
  destruct (in_OUTFITS_RANGE R key); [apply Hinv |].
  destruct (in_MOUNTS_RANGE R key); [exact Hstore |].
  destruct (in_FAMILIARS_RANGE R key); apply Hinv.
Qed.

(** C9, as amended: for a key that is not reserved (or is a mount key) and
    a value other than -1, [addStorageValue] followed by [getStorageValue]
    on the same key returns true and yields the value. *)
Theorem addStorageValue_getStorageValue (key value : Z) (isLogin : bool) (p : Player) :
  value <> -1 ->
  reaches_map R key ->
  getStorageValue (addStorageValue R dispatcherCycle key value isLogin p) key
  = (true, value).
Proof.
  intros Hv Hkey.
  rewrite addStorageValue_reaches_map by exact Hkey.
  rewrite getStorageValue_lookup, store_lookup.
  apply Z.eqb_neq in Hv. rewrite Hv. reflexivity.
Qed.

(** C10: for a key outside the reserved block, [addStorageValue] with -1
    erases the key, so [getStorageValue] answers false with -1 in the
    out-parameter; and no call stores -1 in a map that held none. *)
Theorem addStorageValue_sentinel_erases (key : Z) (isLogin : bool) (p : Player) :
  in_RESERVED_RANGE R key = false ->
  let p' := addStorageValue R dispatcherCycle key (-1) isLogin p in
  storageMap p' = delete key (storageMap p)
  /\ storageMap p' !! key = None
  /\ getStorageValue p' key = (false, -1)
  /\ ((forall k, storageMap p !! k <> Some (-1)) ->
      forall k, storageMap p' !! k <> Some (-1)).
Proof.
  intros Hres p'.
  assert (Hp' : p' = store dispatcherCycle key (-1) isLogin p).
  { apply addStorageValue_reaches_map. left. exact Hres. }
  assert (Hlook : storageMap p' !! key = None).
  { rewrite Hp'. rewrite store_lookup. reflexivity. }
  split; [rewrite Hp'; reflexivity |].
  split; [exact Hlook |].
  split.
  - rewrite getStorageValue_lookup, Hlook. reflexivity.
  - apply addStorageValue_keeps_sentinel_out.
Qed.
End StorageFacts.

(** C9 as stated fails on an outfit key: the write is turned into an outfit
    entry, nothing is stored, and the read finds no value. *)
Lemma addStorageValue_outfit_key_not_stored :
  65539 <> -1
  /\ Storage.getStorageValue
       (Storage.addStorageValue Storage.upstream_ranges 0 10001000 65539 false
          Storage.empty_player) 10001000
     = (false, -1)
  /\ Storage.outfits
       (Storage.addStorageValue Storage.upstream_ranges 0 10001000 65539 false
          Storage.empty_player)
     = [(1, 3)].
Proof. split; [lia |]. split; reflexivity. Qed.

Lemma addStorageValue_getStorageValue_witness :
  Storage.getStorageValue
    (Storage.addStorageValue Storage.upstream_ranges 0 42 7 false Storage.empty_player) 42
  = (true, 7).
Proof.
  apply (addStorageValue_getStorageValue Storage.upstream_ranges 0 42 7 false
           Storage.empty_player).
  - lia.
  - left. reflexivity.
Defined.

Lemma addStorageValue_sentinel_erases_witness :
  Storage.getStorageValue
    (Storage.addStorageValue Storage.upstream_ranges 0 42 (-1) false
       (Storage.addStorageValue Storage.upstream_ranges 0 42 7 false
          Storage.empty_player)) 42
  = (false, -1).
Proof.
  apply (addStorageValue_sentinel_erases Storage.upstream_ranges 0 42 false
           (Storage.addStorageValue Storage.upstream_ranges 0 42 7 false
              Storage.empty_player)).
  reflexivity.
Defined.
(** ** Doubles *)

(** *** Powers of two and binades *)

Lemma pow2_pos (e : Z) : (0 < 2 ^ e)%Q.
Proof. apply Qpower_0_lt. reflexivity. Qed.

Lemma pow2_add (a b : Z) : (2 ^ (a + b) == 2 ^ a * 2 ^ b)%Q.
Proof. apply Qpower_plus. discriminate. Qed.

Lemma pow2_le (a b : Z) : a <= b -> (2 ^ a <= 2 ^ b)%Q.
Proof.
  intros H. replace b with (a + (b - a)) by lia. rewrite pow2_add.
  assert (H1 : (1 <= 2 ^ (b - a))%Q) by (apply Qpower_1_le; [discriminate | lia]).
  pose proof (pow2_pos a). nra.
Qed.

Lemma pow2_lt (a b : Z) : a < b -> (2 ^ a < 2 ^ b)%Q.
Proof.
  intros H. replace b with (a + (b - a)) by lia. rewrite pow2_add.
  assert (H1 : (1 < 2 ^ (b - a))%Q) by (apply Qpower_1_lt; [reflexivity | lia]).
  pose proof (pow2_pos a). nra.
Qed.

Lemma pow2_Z (k : Z) : 0 <= k -> (2 ^ k == inject_Z (2 ^ k))%Q.
Proof. intros H. symmetry. apply (Zpower_Qpower 2 k H). Qed.

Lemma pow2_succ (a : Z) : (2 ^ (a + 1) == 2 * 2 ^ a)%Q.
Proof. rewrite pow2_add. change (2 ^ 1)%Q with 2%Q. ring. Qed.

Lemma Qlog2_spec (x : Q) :
  (0 < x)%Q -> (2 ^ Qlog2 x <= x /\ x < 2 ^ (Qlog2 x + 1))%Q.
Proof.
  intros Hx. unfold Qlog2.
  destruct x as [n d]. cbn [Qnum Qden].
  assert (Hn : 0 < n) by (unfold Qlt in Hx; cbn in Hx; lia).
  rewrite (Z.abs_eq n) by lia.
  set (a := Z.log2 n). set (b := Z.log2 (Z.pos d)).
  destruct (Z.log2_spec n Hn) as [Ha1 Ha2]. fold a in Ha1, Ha2.
  destruct (Z.log2_spec (Z.pos d) ltac:(lia)) as [Hb1 Hb2]. fold b in Hb1, Hb2.
  assert (Ha0 : 0 <= a) by apply Z.log2_nonneg.
  assert (Hb0 : 0 <= b) by apply Z.log2_nonneg.
  set (N := inject_Z n). set (D := inject_Z (Z.pos d)).
  assert (HxND : (n # d == N / D)%Q) by (subst N D; apply Qmake_Qdiv).
  assert (HN1 : (2 ^ a <= N)%Q) by (rewrite pow2_Z by lia; subst N; rewrite <- Zle_Qle; exact Ha1).
  assert (HN2 : (N < 2 ^ (a + 1))%Q).
  { rewrite pow2_Z by lia. subst N. rewrite <- Zlt_Qlt.
    replace (a + 1) with (Z.succ a) by lia. exact Ha2. }
  assert (HD1 : (2 ^ b <= D)%Q) by (rewrite pow2_Z by lia; subst D; rewrite <- Zle_Qle; exact Hb1).
  assert (HD2 : (D < 2 ^ (b + 1))%Q).
  { rewrite pow2_Z by lia. subst D. rewrite <- Zlt_Qlt.
    replace (b + 1) with (Z.succ b) by lia. exact Hb2. }
  assert (HD0 : (0 < D)%Q) by (pose proof (pow2_pos b); lra).
  assert (Hxd : ((n # d) * D == N)%Q) by (rewrite HxND; field; lra).
  rewrite (Qabs_pos (n # d)) by (apply Qlt_le_weak; exact Hx).
  set (X := (n # d)) in *. clearbody X N D.
  assert (Hab : (2 ^ (a - b) * 2 ^ b == 2 ^ a)%Q).
  { rewrite <- pow2_add. replace (a - b + b) with a by lia. reflexivity. }
  pose proof (pow2_pos a) as Pa. pose proof (pow2_pos b) as Pb.
  pose proof (pow2_pos (a - b)) as Pab.
  rewrite pow2_succ in HN2, HD2.
  destruct (Qle_bool (2 ^ (a - b)) X) eqn:Hle.
  - apply Qle_bool_iff in Hle. split; [exact Hle |].
    rewrite pow2_succ. nra.
  - assert (Hlt : (X < 2 ^ (a - b))%Q).
    { apply Qnot_le_lt. intros H. apply Qle_bool_iff in H. congruence. }
    replace (a - b - 1 + 1) with (a - b) by lia. split; [| exact Hlt].
    assert (H2 : (2 * 2 ^ (a - b - 1) == 2 ^ (a - b))%Q).
    { rewrite <- pow2_succ. replace (a - b - 1 + 1) with (a - b) by lia. reflexivity. }
    pose proof (pow2_pos (a - b - 1)). nra.
Qed.

Lemma Qlog2_unique (x : Q) (e : Z) :
  (0 < x)%Q -> (2 ^ e <= x)%Q -> (x < 2 ^ (e + 1))%Q -> Qlog2 x = e.
Proof.
  intros Hx Hlo Hhi. destruct (Qlog2_spec x Hx) as [Slo Shi].
  destruct (Z.lt_trichotomy (Qlog2 x) e) as [Hlt | [Heq | Hgt]]; [| exact Heq |].
  - pose proof (pow2_le (Qlog2 x + 1) e ltac:(lia)). lra.
  - pose proof (pow2_le (e + 1) (Qlog2 x) ltac:(lia)). lra.
Qed.

Lemma Qlog2_le (x y : Q) : (0 < x)%Q -> (x <= y)%Q -> Qlog2 x <= Qlog2 y.
Proof.
  intros Hx Hxy. destruct (Qlog2_spec x Hx) as [Xlo Xhi].
  destruct (Qlog2_spec y ltac:(lra)) as [Ylo Yhi].
  destruct (Z.le_gt_cases (Qlog2 x) (Qlog2 y)) as [H | H]; [exact H |].
  pose proof (pow2_le (Qlog2 y + 1) (Qlog2 x) ltac:(lia)). lra.
Qed.

(** *** Rounding to the nearest integer *)

Lemma rne_floor (x : Q) : rne x = Qfloor x \/ rne x = Qfloor x + 1.
Proof.
  unfold rne. destruct (x - inject_Z (Qfloor x) ?= 1 # 2)%Q; auto.
  destruct (Z.even (Qfloor x)); auto.
Qed.

Lemma rne_error (x : Q) :
  (x - (1 # 2) <= inject_Z (rne x) /\ inject_Z (rne x) <= x + (1 # 2))%Q.
Proof.
  pose proof (Qfloor_le x) as Hlo. pose proof (Qlt_floor x) as Hhi.
  rewrite inject_Z_plus in Hhi. change (inject_Z 1) with 1%Q in Hhi.
  unfold rne.
  destruct (x - inject_Z (Qfloor x) ?= 1 # 2)%Q eqn:Hc.
  - apply Qeq_alt in Hc. destruct (Z.even (Qfloor x));
      [| rewrite inject_Z_plus; change (inject_Z 1) with 1%Q]; lra.
  - apply Qlt_alt in Hc. lra.
  - apply Qgt_alt in Hc. rewrite inject_Z_plus. change (inject_Z 1) with 1%Q. lra.
Qed.

Lemma rne_comp (x y : Q) : (x == y)%Q -> rne x = rne y.
Proof.
  intros H. unfold rne. rewrite (Qfloor_comp x y H).
  assert (Hc : (x - inject_Z (Qfloor y) ?= 1 # 2)%Q
               = (y - inject_Z (Qfloor y) ?= 1 # 2)%Q).
  { apply Qcompare_comp; [rewrite H |]; reflexivity. }
  rewrite Hc. reflexivity.
Qed.

Lemma rne_le (x y : Q) : (x <= y)%Q -> rne x <= rne y.
Proof.
  intros Hxy. destruct (Qle_lt_or_eq _ _ Hxy) as [Hlt | Heq].
  - destruct (rne_error x) as [_ Hx]. destruct (rne_error y) as [Hy _].
    destruct (Z.le_gt_cases (rne x) (rne y)) as [H | H]; [exact H | exfalso].
    assert (H1 : (inject_Z (rne y) + 1 <= inject_Z (rne x))%Q).
    { change 1%Q with (inject_Z 1). rewrite <- inject_Z_plus, <- Zle_Qle. lia. }
    lra.
  - rewrite (rne_comp x y Heq). lia.
Qed.

Lemma rne_Z (n : Z) : rne (inject_Z n) = n.
Proof.
  unfold rne. rewrite Qfloor_Z.
  assert (Hc : (inject_Z n - inject_Z n ?= 1 # 2)%Q = Lt).
  { apply (proj1 (Qlt_alt _ _)). generalize (inject_Z n). intros q. lra. }
  rewrite Hc. reflexivity.
Qed.

(** *** Rounding to binary64 *)

Lemma fl_pos_eq (x : Q) :
  (0 < x)%Q ->
  fl x = (inject_Z (rne (x / 2 ^ Z.max (Qlog2 x - 52) (-1074)))
          * 2 ^ Z.max (Qlog2 x - 52) (-1074))%Q.
Proof.
  intros Hx. unfold fl.
  destruct (Qeq_bool x 0) eqn:H0; [| reflexivity].
  apply Qeq_bool_iff in H0. lra.
Qed.

Lemma fl_0 (x : Q) : (x == 0)%Q -> fl x = 0%Q.
Proof.
  intros H. unfold fl. apply Qeq_bool_iff in H. rewrite H. reflexivity.
Qed.

Lemma scaled (x : Q) (c : Z) : (x / 2 ^ c * 2 ^ c == x)%Q.
Proof. pose proof (pow2_pos c). field. lra. Qed.

Lemma fl_nonneg (x : Q) : (0 <= x)%Q -> (0 <= fl x)%Q.
Proof.
  intros Hx. destruct (Qle_lt_or_eq _ _ Hx) as [Hpos | Hz].
  - rewrite fl_pos_eq by exact Hpos.
    set (c := Z.max (Qlog2 x - 52) (-1074)).
    pose proof (pow2_pos c) as Pc.
    assert (Hm : (0 <= x / 2 ^ c)%Q).
    { apply Qle_shift_div_l; [exact Pc | lra]. }
    pose proof (rne_le 0 (x / 2 ^ c) Hm) as Hr.
    change 0%Q with (inject_Z 0) in Hr at 1. rewrite rne_Z in Hr.
    rewrite Zle_Qle in Hr. change (inject_Z 0) with 0%Q in Hr. nra.
  - rewrite fl_0 by (symmetry; exact Hz). lra.
Qed.

(** The error of one rounding: half a unit in the last place. *)
Lemma fl_error (x : Q) :
  (0 < x)%Q ->
  (Qabs (fl x - x) <= 2 ^ Z.max (Qlog2 x - 52) (-1074) * (1 # 2))%Q.
Proof.
  intros Hx. rewrite fl_pos_eq by exact Hx.
  set (c := Z.max (Qlog2 x - 52) (-1074)).
  pose proof (pow2_pos c) as Pc. pose proof (scaled x c) as Hs.
  destruct (rne_error (x / 2 ^ c)) as [Hlo Hhi].
  set (m := (x / 2 ^ c)%Q) in *. set (r := inject_Z (rne m)) in *.
  assert (H : (r * 2 ^ c - x == (r - m) * 2 ^ c)%Q) by (rewrite <- Hs; ring).
  rewrite H. clear H Hs. set (P := (2 ^ c)%Q) in *. clearbody P r m.
  apply Qabs_Qle_condition. split; nra.
Qed.

(** In the normal range the error is at most 2^-53 of the value. *)
Lemma fl_relative (x : Q) :
  (2 ^ (-1022) <= x)%Q ->
  (x * (1 - 2 ^ (-53)) <= fl x /\ fl x <= x * (1 + 2 ^ (-53)))%Q.
Proof.
  intros Hn. pose proof (pow2_pos (-1022)) as P.
  assert (Hx : (0 < x)%Q) by lra.
  pose proof (fl_error x Hx) as He.
  destruct (Qlog2_spec x Hx) as [Hlo Hhi].
  assert (Hl : -1022 <= Qlog2 x).
  { destruct (Z.le_gt_cases (-1022) (Qlog2 x)) as [H | H]; [exact H |].
    pose proof (pow2_le (Qlog2 x + 1) (-1022) ltac:(lia)). lra. }
  rewrite Z.max_l in He by lia.
  assert (Hc : (2 ^ (Qlog2 x - 52) * (1 # 2) == 2 ^ Qlog2 x * 2 ^ (-53))%Q).
  { rewrite <- pow2_add. replace (Qlog2 x + -53) with (Qlog2 x - 52 + -1) by lia.
    rewrite pow2_add. reflexivity. }
  rewrite Hc in He. apply Qabs_Qle_condition in He.
  pose proof (pow2_pos (-53)) as P53. pose proof (pow2_pos (Qlog2 x)) as Pe.
  set (u := (2 ^ (-53))%Q) in *. set (E := (2 ^ Qlog2 x)%Q) in *.
  clearbody u E. clear Hhi P Hn. split; nra.
Qed.

(** Integers below 2^53 are binary64 numbers. *)
Lemma fl_Z (n : Z) : 0 <= n < 2 ^ 53 -> (fl (inject_Z n) == inject_Z n)%Q.
Proof.
  intros Hn. destruct (Z.eq_dec n 0) as [-> | Hne]; [reflexivity |].
  assert (Hx : (0 < inject_Z n)%Q).
  { change 0%Q with (inject_Z 0). rewrite <- Zlt_Qlt. lia. }
  rewrite fl_pos_eq by exact Hx.
  destruct (Qlog2_spec _ Hx) as [Hlo Hhi].
  assert (He : 0 <= Qlog2 (inject_Z n) <= 52).
  { split.
    - destruct (Z.le_gt_cases 0 (Qlog2 (inject_Z n))) as [H | H]; [exact H |].
      pose proof (pow2_le (Qlog2 (inject_Z n) + 1) 0 ltac:(lia)) as Hp.
      change (2 ^ 0)%Q with 1%Q in Hp.
      assert (H1 : (1 <= inject_Z n)%Q).
      { change 1%Q with (inject_Z 1). rewrite <- Zle_Qle. lia. }
      lra.
    - destruct (Z.le_gt_cases (Qlog2 (inject_Z n)) 52) as [H | H]; [exact H |].
      pose proof (pow2_le 53 (Qlog2 (inject_Z n)) ltac:(lia)) as Hp.
      rewrite (pow2_Z 53) in Hp by lia.
      assert (H1 : (inject_Z n < inject_Z (2 ^ 53))%Q) by (rewrite <- Zlt_Qlt; lia).
      lra. }
  rewrite Z.max_l by lia.
  set (c := Qlog2 (inject_Z n) - 52).
  assert (Hm : (inject_Z n / 2 ^ c == inject_Z (n * 2 ^ (- c)))%Q).
  { rewrite inject_Z_mult, <- (pow2_Z (- c)) by lia.
    rewrite Qpower_opp. pose proof (pow2_pos c). field. lra. }
  rewrite (rne_comp _ _ Hm), rne_Z, inject_Z_mult, <- (pow2_Z (- c)) by lia.
  rewrite Qpower_opp. pose proof (pow2_pos c). field. lra.
Qed.

(** Rounding keeps a number within its binade: between the powers of two
    around it. *)
Lemma fl_binade (x : Q) :
  (0 < x)%Q -> -1022 <= Qlog2 x ->
  (2 ^ Qlog2 x <= fl x /\ fl x <= 2 ^ (Qlog2 x + 1))%Q.
Proof.
  intros Hx Hn. rewrite fl_pos_eq by exact Hx.
  destruct (Qlog2_spec x Hx) as [Hlo Hhi].
  rewrite Z.max_l by lia.
  set (e := Qlog2 x) in *. set (c := e - 52).
  pose proof (pow2_pos c) as Pc. pose proof (scaled x c) as Hs.
  assert (H52 : (2 ^ e == inject_Z (2 ^ 52) * 2 ^ c)%Q).
  { rewrite <- (pow2_Z 52), <- pow2_add by lia. subst c.
    replace (52 + (e - 52)) with e by lia. reflexivity. }
  assert (H53 : (2 ^ (e + 1) == inject_Z (2 ^ 53) * 2 ^ c)%Q).
  { rewrite <- (pow2_Z 53), <- pow2_add by lia. subst c.
    replace (53 + (e - 52)) with (e + 1) by lia. reflexivity. }
  set (m := (x / 2 ^ c)%Q) in *.
  assert (Hm1 : (inject_Z (2 ^ 52) <= m)%Q).
  { apply Qmult_le_r with (z := (2 ^ c)%Q); [exact Pc |]. rewrite Hs, <- H52. exact Hlo. }
  assert (Hm2 : (m <= inject_Z (2 ^ 53))%Q).
  { apply Qmult_le_r with (z := (2 ^ c)%Q); [exact Pc |]. rewrite Hs, <- H53.
    apply Qlt_le_weak. exact Hhi. }
  pose proof (rne_le _ _ Hm1) as R1. pose proof (rne_le _ _ Hm2) as R2.
  rewrite rne_Z in R1, R2. rewrite Zle_Qle in R1, R2.
  rewrite H52, H53. split; apply Qmult_le_compat_r; try assumption;
    apply Qlt_le_weak; exact Pc.
Qed.

(** Rounding is monotone (stated for numbers that are not negative). *)
Lemma fl_le (x y : Q) : (0 <= x)%Q -> (x <= y)%Q -> (fl x <= fl y)%Q.
Proof.
  intros Hx Hxy.
  destruct (Qle_lt_or_eq _ _ Hx) as [Hpos | Hz].
  2:{ rewrite (fl_0 x) by (symmetry; exact Hz). apply fl_nonneg. lra. }
  assert (Hy : (0 < y)%Q) by lra.
  pose proof (Qlog2_le x y Hpos Hxy) as Hlog.
  destruct (Qlog2_spec x Hpos) as [Xlo Xhi].
  destruct (Qlog2_spec y Hy) as [Ylo Yhi].
  set (cx := Z.max (Qlog2 x - 52) (-1074)).
  set (cy := Z.max (Qlog2 y - 52) (-1074)).
  destruct (Z.eq_dec cx cy) as [Hc | Hc].
  - (* the same unit in the last place *)
    rewrite (fl_pos_eq x Hpos), (fl_pos_eq y Hy). fold cx cy. rewrite <- Hc.
    pose proof (pow2_pos cx) as Pc.
    assert (Hm : (x / 2 ^ cx <= y / 2 ^ cx)%Q).
    { apply Qmult_le_r with (z := (2 ^ cx)%Q); [exact Pc |]. rewrite !scaled. exact Hxy. }
    pose proof (rne_le _ _ Hm) as Hr. rewrite Zle_Qle in Hr.
    apply Qmult_le_compat_r; [exact Hr | apply Qlt_le_weak; exact Pc].
  - (* y lies in a higher binade, and is normal *)
    assert (Hlt : Qlog2 x < Qlog2 y) by (subst cx cy; lia).
    assert (Hny : -1022 <= Qlog2 y) by (subst cx cy; lia).
    destruct (fl_binade y Hy Hny) as [By _].
    apply Qle_trans with (2 ^ Qlog2 y)%Q; [| exact By].
    apply Qle_trans with (2 ^ (Qlog2 x + 1))%Q; [| apply pow2_le; lia].
    (* fl x stays at or below the next power of two *)
    rewrite (fl_pos_eq x Hpos). fold cx.
    pose proof (pow2_pos cx) as Pc. pose proof (scaled x cx) as Hs.
    set (m := (x / 2 ^ cx)%Q) in *.
    set (k := Qlog2 x + 1 - cx).
    assert (Hk : (2 ^ (Qlog2 x + 1) == 2 ^ k * 2 ^ cx)%Q).
    { rewrite <- pow2_add. subst k. replace (Qlog2 x + 1 - cx + cx) with (Qlog2 x + 1) by lia.
      reflexivity. }
    assert (Hm : (m < 2 ^ k)%Q).
    { apply Qmult_lt_r with (z := (2 ^ cx)%Q); [exact Pc |]. rewrite Hs, <- Hk. exact Xhi. }
    rewrite Hk. apply Qmult_le_compat_r; [| apply Qlt_le_weak; exact Pc].
    destruct (Z.le_gt_cases 0 k) as [Hk0 | Hk0].
    + rewrite (pow2_Z k) in Hm |- * by exact Hk0.
      pose proof (rne_le _ _ (Qlt_le_weak _ _ Hm)) as Hr. rewrite rne_Z in Hr.
      rewrite <- Zle_Qle. exact Hr.
    + (* far below the smallest step: rounds to zero *)
      assert (Hhalf : (2 ^ k <= 1 # 2)%Q).
      { change (1 # 2)%Q with (2 ^ (-1))%Q. apply pow2_le. lia. }
      assert (Hm0 : (0 < m)%Q).
      { apply Qmult_lt_r with (z := (2 ^ cx)%Q); [exact Pc |]. rewrite Hs. lra. }
      assert (Hr : rne m = 0).
      { unfold rne.
        assert (Hf : Qfloor m = 0).
        { pose proof (Qfloor_le m) as F1. pose proof (Qlt_floor m) as F2.
          assert (F3 : (inject_Z (Qfloor m) < 1)%Q) by lra.
          assert (F4 : (-1 < inject_Z (Qfloor m + 1) - 1)%Q) by lra.
          change 1%Q with (inject_Z 1) in F3. rewrite <- Zlt_Qlt in F3.
          rewrite inject_Z_plus in F4. change (inject_Z 1) with 1%Q in F4.
          assert (F5 : (inject_Z (-1) < inject_Z (Qfloor m))%Q)
            by (change (inject_Z (-1)) with (-1)%Q; lra).
          rewrite <- Zlt_Qlt in F5. lia. }
        rewrite Hf.
        assert (Hcmp : (m - inject_Z 0 ?= 1 # 2)%Q = Lt).
        { apply (proj1 (Qlt_alt _ _)). change (inject_Z 0) with 0%Q. lra. }
        rewrite Hcmp. reflexivity. }
      rewrite Hr. change (inject_Z 0) with 0%Q. apply Qlt_le_weak, pow2_pos.
Qed.

(** Three values to compare with a machine: 0.1 and 1/3 as binary64, and
    the first integer that is not a binary64 number, which goes to the
    even neighbour. *)
Example fl_known_values :
  (fl (1 # 10) == 3602879701896397 # 36028797018963968)%Q
  /\ (fl (1 # 3) == 6004799503160661 # 18014398509481984)%Q
  /\ (fl (inject_Z (2 ^ 53 + 1)) == inject_Z (2 ^ 53))%Q
  /\ (fl (inject_Z (2 ^ 53 + 3)) == inject_Z (2 ^ 53 + 4))%Q.
Proof. repeat split; vm_compute; reflexivity. Qed.

(** Rounding does not depend on how the rational is written. *)
Lemma Qlog2_comp (x y : Q) : (0 < x)%Q -> (x == y)%Q -> Qlog2 x = Qlog2 y.
Proof.
  intros Hx Hxy. destruct (Qlog2_spec x Hx) as [Hlo Hhi].
  symmetry. apply Qlog2_unique; rewrite <- Hxy; assumption.
Qed.

Lemma fl_comp (x y : Q) : (0 <= x)%Q -> (x == y)%Q -> fl x = fl y.
Proof.
  intros Hx Hxy. destruct (Qle_lt_or_eq _ _ Hx) as [Hpos | Hz].
  - rewrite (fl_pos_eq x Hpos). rewrite (fl_pos_eq y) by (rewrite <- Hxy; exact Hpos).
    rewrite <- (Qlog2_comp x y Hpos Hxy).
    rewrite (rne_comp (x / 2 ^ Z.max (Qlog2 x - 52) (-1074))
                      (y / 2 ^ Z.max (Qlog2 x - 52) (-1074))).
    + reflexivity.
    + apply Qdiv_comp; [exact Hxy | reflexivity].
  - rewrite (fl_0 x) by (symmetry; exact Hz).
    rewrite (fl_0 y) by (rewrite <- Hxy; symmetry; exact Hz). reflexivity.
Qed.

(** The relative error with its constant written out, for the values the
    progression code rounds. *)
Lemma fl_rel (x : Q) :
  (1 # 1099511627776 <= x)%Q ->
  (x * (1 - (1 # 9007199254740992)) <= fl x
   /\ fl x <= x * (1 + (1 # 9007199254740992)))%Q.
Proof.
  intros Hx. apply (fl_relative x).
  apply Qle_trans with (2 ^ (-40))%Q; [apply pow2_le; lia | exact Hx].
Qed.

(** *** Floors of rounded values *)

Lemma Qfloor_unique (x : Q) (k : Z) :
  (inject_Z k <= x)%Q -> (x < inject_Z k + 1)%Q -> Qfloor x = k.
Proof.
  intros Hlo Hhi.
  pose proof (Qfloor_le x) as Flo. pose proof (Qlt_floor x) as Fhi.
  rewrite inject_Z_plus in Fhi. change (inject_Z 1) with 1%Q in Fhi.
  assert (H1 : (inject_Z k < inject_Z (Qfloor x) + 1)%Q) by lra.
  assert (H2 : (inject_Z (Qfloor x) < inject_Z k + 1)%Q) by lra.
  change 1%Q with (inject_Z 1) in H1, H2. rewrite <- inject_Z_plus in H1, H2.
  rewrite <- Zlt_Qlt in H1, H2. lia.
Qed.

(** A value within [delta] of the fraction [T / D], [delta * D < 1]: its
    floor is the integer quotient unless [D] divides [T]. *)
Lemma floor_near (z delta : Q) (T D : Z) :
  0 < D ->
  (delta * inject_Z D < 1)%Q ->
  (inject_Z T / inject_Z D - delta <= z)%Q ->
  (z <= inject_Z T / inject_Z D + delta)%Q ->
  (T mod D <> 0 -> Qfloor z = T / D)
  /\ (T mod D = 0 -> Qfloor z = T / D \/ Qfloor z = T / D - 1).
Proof.
  intros HD Hdelta Hlo Hhi.
  pose proof (Z.div_mod T D ltac:(lia)) as Hdm.
  pose proof (Z.mod_pos_bound T D HD) as Hm.
  set (k := T / D) in *. set (f := T mod D) in *.
  assert (Hd : (1 <= inject_Z D)%Q).
  { change 1%Q with (inject_Z 1). rewrite <- Zle_Qle. lia. }
  assert (Ht : (inject_Z T / inject_Z D == inject_Z k + inject_Z f / inject_Z D)%Q).
  { rewrite Hdm. rewrite inject_Z_plus, inject_Z_mult. field. lra. }
  rewrite Ht in Hlo, Hhi. clear Ht.
  set (i := (/ inject_Z D)%Q).
  assert (Hi : (inject_Z D * i == 1)%Q) by (unfold i; field; lra).
  assert (Hi0 : (0 < i)%Q) by (unfold i; apply Qinv_lt_0_compat; lra).
  assert (Hfd : (inject_Z f / inject_Z D == inject_Z f * i)%Q) by reflexivity.
  rewrite Hfd in Hlo, Hhi. clear Hfd.
  assert (Hdi : (delta < i)%Q).
  { assert (H : (delta * inject_Z D * i < 1 * i)%Q).
    { apply Qmult_lt_compat_r; assumption. }
    setoid_replace (delta * inject_Z D * i)%Q with (delta * (inject_Z D * i))%Q using relation Qeq in H by ring.
    rewrite Hi in H. lra. }
  assert (Hi1 : (i <= 1)%Q).
  { assert (H : (1 * i <= inject_Z D * i)%Q).
    { apply Qmult_le_compat_r; lra. }
    rewrite Hi in H. lra. }
  split.
  - intros Hf. apply Qfloor_unique.
    + assert (Hf1 : (1 <= inject_Z f)%Q).
      { change 1%Q with (inject_Z 1). rewrite <- Zle_Qle. lia. }
      assert (H : (1 * i <= inject_Z f * i)%Q).
      { apply Qmult_le_compat_r; lra. }
      lra.
    + assert (Hf1 : (inject_Z f <= inject_Z D - 1)%Q).
      { change 1%Q with (inject_Z 1). unfold Qminus.
        rewrite <- inject_Z_opp, <- inject_Z_plus, <- Zle_Qle. lia. }
      assert (H : (inject_Z f * i <= (inject_Z D - 1) * i)%Q).
      { apply Qmult_le_compat_r; lra. }
      setoid_replace ((inject_Z D - 1) * i)%Q with (inject_Z D * i - i)%Q using relation Qeq in H by ring.
      rewrite Hi in H. lra.
  - intros Hf. rewrite Hf in Hlo, Hhi.
    setoid_replace (inject_Z 0 * i)%Q with 0%Q using relation Qeq in Hlo by ring.
    setoid_replace (inject_Z 0 * i)%Q with 0%Q using relation Qeq in Hhi by ring.
    destruct (Qlt_le_dec z (inject_Z k)) as [Hlt | Hge].
    + right. apply Qfloor_unique.
      * unfold Z.sub. rewrite inject_Z_plus, inject_Z_opp. change (inject_Z 1) with 1%Q. lra.
      * unfold Z.sub. rewrite inject_Z_plus, inject_Z_opp. change (inject_Z 1) with 1%Q. lra.
    + left. apply Qfloor_unique; lra.
Qed.

(** *** Conversions and quotients of integers *)

Lemma inject_Z_nonneg (n : Z) : 0 <= n -> (0 <= inject_Z n)%Q.
Proof. intros H. change 0%Q with (inject_Z 0). rewrite <- Zle_Qle. exact H. Qed.

Lemma dint_small (n : Z) : 0 <= n < 2 ^ 53 -> (dint n == inject_Z n)%Q.
Proof. apply fl_Z. Qed.

(** The quotient of two integers below [2 ^ 53], as [ddiv] sees it. *)
Lemma ddiv_dint (a b : Z) :
  0 <= a < 2 ^ 53 -> 0 < b < 2 ^ 53 ->
  ddiv (dint a) (dint b) = fl (inject_Z a / inject_Z b).
Proof.
  intros Ha Hb. unfold ddiv. apply fl_comp.
  - rewrite (dint_small a Ha), (dint_small b) by lia.
    apply Qle_shift_div_l.
    + change 0%Q with (inject_Z 0). rewrite <- Zlt_Qlt. lia.
    + setoid_replace (0 * inject_Z b)%Q with 0%Q using relation Qeq by ring.
      apply inject_Z_nonneg. lia.
  - rewrite (dint_small a Ha), (dint_small b) by lia. reflexivity.
Qed.

(** A positive fraction of integers below [2 ^ 32] is at least [2 ^ -32]. *)
Lemma fraction_bounds (a b : Z) :
  0 < a -> 0 < b < 2 ^ 32 ->
  (1 # 4294967296 <= inject_Z a / inject_Z b)%Q.
Proof.
  intros Ha Hb.
  assert (Hb0 : (0 < inject_Z b)%Q).
  { change 0%Q with (inject_Z 0). rewrite <- Zlt_Qlt. lia. }
  apply Qle_shift_div_l; [exact Hb0 |].
  assert (H1 : (inject_Z b <= 4294967296)%Q).
  { change 4294967296%Q with (inject_Z 4294967296). rewrite <- Zle_Qle. lia. }
  assert (H2 : (1 <= inject_Z a)%Q).
  { change 1%Q with (inject_Z 1). rewrite <- Zle_Qle. lia. }
  lra.
Qed.

Lemma fraction_le (a b : Z) (m : Q) :
  0 < b -> (inject_Z a <= m * inject_Z b)%Q -> (inject_Z a / inject_Z b <= m)%Q.
Proof.
  intros Hb H. apply Qle_shift_div_r; [| exact H].
  change 0%Q with (inject_Z 0). rewrite <- Zlt_Qlt. exact Hb.
Qed.

(** [count * 100.] and its quotient by the width, in [getPercentLevel]. *)
Lemma dmul_dint_100 (c : Z) :
  0 <= c < 2 ^ 32 -> (dmul (dint c) 100 == inject_Z (c * 100))%Q.
Proof.
  intros Hc. unfold dmul.
  rewrite (fl_comp (dint c * 100) (inject_Z (c * 100))).
  - apply fl_Z. lia.
  - rewrite (dint_small c) by lia.
    assert (H := inject_Z_nonneg c ltac:(lia)). lra.
  - rewrite (dint_small c) by lia. rewrite inject_Z_mult. reflexivity.
Qed.

Lemma percent_quotient (c n : Z) :
  0 <= c < 2 ^ 32 -> 0 < n < 2 ^ 32 ->
  ddiv (dmul (dint c) 100) (dint n) = fl (inject_Z (c * 100) / inject_Z n).
Proof.
  intros Hc Hn. unfold ddiv.
  assert (Hn0 : (0 < inject_Z n)%Q).
  { change 0%Q with (inject_Z 0). rewrite <- Zlt_Qlt. lia. }
  apply fl_comp.
  - rewrite (dmul_dint_100 c Hc), (dint_small n) by lia.
    apply Qle_shift_div_l; [exact Hn0 |].
    setoid_replace (0 * inject_Z n)%Q with 0%Q using relation Qeq by ring.
    apply inject_Z_nonneg. lia.
  - rewrite (dmul_dint_100 c Hc), (dint_small n) by lia. reflexivity.
Qed.


(** ** The two roundings of the progression code, in integer arithmetic *)

(** [reduce * 100 + 0.5] of [death], for a level below the summed levels,
    whatever their size: between 0 and 100.5. *)
Lemma reduce_bounds (l s : Z) :
  0 <= l < s ->
  (0 <= dadd (dmul (ddiv (dint l) (dint s)) 100) (1 # 2)
   /\ dadd (dmul (ddiv (dint l) (dint s)) 100) (1 # 2) < 101)%Q.
Proof.
  intros H. unfold dadd, dmul, ddiv, dint.
  assert (F1 : (fl 1 == 1)%Q) by (vm_compute; reflexivity).
  assert (Hl : (0 <= fl (inject_Z l))%Q).
  { apply fl_nonneg. apply inject_Z_nonneg. lia. }
  assert (Hs : (1 <= fl (inject_Z s))%Q).
  { rewrite <- F1. apply fl_le; [discriminate |].
    change 1%Q with (inject_Z 1). rewrite <- Zle_Qle. lia. }
  assert (Hls : (fl (inject_Z l) <= fl (inject_Z s))%Q).
  { apply fl_le; [apply inject_Z_nonneg; lia | rewrite <- Zle_Qle; lia]. }
  set (a := fl (inject_Z l)) in *. set (b := fl (inject_Z s)) in *.
  assert (Hq0 : (0 <= a / b)%Q).
  { apply Qle_shift_div_l; lra. }
  assert (Hq1 : (a / b <= 1)%Q).
  { apply Qle_shift_div_r; lra. }
  assert (R0 : (0 <= fl (a / b))%Q) by (apply fl_nonneg; exact Hq0).
  assert (R1 : (fl (a / b) <= 1)%Q).
  { rewrite <- F1. apply fl_le; assumption. }
  set (r := fl (a / b)) in *.
  assert (S0 : (0 <= fl (r * 100))%Q) by (apply fl_nonneg; lra).
  assert (S1 : (fl (r * 100) <= 100)%Q).
  { apply Qle_trans with (fl 100); [apply fl_le; lra | vm_compute; discriminate]. }
  set (t := fl (r * 100)) in *.
  split.
  - apply fl_nonneg. lra.
  - apply Qle_lt_trans with (201 # 2)%Q; [| reflexivity].
    apply Qle_trans with (fl (201 # 2)); [apply fl_le; lra | vm_compute; discriminate].
Qed.

(** For sums below 2^32 it is within 2^-40 of the exact value. *)
Lemma reduction_near (l s : Z) :
  0 <= l < s -> s < 2 ^ 32 ->
  let z := dadd (dmul (ddiv (dint l) (dint s)) 100) (1 # 2) in
  (inject_Z (200 * l + s) / inject_Z (2 * s) - (1 # 1099511627776) <= z
   /\ z <= inject_Z (200 * l + s) / inject_Z (2 * s) + (1 # 1099511627776))%Q.
Proof.
  intros Hl Hs z.
  assert (Hs0 : (0 < inject_Z s)%Q).
  { change 0%Q with (inject_Z 0). rewrite <- Zlt_Qlt. lia. }
  assert (Ht : (inject_Z (200 * l + s) / inject_Z (2 * s)
                == inject_Z l / inject_Z s * 100 + (1 # 2))%Q).
  { rewrite inject_Z_plus, !inject_Z_mult.
    change (inject_Z 200) with 200%Q. change (inject_Z 2) with 2%Q. field. lra. }
  rewrite Ht. unfold z. rewrite ddiv_dint by lia.
  set (x0 := (inject_Z l / inject_Z s)%Q).
  destruct (Z.eq_dec l 0) as [-> | Hl0].
  - assert (Hx0 : (x0 == 0)%Q) by (unfold x0; field; lra).
    rewrite (fl_0 x0 Hx0). unfold dmul. rewrite (fl_0 (0 * 100)) by reflexivity.
    unfold dadd. rewrite Hx0. split; vm_compute; discriminate.
  - assert (Hx1 : (1 # 4294967296 <= x0)%Q) by (apply fraction_bounds; lia).
    assert (Hx2 : (x0 <= 1)%Q).
    { apply fraction_le; [lia |].
      setoid_replace (1 * inject_Z s)%Q with (inject_Z s) using relation Qeq by ring.
      rewrite <- Zle_Qle. lia. }
    destruct (fl_rel x0) as [A1 A2]; [lra |].
    unfold dmul, dadd.
    destruct (fl_rel (fl x0 * 100)) as [B1 B2]; [lra |].
    destruct (fl_rel (fl (fl x0 * 100) + (1 # 2))) as [C1 C2]; [lra |].
    split; lra.
Qed.

(** Its floor is the nearest integer to [100 * l / s], halves upwards;
    at an exact half the rounded value may fall just below it. *)
Lemma reduction_floor (l s : Z) :
  0 <= l < s -> s < 2 ^ 32 ->
  let z := dadd (dmul (ddiv (dint l) (dint s)) 100) (1 # 2) in
  ((200 * l + s) mod (2 * s) <> 0 -> floor z = (200 * l + s) / (2 * s))
  /\ ((200 * l + s) mod (2 * s) = 0 ->
      floor z = (200 * l + s) / (2 * s) \/ floor z = (200 * l + s) / (2 * s) - 1).
Proof.
  intros Hl Hs z. unfold floor.
  destruct (reduction_near l s Hl Hs) as [Hlo Hhi]. fold z in Hlo, Hhi.
  apply (floor_near z (1 # 1099511627776)); [lia | | exact Hlo | exact Hhi].
  rewrite inject_Z_mult. change (inject_Z 2) with 2%Q.
  assert (Hs1 : (inject_Z s <= 4294967296)%Q).
  { change 4294967296%Q with (inject_Z 4294967296). rewrite <- Zle_Qle. lia. }
  lra.
Qed.

(** The argument of [round] in [getPercentLevel], for a count that does not
    exceed the width: within 2^-38 of the exact value. *)
Lemma percent_near (c n : Z) :
  0 <= c <= n -> 0 < n < 2 ^ 32 ->
  let z := dmul (ddiv (dmul (dint c) 100) (dint n)) 100 in
  (0 <= z
   /\ inject_Z (20000 * c + n) / inject_Z (2 * n) - (1 # 274877906944) <= z + (1 # 2)
   /\ z + (1 # 2) <= inject_Z (20000 * c + n) / inject_Z (2 * n) + (1 # 274877906944))%Q.
Proof.
  intros Hc Hn z.
  assert (Hn0 : (0 < inject_Z n)%Q).
  { change 0%Q with (inject_Z 0). rewrite <- Zlt_Qlt. lia. }
  assert (Ht : (inject_Z (20000 * c + n) / inject_Z (2 * n)
                == inject_Z (c * 100) / inject_Z n * 100 + (1 # 2))%Q).
  { rewrite inject_Z_plus, !inject_Z_mult.
    change (inject_Z 20000) with 20000%Q. change (inject_Z 2) with 2%Q.
    change (inject_Z 100) with 100%Q. field. lra. }
  rewrite Ht. unfold z. rewrite percent_quotient by lia.
  set (x0 := (inject_Z (c * 100) / inject_Z n)%Q). unfold dmul.
  destruct (Z.eq_dec c 0) as [-> | Hc0].
  - assert (Hx0 : (x0 == 0)%Q) by (unfold x0; change (inject_Z (0 * 100)) with 0%Q; field; lra).
    rewrite (fl_0 x0 Hx0). rewrite (fl_0 (0 * 100)) by reflexivity.
    rewrite Hx0. repeat split; vm_compute; discriminate.
  - assert (Hx1 : (1 # 4294967296 <= x0)%Q) by (apply fraction_bounds; lia).
    assert (Hx2 : (x0 <= 100)%Q).
    { apply fraction_le; [lia |].
      change 100%Q with (inject_Z 100). rewrite <- inject_Z_mult, <- Zle_Qle. lia. }
    destruct (fl_rel x0) as [A1 A2]; [lra |].
    destruct (fl_rel (fl x0 * 100)) as [B1 B2]; [lra |].
    repeat split; lra.
Qed.

Lemma getPercentLevel_nearest (c n : Z) :
  0 <= c <= n -> 0 < n < 2 ^ 32 ->
  ((20000 * c + n) mod (2 * n) <> 0 ->
   Progression.getPercentLevel c n = ddiv (inject_Z ((20000 * c + n) / (2 * n))) 100)
  /\ ((20000 * c + n) mod (2 * n) = 0 ->
      Progression.getPercentLevel c n = ddiv (inject_Z ((20000 * c + n) / (2 * n))) 100
      \/ Progression.getPercentLevel c n = ddiv (inject_Z ((20000 * c + n) / (2 * n) - 1)) 100).
Proof.
  intros Hc Hn.
  destruct (percent_near c n Hc Hn) as [Hz [Hlo Hhi]].
  unfold Progression.getPercentLevel.
  destruct (Z.eqb_spec n 0) as [-> | _]; [lia |].
  set (z := dmul (ddiv (dmul (dint c) 100) (dint n)) 100) in *.
  assert (Hround : round z = Qfloor (z + (1 # 2))).
  { unfold round. apply Qle_bool_iff in Hz. rewrite Hz. reflexivity. }
  rewrite Hround.
  assert (Hk : (20000 * c + n) / (2 * n) <= 10000).
  { apply Z.lt_succ_r. apply Z.div_lt_upper_bound; lia. }
  assert (Hguard : forall r : Z, 0 <= r <= 10000 ->
            Qlt_bool 100 (ddiv (inject_Z r) 100) = false).
  { intros r Hr. unfold Qlt_bool. apply negb_false_iff. apply Qle_bool_iff.
    unfold ddiv.
    apply Qle_trans with (fl 100).
    - apply fl_le.
      + apply Qle_shift_div_l; [reflexivity |].
        setoid_replace (0 * 100)%Q with 0%Q using relation Qeq by ring. apply inject_Z_nonneg. lia.
      + apply Qle_shift_div_r; [reflexivity |].
        change (100 * 100)%Q with (inject_Z 10000). rewrite <- Zle_Qle. lia.
    - vm_compute. discriminate. }
  assert (Hr0 : 0 <= Qfloor (z + (1 # 2))).
  { change 0 with (Qfloor 0). apply Qfloor_resp_le. lra. }
  destruct (floor_near (z + (1 # 2)) (1 # 274877906944) (20000 * c + n) (2 * n))
    as [Hoff Htie]; [lia | | exact Hlo | exact Hhi |].
  { rewrite inject_Z_mult. change (inject_Z 2) with 2%Q.
    assert (H1 : (inject_Z n <= 4294967296)%Q).
    { change 4294967296%Q with (inject_Z 4294967296). rewrite <- Zle_Qle. lia. }
    lra. }
  split.
  - intros Hm. rewrite (Hoff Hm) in *. rewrite Hguard by lia. reflexivity.
  - intros Hm. destruct (Htie Hm) as [He | He]; rewrite He in *.
    + left. rewrite Hguard by lia. reflexivity.
    + right. rewrite Hguard by lia. reflexivity.
Qed.

(** ** Progression *)

Section ProgressionFacts.
Import Progression.
Variable E : Env.

Lemma fold_left_invariant {A B : Type} (P : A -> Prop) (f : A -> B -> A) (l : list B) :
  (forall a b, P a -> P (f a b)) -> forall a, P a -> P (fold_left f l a).
Proof.
  intros Hstep. induction l as [| b l IH]; intros a Ha; simpl.
  - exact Ha.
  - apply IH. apply Hstep. exact Ha.
Qed.

Lemma expForLevel_range (lvl : Z) : 0 <= expForLevel E lvl < 2 ^ 64.
Proof. unfold expForLevel. apply u64_range. Qed.

Lemma expForLevel_u32 (lvl : Z) : expForLevel E (u32 lvl) = expForLevel E lvl.
Proof.
  unfold expForLevel, u32, wrap. rewrite Z.mod_mod by lia. reflexivity.
Qed.

(** With the locals equal to the table's entries for the level, the stored
    percentage is the closed form. *)
Lemma percentOfLevel_recomputed (p : Player) :
  percentOfLevel p (expForLevel E (level p)) (expForLevel E (level p + 1))
  = recomputed_levelPercent E p.
Proof.
  unfold percentOfLevel, recomputed_levelPercent.
  pose proof (expForLevel_range (level p)) as Hc.
  pose proof (expForLevel_range (level p + 1)) as Hn.
  destruct (Z.gtb_spec (expForLevel E (level p + 1)) (expForLevel E (level p)))
    as [Hgt | _]; [| reflexivity].
  assert (Hu : u64 (expForLevel E (level p + 1) - expForLevel E (level p))
               = expForLevel E (level p + 1) - expForLevel E (level p)).
  { apply wrap_small. lia. }
  rewrite Hu. reflexivity.
Qed.

(** *** Plateaus *)

(** C5: when the required-tries curve does not rise from the skill's
    current level, [addSkillAdvance] returns the player as it was (level
    and tries with it) for any count; when the required-mana curve does not
    rise from the current magic level, so does [addManaSpent]. *)
Theorem plateau_is_noop (p : Player) :
  (forall skill count,
      reqSkillTries p skill (Skill.level (skills p skill) + 1)
      <= reqSkillTries p skill (Skill.level (skills p skill)) ->
      addSkillAdvance E skill count p = p)
  /\ (forall amount,
         reqMana p (magLevel p + 1) <= reqMana p (magLevel p) ->
         addManaSpent E amount p = p).
Proof.
  split.
  - intros skill count H. unfold addSkillAdvance.
    destruct (Z.geb_spec (reqSkillTries p skill (Skill.level (skills p skill)))
                         (reqSkillTries p skill (Skill.level (skills p skill) + 1)))
      as [_ | Hlt]; [reflexivity | lia].
  - intros amount H. unfold addManaSpent.
    destruct (hasFlag p PlayerFlag_NotGainMana); [reflexivity |].
    destruct (Z.geb_spec (reqMana p (magLevel p)) (reqMana p (magLevel p + 1)))
      as [_ | Hlt]; [reflexivity | lia].
Qed.

(** *** The loops of the experience paths *)

Lemma levelUp_level (p : Player) : level (levelUp E p) = u32 (level p + 1).
Proof. reflexivity. Qed.

Lemma levelUp_experience (p : Player) : experience (levelUp E p) = experience p.
Proof. reflexivity. Qed.

Lemma levelDown_level (p : Player) : level (levelDown E p) = u32 (level p - 1).
Proof. reflexivity. Qed.

Lemma levelDown_experience (p : Player) : experience (levelDown E p) = experience p.
Proof. reflexivity. Qed.

Lemma death_levelDown_level (p : Player) : level (death_levelDown p) = u32 (level p - 1).
Proof. reflexivity. Qed.

Lemma death_levelDown_experience (p : Player) :
  experience (death_levelDown p) = experience p.
Proof. reflexivity. Qed.

(** The loop of [addExperience] keeps its locals at the table's entries
    for the level reached, and does not touch the experience. *)
Lemma addExperience_loop_locals (fuel : nat) :
  forall p c n,
    c = expForLevel E (level p) -> n = expForLevel E (level p + 1) ->
    let '(p', c', n') := addExperience_loop E fuel p c n in
    c' = expForLevel E (level p') /\ n' = expForLevel E (level p' + 1)
    /\ experience p' = experience p.
Proof.
  induction fuel as [| fuel IH]; intros p c n Hc Hn; cbn [addExperience_loop].
  - auto.
  - destruct (experience p >=? n); [| auto].
    assert (Hc1 : n = expForLevel E (level (levelUp E p))).
    { rewrite levelUp_level, expForLevel_u32. exact Hn. }
    destruct (n >=? expForLevel E (level (levelUp E p) + 1)).
    + split; [exact Hc1 |]. split; [reflexivity | apply levelUp_experience].
    + specialize (IH (levelUp E p) n (expForLevel E (level (levelUp E p) + 1))
                     Hc1 eq_refl).
      destruct (addExperience_loop E fuel (levelUp E p) n
                  (expForLevel E (level (levelUp E p) + 1))) as [[p' c'] n'].
      rewrite <- (levelUp_experience p). exact IH.
Qed.

(** The fuel is enough: the loop of [addExperience] stops because its
    condition fails or because it breaks at the end of the table. *)
Lemma addExperience_loop_exits (fuel : nat) :
  forall p c n,
    (Z.to_nat (experience p + 1 - n) <= fuel)%nat ->
    let '(p', c', n') := addExperience_loop E fuel p c n in
    experience p' < n' \/ n' <= c'.
Proof.
  induction fuel as [| fuel IH]; intros p c n Hfuel; cbn [addExperience_loop].
  - left. lia.
  - destruct (Z.geb_spec (experience p) n) as [Hge | Hlt]; [| left; exact Hlt].
    destruct (Z.geb_spec n (expForLevel E (level (levelUp E p) + 1)))
      as [Hbreak | Hgo].
    + right. exact Hbreak.
    + apply IH. rewrite levelUp_experience. lia.
Qed.

Lemma removeExperience_loop_locals (fuel : nat) :
  forall p c,
    c = expForLevel E (level p) ->
    let '(p', c') := removeExperience_loop E fuel p c in
    c' = expForLevel E (level p') /\ experience p' = experience p.
Proof.
  induction fuel as [| fuel IH]; intros p c Hc; cbn [removeExperience_loop].
  - auto.
  - destruct ((level p >? 1) && (experience p <? c)); [| auto].
    specialize (IH (levelDown E p) (expForLevel E (level (levelDown E p))) eq_refl).
    destruct (removeExperience_loop E fuel (levelDown E p)
                (expForLevel E (level (levelDown E p)))) as [p' c'].
    rewrite <- (levelDown_experience p). exact IH.
Qed.

(** The fuel is enough: the loop of [removeExperience] stops because its
    condition fails. *)
Lemma removeExperience_loop_exits (fuel : nat) :
  forall p c,
    in_u32 (level p) -> (Z.to_nat (level p) <= fuel)%nat ->
    let '(p', c') := removeExperience_loop E fuel p c in
    level p' <= 1 \/ c' <= experience p'.
Proof.
  induction fuel as [| fuel IH]; intros p c Hrange Hfuel;
    cbn [removeExperience_loop].
  - left. lia.
  - destruct (Z.gtb_spec (level p) 1) as [Hgt | Hle]; [| left; exact Hle].
    destruct (Z.ltb_spec (experience p) c) as [Hlt | Hge]; [| right; exact Hge].
    cbn [andb].
    assert (Hl : level (levelDown E p) = level p - 1).
    { rewrite levelDown_level. apply wrap_small. unfold in_u32 in Hrange. lia. }
    apply IH; unfold in_u32 in *; rewrite Hl; lia.
Qed.

Lemma death_level_loop_exits (fuel : nat) :
  forall p,
    in_u32 (level p) -> (Z.to_nat (level p) <= fuel)%nat ->
    let p' := death_level_loop E fuel p in
    level p' <= 1 \/ expForLevel E (level p') <= experience p'.
Proof.
  induction fuel as [| fuel IH]; intros p Hrange Hfuel; cbn [death_level_loop].
  - left. lia.
  - destruct (Z.gtb_spec (level p) 1) as [Hgt | Hle]; [| left; exact Hle].
    destruct (Z.ltb_spec (experience p) (expForLevel E (level p))) as [Hlt | Hge];
      [| right; exact Hge].
    cbn [andb].
    assert (Hl : level (death_levelDown p) = level p - 1).
    { rewrite death_levelDown_level. apply wrap_small. unfold in_u32 in Hrange. lia. }
    apply IH; unfold in_u32 in *; rewrite Hl; lia.
Qed.

(** *** What the phases of [death] leave alone *)

Lemma death_magic_loop_keeps {A : Type} (f : Player -> A) :
  (forall v, keeps f (set_manaSpent v)) -> (forall v, keeps f (set_magLevel v)) ->
  forall fuel p lostMana, f (fst (death_magic_loop fuel p lostMana)) = f p.
Proof.
  intros Hm Hl. induction fuel as [| fuel IH]; intros p lostMana; simpl.
  - reflexivity.
  - destruct ((lostMana >? manaSpent p) && (magLevel p >? 0)); [| reflexivity].
    rewrite IH, Hl, Hm. reflexivity.
Qed.

Lemma death_magicLoss_keeps {A : Type} (f : Player -> A) (dlp : Q) :
  (forall v, keeps f (set_manaSpent v)) -> (forall v, keeps f (set_magLevel v)) ->
  (forall v, keeps f (set_magLevelPercent v)) ->
  keeps f (death_magicLoss dlp).
Proof.
  intros Hm Hl Hp p. unfold death_magicLoss.
  pose proof (death_magic_loop_keeps f Hm Hl (Z.to_nat (magLevel p)) p) as Hloop.
  match goal with |- context [death_magic_loop ?n ?q ?l] =>
    specialize (Hloop l); destruct (death_magic_loop n q l) as [p1 lost] end.
  simpl in Hloop. rewrite Hp, Hm. exact Hloop.
Qed.

Lemma death_skillLoss_keeps {A : Type} (f : Player -> A) (dlp : Q) :
  (forall v, keeps f (set_skills v)) -> keeps f (death_skillLoss dlp).
Proof.
  intros Hs p. unfold death_skillLoss.
  apply (fold_left_invariant (fun q => f q = f p)); [| reflexivity].
  intros q i Hq. unfold death_skillLoss_one.
  destruct (death_skill_loop _ _ _ _ _ _) as [[lvl tries] lost].
  unfold set_skill. rewrite Hs. exact Hq.
Qed.

Lemma death_level_loop_keeps {A : Type} (f : Player -> A) :
  (forall v, keeps f (set_level v)) -> (forall v, keeps f (set_healthMax v)) ->
  (forall v, keeps f (set_manaMax v)) -> (forall v, keeps f (set_capacity v)) ->
  forall fuel, keeps f (death_level_loop E fuel).
Proof.
  intros Hl Hh Hm Hc. induction fuel as [| fuel IH]; intros p;
    cbn [death_level_loop].
  - reflexivity.
  - destruct ((level p >? 1) && (experience p <? expForLevel E (level p)));
      [| reflexivity].
    rewrite IH. unfold death_levelDown, loseLevel. rewrite Hc, Hm, Hh, Hl.
    reflexivity.
Qed.

Lemma death_levelLoss_keeps {A : Type} (f : Player -> A) (dlp : Q) :
  (forall v, keeps f (set_level v)) -> (forall v, keeps f (set_healthMax v)) ->
  (forall v, keeps f (set_manaMax v)) -> (forall v, keeps f (set_capacity v)) ->
  (forall v, keeps f (set_experience v)) -> (forall v, keeps f (set_levelPercent v)) ->
  (forall v, keeps f (set_trace v)) ->
  keeps f (death_levelLoss E dlp).
Proof.
  intros Hl Hh Hm Hc He Hp Ht p. unfold death_levelLoss.
  destruct (negb (u64 _ =? 0)); [| reflexivity].
  rewrite Hp.
  match goal with |- f (if ?c then emit ?o ?q else _) = _ =>
    destruct c; [unfold emit; rewrite Ht |] end;
    rewrite (death_level_loop_keeps f Hl Hh Hm Hc);
    destruct ((getId (vocation p) =? VOCATION_NONE E) || (level p >? 7));
    try rewrite He; reflexivity.
Qed.

Lemma death_blessings_keeps {A : Type} (f : Player -> A) (pvpDeath : bool) :
  (forall v, keeps f (set_blessings v)) -> keeps f (death_blessings E pvpDeath).
Proof.
  intros Hb p. unfold death_blessings.
  destruct (pvpDeath && hasBlessing E (blessings p) 1); [apply Hb |].
  apply (fold_left_invariant (fun q => f q = f p)); [| reflexivity].
  intros q i Hq. rewrite Hb. exact Hq.
Qed.

(** [onEndCondition] writes the in-fight members, the skull and the
    trace, and nothing else. *)
Lemma onEndCondition_keeps {A : Type} (f : Player -> A) (type : Z) :
  (forall v, keeps f (set_trace v)) -> (forall v, keeps f (set_pzLocked v)) ->
  (forall v, keeps f (set_attackedSet v)) -> (forall v, keeps f (set_skull v)) ->
  keeps f (onEndCondition E type).
Proof.
  intros Ht Hz Ha Hs p. unfold onEndCondition, setSkull, emit. cbv zeta.
  rewrite Ht. destruct (type =? CONDITION_INFIGHT E).
  - destruct (getSkull _);
      repeat first [rewrite Ht | rewrite Hs | rewrite Ha | rewrite Hz]; reflexivity.
  - apply Ht.
Qed.

Lemma death_conditions_keeps {A : Type} (f : Player -> A) :
  (forall v, keeps f (set_conditions v)) -> (forall v, keeps f (set_trace v)) ->
  (forall v, keeps f (set_pzLocked v)) -> (forall v, keeps f (set_attackedSet v)) ->
  (forall v, keeps f (set_skull v)) ->
  keeps f (death_conditions E).
Proof.
  intros Hc Ht Hz Ha Hs p. unfold death_conditions. cbv zeta.
  transitivity (f (set_conditions
                     (List.filter (fun c => negb (isPersistent c)) (conditions p)) p));
    [| apply Hc].
  apply (fold_left_invariant
           (fun q => f q = f (set_conditions
                                (List.filter (fun c => negb (isPersistent c))
                                             (conditions p)) p)));
    [| reflexivity].
  intros q c Hq. rewrite (onEndCondition_keeps f) by assumption.
  unfold emit. rewrite Ht. exact Hq.
Qed.

(** A setter for one member keeps every other member. *)
Ltac other_member := intros ? ?; reflexivity.

(** The skull that [death] tests before it resets the vitals is the skull
    the player died with. *)
Lemma death_losses_keep_skull (pvpDeath : bool) (dlp : Q) (p : Player) :
  getSkull
    (death_blessings E pvpDeath
       (death_levelLoss E dlp (death_skillLoss dlp (death_magicLoss dlp p))))
  = getSkull p.
Proof.
  rewrite (death_blessings_keeps getSkull) by other_member.
  rewrite (death_levelLoss_keeps getSkull) by other_member.
  rewrite (death_skillLoss_keeps getSkull) by other_member.
  rewrite (death_magicLoss_keeps getSkull) by other_member.
  reflexivity.
Qed.

(** *** Level transitions and the vitals *)

Lemma addExperience_refills (exp : Z) (sendText : bool) (p : Player) :
  level (addExperience E exp sendText p) <> level p ->
  refilled (addExperience E exp sendText p).
Proof.
  unfold addExperience, refilled.
  destruct (expForLevel E (level p) >=? expForLevel E (level p + 1)).
  { simpl. intros H. contradiction. }
  destruct (u64 (eventPlayerOnGainExperience E p exp) =? 0).
  { intros H. contradiction. }
  set (p0 := if sendText then _ else _).
  assert (Hp0 : level p0 = level p) by (subst p0; destruct sendText; reflexivity).
  destruct (addExperience_loop E _ p0 _ _) as [[p1 c] n].
  rewrite Hp0.
  destruct (level p =? level p1) eqn:Hl; simpl.
  - apply Z.eqb_eq in Hl. intros H. congruence.
  - intros _. destruct (party p1); simpl; split; reflexivity.
Qed.

Lemma removeExperience_refills (exp : Z) (sendText : bool) (p : Player) :
  level (removeExperience E exp sendText p) <> level p ->
  refilled (removeExperience E exp sendText p).
Proof.
  unfold removeExperience, refilled.
  destruct ((experience p =? 0) || (exp =? 0)).
  { intros H. contradiction. }
  destruct (u64 (eventPlayerOnLoseExperience E p exp) =? 0).
  { intros H. contradiction. }
  set (p0 := if sendText then _ else _).
  assert (Hp0 : level p0 = level p) by (subst p0; destruct sendText; reflexivity).
  destruct (removeExperience_loop E _ p0 _) as [p1 c].
  rewrite Hp0.
  destruct (level p =? level p1) eqn:Hl; simpl.
  - apply Z.eqb_eq in Hl. intros H. congruence.
  - intros _. destruct (party p1); simpl; split; reflexivity.
Qed.

(** Without skill loss [death] takes no experience: the level stays. *)
Lemma death_without_skillLoss_keeps_level (c : option Creature) (p : Player) :
  skillLoss p = false -> level (death E c p) = level p.
Proof.
  intros Hs. unfold death. simpl. rewrite Hs.
  unfold emit at 1.
  change (level (set_trace ?t (set_health ?v ?q))) with (level q).
  rewrite (death_conditions_keeps level) by other_member. reflexivity.
Qed.

(** With skill loss [death] ends with the vitals at 40/0 under a black
    skull and at their maxima otherwise, whatever happened to the level. *)
Lemma death_vitals (c : option Creature) (p : Player) :
  skillLoss p = true ->
  let p' := death E c p in
  match getSkull p with
  | SKULL_BLACK => health p' = 40 /\ mana p' = 0
  | _ => refilled p'
  end.
Proof.
  intros Hs p'. subst p'. unfold death. simpl. rewrite Hs.
  set (p0 := emit [SendSingleSoundEffect] (set_loginPosition (templePosition p) p)).
  set (dlp := death_deathLossPercent E c p0).
  set (pvp := death_pvpDeath E c p0).
  set (p4 := emit _ (death_blessings E pvp _)).
  assert (Hskull : getSkull p4 = getSkull p).
  { subst p4. unfold emit at 1.
    change (getSkull (set_trace ?t ?q)) with (getSkull q).
    rewrite death_losses_keep_skull. reflexivity. }
  rewrite Hskull. unfold refilled.
  rewrite (death_conditions_keeps health) by other_member.
  rewrite (death_conditions_keeps mana) by other_member.
  rewrite (death_conditions_keeps healthMax) by other_member.
  rewrite (death_conditions_keeps manaMax) by other_member.
  destruct (getSkull p); simpl; split; reflexivity.
Qed.

(** C3, as amended: after a level transition made by [addExperience] or
    [removeExperience], health and mana are at their maxima; after one made
    by [death] they are too unless the player carries a black skull, in
    which case health is 40 and mana is 0. *)
Theorem level_transition_resets_vitals (p : Player) :
  (forall exp sendText,
      level (addExperience E exp sendText p) <> level p ->
      refilled (addExperience E exp sendText p))
  /\ (forall exp sendText,
         level (removeExperience E exp sendText p) <> level p ->
         refilled (removeExperience E exp sendText p))
  /\ (forall lastHitCreature,
         level (death E lastHitCreature p) <> level p ->
         match getSkull p with
         | SKULL_BLACK =>
           health (death E lastHitCreature p) = 40
           /\ mana (death E lastHitCreature p) = 0
         | _ => refilled (death E lastHitCreature p)
         end).
Proof.
  split; [| split].
  - intros exp sendText. apply addExperience_refills.
  - intros exp sendText. apply removeExperience_refills.
  - intros c Hlevel.
    destruct (skillLoss p) eqn:Hs.
    + apply (death_vitals c p Hs).
    + exfalso. apply Hlevel. apply death_without_skillLoss_keeps_level. exact Hs.
Qed.

(** *** The stored level percentage *)

Lemma addExperience_levelPercent (exp : Z) (sendText : bool) (p : Player) :
  u64 (eventPlayerOnGainExperience E p exp) <> 0 ->
  levelPercent (addExperience E exp sendText p)
  = recomputed_levelPercent E (addExperience E exp sendText p).
Proof.
  intros Hhook. unfold addExperience.
  destruct (Z.geb_spec (expForLevel E (level p)) (expForLevel E (level p + 1)))
    as [Hmax | Hgo].
  { simpl. unfold recomputed_levelPercent. simpl.
    destruct (Z.gtb_spec (expForLevel E (level p + 1)) (expForLevel E (level p)));
      [lia | reflexivity]. }
  apply Z.eqb_neq in Hhook. rewrite Hhook.
  set (p0 := if sendText then _ else _).
  assert (Hl0 : level p0 = level p) by (subst p0; destruct sendText; reflexivity).
  pose proof (addExperience_loop_locals (addExperience_fuel p0 (expForLevel E (level p + 1)))
                p0 (expForLevel E (level p)) (expForLevel E (level p + 1))) as Hloop.
  rewrite Hl0 in Hloop. specialize (Hloop eq_refl eq_refl).
  destruct (addExperience_loop E _ p0 _ _) as [[p1 c] n].
  destruct Hloop as (Hc & Hn & _).
  set (p2 := if negb (level p0 =? level p1) then _ else _).
  assert (Hl2 : level p2 = level p1).
  { subst p2. destruct (negb (level p0 =? level p1)); [| reflexivity].
    simpl. destruct (party p1); reflexivity. }
  assert (He2 : experience p2 = experience p1).
  { subst p2. destruct (negb (level p0 =? level p1)); [| reflexivity].
    simpl. destruct (party p1); reflexivity. }
  unfold emit at 1.
  change (levelPercent (set_trace ?t (set_levelPercent ?v ?q))) with v.
  unfold recomputed_levelPercent.
  change (level (set_trace ?t (set_levelPercent ?v ?q))) with (level q).
  change (experience (set_trace ?t (set_levelPercent ?v ?q))) with (experience q).
  rewrite Hc, Hn, <- Hl2.
  apply percentOfLevel_recomputed.
Qed.

Lemma removeExperience_levelPercent (exp : Z) (sendText : bool) (p : Player) :
  experience p <> 0 -> exp <> 0 ->
  u64 (eventPlayerOnLoseExperience E p exp) <> 0 ->
  levelPercent (removeExperience E exp sendText p)
  = recomputed_levelPercent E (removeExperience E exp sendText p).
Proof.
  intros He Hexp Hhook. unfold removeExperience.
  apply Z.eqb_neq in He, Hexp, Hhook. rewrite He, Hexp, Hhook. simpl orb. cbv iota.
  set (p0 := if sendText then _ else _).
  pose proof (removeExperience_loop_locals (Z.to_nat (level p0)) p0
                (expForLevel E (level p0)) eq_refl) as Hloop.
  destruct (removeExperience_loop E _ p0 _) as [p1 c].
  destruct Hloop as (Hc & _).
  set (p2 := if negb (level p0 =? level p1) then _ else _).
  assert (Hl2 : level p2 = level p1).
  { subst p2. destruct (negb (level p0 =? level p1)); [| reflexivity].
    simpl. destruct (party p1); reflexivity. }
  unfold emit at 1.
  change (levelPercent (set_trace ?t (set_levelPercent ?v ?q))) with v.
  unfold recomputed_levelPercent.
  change (level (set_trace ?t (set_levelPercent ?v ?q))) with (level q).
  change (experience (set_trace ?t (set_levelPercent ?v ?q))) with (experience q).
  rewrite Hc, <- Hl2.
  apply percentOfLevel_recomputed.
Qed.

Lemma death_levelLoss_levelPercent (dlp : Q) (p : Player) :
  u64 (eventPlayerOnLoseExperience E p
         (u64 (trunc (dmul (dint (experience p)) dlp)))) <> 0 ->
  levelPercent (death_levelLoss E dlp p)
  = recomputed_levelPercent E (death_levelLoss E dlp p).
Proof.
  intros Hhook. unfold death_levelLoss.
  apply Z.eqb_neq in Hhook. rewrite Hhook. simpl negb. cbv iota.
  change (levelPercent (set_levelPercent ?v ?q)) with v.
  unfold recomputed_levelPercent.
  change (level (set_levelPercent ?v ?q)) with (level q).
  change (experience (set_levelPercent ?v ?q)) with (experience q).
  apply percentOfLevel_recomputed.
Qed.

(** Within a level of width below 2^32, the recomputed percentage in
    closed form. *)
Lemma recomputed_levelPercent_nearest (q : Player) :
  0 <= into_level E q <= level_width E q ->
  0 < level_width E q < 2 ^ 32 ->
  (~ halfway (into_level E q) (level_width E q) ->
   recomputed_levelPercent E q
   = rounded_levelPercent (into_level E q) (level_width E q))
  /\ (halfway (into_level E q) (level_width E q) ->
      recomputed_levelPercent E q
      = rounded_levelPercent (into_level E q) (level_width E q)
      \/ recomputed_levelPercent E q
         = rounded_down_levelPercent (into_level E q) (level_width E q)).
Proof.
  unfold into_level, level_width, halfway, recomputed_levelPercent,
    rounded_levelPercent, rounded_down_levelPercent.
  intros Hin Hw.
  destruct (Z.gtb_spec (expForLevel E (level q + 1)) (expForLevel E (level q)))
    as [_ | Hle]; [| lia].
  rewrite (wrap_small 64) by lia.
  apply getPercentLevel_nearest; lia.
Qed.

(** C2, as amended: wherever the experience paths recompute it,
    [levelPercent] is [getPercentLevel] of the experience into the level
    and the width of the level when the width is positive, and 0 when it
    is not.  With the experience inside the level and a width below 2^32
    that is the nearest number of hundredths of a percent to
    ((experience - expFor(level)) / (expFor(level+1) - expFor(level)) *
    10000), halves upwards (not the number cut down), divided by 100 in
    binary64; where the exact value lies halfway between two hundredths
    the binary64 product may fall just below it and the lower hundredth
    is stored instead. *)
Theorem levelPercent_is_rounded (p : Player) :
  (forall exp sendText,
      u64 (eventPlayerOnGainExperience E p exp) <> 0 ->
      levelPercent (addExperience E exp sendText p)
      = recomputed_levelPercent E (addExperience E exp sendText p))
  /\ (forall exp sendText,
         experience p <> 0 -> exp <> 0 ->
         u64 (eventPlayerOnLoseExperience E p exp) <> 0 ->
         levelPercent (removeExperience E exp sendText p)
         = recomputed_levelPercent E (removeExperience E exp sendText p))
  /\ (forall deathLossPercent,
         u64 (eventPlayerOnLoseExperience E p
                (u64 (trunc (dmul (dint (experience p)) deathLossPercent)))) <> 0 ->
         levelPercent (death_levelLoss E deathLossPercent p)
         = recomputed_levelPercent E (death_levelLoss E deathLossPercent p))
  /\ (forall q : Player,
         0 <= into_level E q <= level_width E q ->
         0 < level_width E q < 2 ^ 32 ->
         (~ halfway (into_level E q) (level_width E q) ->
          recomputed_levelPercent E q
          = rounded_levelPercent (into_level E q) (level_width E q))
         /\ (halfway (into_level E q) (level_width E q) ->
             recomputed_levelPercent E q
             = rounded_levelPercent (into_level E q) (level_width E q)
             \/ recomputed_levelPercent E q
                = rounded_down_levelPercent (into_level E q) (level_width E q))).
Proof.
  split; [| split; [| split]].
  - intros exp sendText. apply addExperience_levelPercent.
  - intros exp sendText. apply removeExperience_levelPercent.
  - intros dlp. apply death_levelLoss_levelPercent.
  - apply recomputed_levelPercent_nearest.
Qed.

(** *** Unfair fight reduction *)

(** The summed levels are a [uint32_t]. *)
Lemma death_sumLevels_range (p : Player) : 0 <= death_sumLevels E p < 2 ^ 32.
Proof.
  unfold death_sumLevels, death_damage.
  apply (fold_left_invariant (fun acc : Z * Z * Z => 0 <= snd acc < 2 ^ 32));
    [| simpl; lia].
  intros [[playerDmg othersDmg] sumLevels] [id cb] Hacc. simpl in Hacc.
  destruct (OTSYS_TIME E - ticks cb <=? 5 * 60 * 1000); [| exact Hacc].
  destruct (getPlayerByID E id); [| exact Hacc].
  simpl. unfold u32, wrap. apply Z.mod_pos_bound. lia.
Qed.

(** The quotient that [reduction] rounds, for a level below the sum. *)
Lemma reduction_quotient (lvl sumLevels : Z) :
  0 <= lvl < sumLevels ->
  0 <= (200 * lvl + sumLevels) / (2 * sumLevels) <= 100.
Proof.
  intros H. split; [apply Z.div_pos; lia |].
  apply Z.lt_succ_r. apply Z.div_lt_upper_bound; lia.
Qed.

(** The reduction in integer arithmetic, for a level below the summed
    attacker levels: the nearest whole percent, and at an exact half
    possibly the one below. *)
Lemma reduction_rounded (lvl sumLevels : Z) :
  0 <= lvl < sumLevels -> sumLevels < 2 ^ 32 ->
  (~ halfway_percent lvl sumLevels ->
   reduction lvl sumLevels = rounded_unfairFightReduction lvl sumLevels)
  /\ (halfway_percent lvl sumLevels ->
      reduction lvl sumLevels = rounded_unfairFightReduction lvl sumLevels
      \/ reduction lvl sumLevels = rounded_down_unfairFightReduction lvl sumLevels).
Proof.
  intros H Hs. unfold reduction, rounded_unfairFightReduction,
    rounded_down_unfairFightReduction, halfway_percent.
  destruct (reduction_floor lvl sumLevels H Hs) as [Hoff Htie].
  pose proof (reduction_quotient lvl sumLevels H) as Hq.
  split.
  - intros Hm. rewrite (Hoff Hm). rewrite u8_small by lia. reflexivity.
  - intros Hm. destruct (Htie Hm) as [He | He]; rewrite He.
    + left. rewrite u8_small by lia. reflexivity.
    + right.
      assert (Hk : (200 * lvl + sumLevels) / (2 * sumLevels) <> 0).
      { intros H0. apply Z.div_small_iff in H0; [| lia].
        destruct H0 as [H0 | H0]; [| lia].
        rewrite Z.mod_small in Hm by lia. lia. }
      rewrite u8_small by lia. reflexivity.
Qed.

Lemma reduction_range (lvl sumLevels : Z) :
  0 <= lvl < sumLevels -> 20 <= reduction lvl sumLevels <= 100.
Proof.
  intros H. unfold reduction.
  set (z := dadd (dmul (ddiv (dint lvl) (dint sumLevels)) 100) (1 # 2)).
  assert (Hz : (0 <= z /\ z < 101)%Q).
  { unfold z. apply reduce_bounds. exact H. }
  assert (Hf : 0 <= floor z <= 100).
  { unfold floor. split.
    - change 0 with (Qfloor 0). apply Qfloor_resp_le. apply Hz.
    - apply Z.lt_succ_r. rewrite Zlt_Qlt.
      apply Qle_lt_trans with z; [apply Qfloor_le |].
      change (inject_Z (Z.succ 100)) with 101%Q. apply Hz. }
  rewrite u8_small by lia. lia.
Qed.

Lemma reduction_triple (lvl : Z) :
  0 < lvl -> 3 * lvl < 2 ^ 32 -> reduction lvl (3 * lvl) = 33.
Proof.
  intros H H32. destruct (reduction_rounded lvl (3 * lvl)) as [Hr _]; [lia | lia |].
  rewrite Hr.
  - unfold rounded_unfairFightReduction.
    replace (200 * lvl + 3 * lvl) with (203 * lvl) by lia.
    replace (2 * (3 * lvl)) with (6 * lvl) by lia.
    rewrite Z.div_mul_cancel_r by lia. reflexivity.
  - unfold halfway_percent.
    replace (200 * lvl + 3 * lvl) with (203 * lvl) by lia.
    replace (2 * (3 * lvl)) with (6 * lvl) by lia.
    rewrite Z.mul_mod_distr_r by lia. change (203 mod 6) with 5. lia.
Qed.

Lemma death_unfairFightReduction_pvp (c : option Creature) (p : Player) :
  death_pvpDeath E c p = true -> level p < death_sumLevels E p ->
  death_unfairFightReduction E c p = reduction (level p) (death_sumLevels E p).
Proof.
  intros Hpvp Hsum. unfold death_unfairFightReduction, death_sumLevels in *.
  rewrite Hpvp. destruct (death_damage E p) as [[playerDmg othersDmg] sumLevels].
  simpl in *. destruct (Z.gtb_spec sumLevels (level p)); [reflexivity | lia].
Qed.

(** C4, as amended: on a PvP death where the summed attacker levels
    exceed the player's level, [unfairFightReduction] lies in [20, 100] and
    is level/sumLevels x 100 rounded to the nearest integer, halves
    upwards (not cut down), clamped to at least 20; where the exact value
    lies halfway between two integers its binary64 image may fall just
    below and the lower integer is taken.  When the sum is three times
    the level it is 33, and [deathLossPercent] is first set to the
    binary64 product of lostPercent and the binary64 quotient 33/100. *)
Theorem unfairFightReduction_rounds (lastHitCreature : option Creature) (p : Player) :
  0 <= level p ->
  death_pvpDeath E lastHitCreature p = true ->
  level p < death_sumLevels E p ->
  20 <= death_unfairFightReduction E lastHitCreature p <= 100
  /\ (~ halfway_percent (level p) (death_sumLevels E p) ->
      death_unfairFightReduction E lastHitCreature p
      = rounded_unfairFightReduction (level p) (death_sumLevels E p))
  /\ (halfway_percent (level p) (death_sumLevels E p) ->
      death_unfairFightReduction E lastHitCreature p
      = rounded_unfairFightReduction (level p) (death_sumLevels E p)
      \/ death_unfairFightReduction E lastHitCreature p
         = rounded_down_unfairFightReduction (level p) (death_sumLevels E p))
  /\ (death_sumLevels E p = 3 * level p ->
      death_unfairFightReduction E lastHitCreature p = 33
      /\ death_lossBeforeCharm E lastHitCreature p
         = dmul (getLostPercent E p) (ddiv (dint 33) 100)).
Proof.
  intros Hlvl Hpvp Hsum.
  pose proof (death_unfairFightReduction_pvp lastHitCreature p Hpvp Hsum) as Hr.
  pose proof (death_sumLevels_range p) as H32.
  destruct (reduction_rounded (level p) (death_sumLevels E p)) as [Hoff Htie];
    [lia | lia |].
  rewrite Hr. split; [apply reduction_range; lia |].
  split; [exact Hoff |]. split; [exact Htie |].
  intros Htriple.
  assert (H33 : reduction (level p) (death_sumLevels E p) = 33).
  { rewrite Htriple. apply reduction_triple; lia. }
  split; [exact H33 |].
  unfold death_lossBeforeCharm. rewrite Hr, H33. reflexivity.
Qed.

End ProgressionFacts.

(** C2 as stated fails where rounding and cutting differ: six experience
    into level 5, which is 700 wide, the stored percentage is the binary64
    number nearest to 0.86 and the stated formula gives 0.85. *)
Lemma levelPercent_rounds_up_counterexample :
  Progression.expForLevel Progression.lonely_env 5 = 800
  /\ Progression.expForLevel Progression.lonely_env 6 = 1500
  /\ Progression.experience
       (Progression.addExperience Progression.lonely_env 6 false
          Progression.knight_level5) = 806
  /\ Progression.level
       (Progression.addExperience Progression.lonely_env 6 false
          Progression.knight_level5) = 5
  /\ Progression.levelPercent
       (Progression.addExperience Progression.lonely_env 6 false
          Progression.knight_level5) = fl (86 # 100)
  /\ (Progression.spec_levelPercent 806 800 1500 == 85 # 100)%Q
  /\ Qeq_bool (fl (86 # 100)) (85 # 100) = false
  /\ Qeq_bool (fl (86 # 100)) (fl (85 # 100)) = false.
Proof. repeat split; vm_compute; reflexivity. Qed.

Lemma levelPercent_is_rounded_witness :
  Progression.levelPercent
    (Progression.addExperience Progression.lonely_env 6 false
       Progression.knight_level5)
  = Progression.recomputed_levelPercent Progression.lonely_env
      (Progression.addExperience Progression.lonely_env 6 false
         Progression.knight_level5)
  /\ Progression.recomputed_levelPercent Progression.lonely_env
       (Progression.addExperience Progression.lonely_env 6 false
          Progression.knight_level5)
     = Progression.rounded_levelPercent 6 700.
Proof.
  split.
  - apply (proj1 (levelPercent_is_rounded Progression.lonely_env
                    Progression.knight_level5) 6 false).
    vm_compute. discriminate.
  - refine (proj1 (proj2 (proj2 (proj2 (levelPercent_is_rounded Progression.lonely_env
                    Progression.knight_level5)))
              (Progression.addExperience Progression.lonely_env 6 false
                 Progression.knight_level5) _ _) _).
    + vm_compute. split; discriminate.
    + vm_compute. split; reflexivity.
    + vm_compute. discriminate.
Defined.

(** A halfway case: 23 into a level 4000 wide is 0.575 percent exactly; the
    binary64 product falls just below 57.5 and the stored value is the
    binary64 number nearest to 0.57.  Where binary64 is exact, as for 1
    into 800 (0.125 percent), the half goes up. *)
Example getPercentLevel_halfway :
  Progression.halfway 23 4000
  /\ Progression.getPercentLevel 23 4000 = Progression.rounded_down_levelPercent 23 4000
  /\ Progression.rounded_down_levelPercent 23 4000 = fl (57 # 100)
  /\ Progression.halfway 1 800
  /\ Progression.getPercentLevel 1 800 = Progression.rounded_levelPercent 1 800
  /\ Progression.rounded_levelPercent 1 800 = fl (13 # 100).
Proof. repeat split; vm_compute; reflexivity. Qed.

(** C3 as stated fails in [death] under a black skull: the knight drops
    from level 9 to level 8 and is left with 40 health and no mana, below
    the maxima of 185 and 45. *)
Lemma death_black_skull_counterexample :
  Progression.level Progression.black_knight_level9 = 9
  /\ Progression.level (Progression.death Progression.lonely_env None
                          Progression.black_knight_level9) = 8
  /\ Progression.health (Progression.death Progression.lonely_env None
                           Progression.black_knight_level9) = 40
  /\ Progression.healthMax (Progression.death Progression.lonely_env None
                              Progression.black_knight_level9) = 185
  /\ Progression.mana (Progression.death Progression.lonely_env None
                         Progression.black_knight_level9) = 0
  /\ Progression.manaMax (Progression.death Progression.lonely_env None
                            Progression.black_knight_level9) = 45.
Proof. repeat split; vm_compute; reflexivity. Qed.

Lemma level_transition_resets_vitals_witness :
  Progression.refilled
    (Progression.removeExperience Progression.lonely_env 5000 true
       (Progression.knight 9 6500 Progression.SKULL_NONE [])).
Proof.
  apply (proj1 (proj2 (level_transition_resets_vitals Progression.lonely_env
                         (Progression.knight 9 6500 Progression.SKULL_NONE [])))
           5000 true).
  vm_compute. discriminate.
Defined.

(** C4 as stated fails where rounding and cutting differ: a level 2 player
    killed by a level 3 player gets 67, and the stated formula gives 66. *)
Lemma unfairFightReduction_counterexample :
  Progression.death_pvpDeath Progression.duel_env (Some Progression.a_player)
    Progression.knight_level2_hit = true
  /\ Progression.level Progression.knight_level2_hit = 2
  /\ Progression.death_sumLevels Progression.duel_env Progression.knight_level2_hit = 3
  /\ Progression.death_unfairFightReduction Progression.duel_env
       (Some Progression.a_player) Progression.knight_level2_hit = 67
  /\ Progression.spec_unfairFightReduction 2 3 = 66.
Proof. repeat split; vm_compute; reflexivity. Qed.

(** Halfway cases: level 23 against summed levels of 40 is 57.5 percent
    exactly; the binary64 product falls just below it and the reduction is
    57.  Level 3 against 8 is 37.5 percent, exact in binary64, and the
    reduction is 38. *)
Example reduction_halfway :
  Progression.halfway_percent 23 40
  /\ Progression.reduction 23 40 = 57
  /\ Progression.rounded_down_unfairFightReduction 23 40 = 57
  /\ Progression.halfway_percent 3 8
  /\ Progression.reduction 3 8 = 38
  /\ Progression.rounded_unfairFightReduction 3 8 = 38.
Proof. repeat split; vm_compute; reflexivity. Qed.

Lemma unfairFightReduction_rounds_witness :
  Progression.death_unfairFightReduction Progression.triple_env
    (Some Progression.a_player) Progression.knight_level10_hit = 33
  /\ Progression.death_lossBeforeCharm Progression.triple_env
       (Some Progression.a_player) Progression.knight_level10_hit
     = dmul (Progression.getLostPercent Progression.triple_env
               Progression.knight_level10_hit) (ddiv (dint 33) 100).
Proof.
  refine (proj2 (proj2 (proj2 (unfairFightReduction_rounds Progression.triple_env
            (Some Progression.a_player) Progression.knight_level10_hit _ _ _))) _).
  - vm_compute. discriminate.
  - vm_compute. reflexivity.
  - vm_compute. reflexivity.
  - vm_compute. reflexivity.
Defined.

Lemma plateau_is_noop_witness :
  Progression.addSkillAdvance Progression.lonely_env Progression.SKILL_SWORD 1000
    Progression.maxed_player = Progression.maxed_player
  /\ Progression.addManaSpent Progression.lonely_env 1000 Progression.maxed_player
     = Progression.maxed_player.
Proof.
  split.
  - apply (proj1 (plateau_is_noop Progression.lonely_env Progression.maxed_player)).
    vm_compute. discriminate.
  - apply (proj2 (plateau_is_noop Progression.lonely_env Progression.maxed_player)).
    vm_compute. discriminate.
Defined.

(** ** Slot inventory *)

Section InventoryFacts.
Import Inventory.
Variable E : Env.

(** Behind an accepted hand test the answer is that of the exchange,
    capacity and equip-hook checks. *)
Lemma queryAdd_item (p : Player) (index : Index) (item : Item) (count flags : Z) :
  has flags (FLAG_CHILDISOWNER E) = false -> isPickupable item = true ->
  queryAdd E p index (ThingItem item) count flags
  = queryAdd_checks E p index item count (queryAdd_switch E p index item count).
Proof.
  intros Hflag Hpick. unfold queryAdd. simpl. rewrite Hflag, Hpick. reflexivity.
Qed.

Lemma queryAdd_checks_refusal (p : Player) (index : Index) (item : Item) (count : Z) :
  queryAdd_checks E p index item count RETURNVALUE_BOTHHANDSNEEDTOBEFREE
  = RETURNVALUE_BOTHHANDSNEEDTOBEFREE.
Proof. reflexivity. Qed.

(** A refusal of the hand test is the answer. *)
Lemma queryAdd_refused (p : Player) (index : Index) (item : Item) (count flags : Z)
    (ret : ReturnValue) :
  has flags (FLAG_CHILDISOWNER E) = false -> isPickupable item = true ->
  queryAdd_switch E p index item count = ret ->
  ReturnValue_eqb ret RETURNVALUE_NOERROR
  || ReturnValue_eqb ret RETURNVALUE_NOTENOUGHROOM = false ->
  queryAdd E p index (ThingItem item) count flags = ret.
Proof.
  intros Hflag Hpick Hswitch Hret.
  rewrite queryAdd_item by assumption. rewrite Hswitch.
  unfold queryAdd_checks. rewrite Hret. reflexivity.
Qed.

(** C1, as amended: for a pickupable two-handed item whose slot position
    admits the left hand and a player whose right hand is not empty,
    [queryAdd] on the left slot (without [FLAG_CHILDISOWNER]) answers as
    follows.  With classic equipment slots disabled: cannot-be-dressed for
    a weapon type of none, shield or ammunition; for a distance weapon
    against a quiver in the right hand the hand test passes and the
    answer is that of the exchange, capacity and equip-hook checks;
    both-hands-must-be-free otherwise.  With classic equipment slots
    enabled there is no quiver exception: both-hands-must-be-free unless
    the right hand holds that very item, for which the hand test passes. *)
Theorem queryAdd_two_handed_left
    (p : Player) (item rightItem : Item) (count flags : Z) :
  has flags (FLAG_CHILDISOWNER E) = false ->
  isPickupable item = true ->
  has (getSlotPosition item) (SLOTP_LEFT E) = true ->
  has (getSlotPosition item) (SLOTP_TWO_HAND E) = true ->
  inventory p CONST_SLOT_RIGHT = Some rightItem ->
  (CLASSIC_EQUIPMENT_SLOTS E = false ->
   (getWeaponType item = WEAPON_NONE \/ getWeaponType item = WEAPON_SHIELD
    \/ getWeaponType item = WEAPON_AMMO ->
    queryAdd E p (Slot CONST_SLOT_LEFT) (ThingItem item) count flags
    = RETURNVALUE_CANNOTBEDRESSED)
   /\ (getWeaponType item <> WEAPON_NONE -> getWeaponType item <> WEAPON_SHIELD ->
       getWeaponType item <> WEAPON_AMMO ->
       if quiver_pair item rightItem then
         queryAdd_switch E p (Slot CONST_SLOT_LEFT) item count = RETURNVALUE_NOERROR
         /\ queryAdd E p (Slot CONST_SLOT_LEFT) (ThingItem item) count flags
            = queryAdd_checks E p (Slot CONST_SLOT_LEFT) item count
                RETURNVALUE_NOERROR
       else
         queryAdd E p (Slot CONST_SLOT_LEFT) (ThingItem item) count flags
         = RETURNVALUE_BOTHHANDSNEEDTOBEFREE))
  /\ (CLASSIC_EQUIPMENT_SLOTS E = true ->
      if same_item rightItem item then
        queryAdd_switch E p (Slot CONST_SLOT_LEFT) item count = RETURNVALUE_NOERROR
        /\ queryAdd E p (Slot CONST_SLOT_LEFT) (ThingItem item) count flags
           = queryAdd_checks E p (Slot CONST_SLOT_LEFT) item count
               RETURNVALUE_NOERROR
      else
        queryAdd E p (Slot CONST_SLOT_LEFT) (ThingItem item) count flags
        = RETURNVALUE_BOTHHANDSNEEDTOBEFREE).
Proof.
  intros Hflag Hpick Hleft Htwo Hright.
  split; [intros Hclassic; split |].
  - (* no weapon, a shield or ammunition *)
    intros Htype.
    apply queryAdd_refused; [assumption | assumption | | reflexivity].
    unfold queryAdd_switch, queryAdd_left.
    rewrite Hleft, Hclassic. simpl.
    destruct Htype as [-> | [-> | ->]]; reflexivity.
  - (* a weapon *)
    intros Hnone Hshield Hammo.
    assert (Hswitch : queryAdd_switch E p (Slot CONST_SLOT_LEFT) item count
                      = if quiver_pair item rightItem then RETURNVALUE_NOERROR
                        else RETURNVALUE_BOTHHANDSNEEDTOBEFREE).
    { unfold queryAdd_switch, queryAdd_left, quiver_pair.
      rewrite Hleft, Hclassic, Htwo, Hright. simpl.
      destruct (getWeaponType item); try contradiction; reflexivity. }
    destruct (quiver_pair item rightItem).
    + split; [exact Hswitch |]. rewrite queryAdd_item by assumption.
      rewrite Hswitch. reflexivity.
    + apply queryAdd_refused; [assumption | assumption | exact Hswitch | reflexivity].
  - (* classic equipment slots *)
    intros Hclassic.
    assert (Hswitch : queryAdd_switch E p (Slot CONST_SLOT_LEFT) item count
                      = if same_item rightItem item then RETURNVALUE_NOERROR
                        else RETURNVALUE_BOTHHANDSNEEDTOBEFREE).
    { unfold queryAdd_switch, queryAdd_left.
      rewrite Hleft, Hclassic, Htwo, Hright. simpl.
      destruct (same_item rightItem item); reflexivity. }
    destruct (same_item rightItem item).
    + split; [exact Hswitch |]. rewrite queryAdd_item by assumption.
      rewrite Hswitch. reflexivity.
    + apply queryAdd_refused; [assumption | assumption | exact Hswitch | reflexivity].
Qed.
End InventoryFacts.

(** C1 as stated fails with classic equipment slots: a bow offered to the
    left hand against a quiver in the right is refused like any other
    two-handed item; the hand test does not pass. *)
Lemma queryAdd_classic_quiver_counterexample :
  Inventory.queryAdd_switch (Inventory.upstream_env true)
    (InventoryExamples.holding_right InventoryExamples.quiver)
    (Inventory.Slot Inventory.CONST_SLOT_LEFT) InventoryExamples.bow 1
  = Inventory.RETURNVALUE_BOTHHANDSNEEDTOBEFREE
  /\ Inventory.queryAdd (Inventory.upstream_env true)
       (InventoryExamples.holding_right InventoryExamples.quiver)
       (Inventory.Slot Inventory.CONST_SLOT_LEFT)
       (Inventory.ThingItem InventoryExamples.bow) 1 0
     = Inventory.RETURNVALUE_BOTHHANDSNEEDTOBEFREE.
Proof. split; reflexivity. Qed.

Lemma queryAdd_two_handed_left_witness :
  Inventory.queryAdd (Inventory.upstream_env false)
    (InventoryExamples.holding_right InventoryExamples.quiver)
    (Inventory.Slot Inventory.CONST_SLOT_LEFT)
    (Inventory.ThingItem InventoryExamples.two_handed_sword) 1 0
  = Inventory.RETURNVALUE_BOTHHANDSNEEDTOBEFREE
  /\ Inventory.queryAdd (Inventory.upstream_env true)
       (InventoryExamples.holding_right InventoryExamples.quiver)
       (Inventory.Slot Inventory.CONST_SLOT_LEFT)
       (Inventory.ThingItem InventoryExamples.bow) 1 0
     = Inventory.RETURNVALUE_BOTHHANDSNEEDTOBEFREE.
Proof.
  split.
  - refine (proj2 (proj1 (queryAdd_two_handed_left (Inventory.upstream_env false)
              (InventoryExamples.holding_right InventoryExamples.quiver)
              InventoryExamples.two_handed_sword InventoryExamples.quiver 1 0
              _ _ _ _ _) _) _ _ _);
      try reflexivity; discriminate.
  - refine (proj2 (queryAdd_two_handed_left (Inventory.upstream_env true)
              (InventoryExamples.holding_right InventoryExamples.quiver)
              InventoryExamples.bow InventoryExamples.quiver 1 0
              _ _ _ _ _) _);
      reflexivity.
Defined.

(** The exception at work: the bow passes the hand test against the quiver
    and, the left hand being free and the capacity sufficient, is accepted. *)
Example queryAdd_bow_with_quiver :
  Inventory.queryAdd (Inventory.upstream_env false)
    (InventoryExamples.holding_right InventoryExamples.quiver)
    (Inventory.Slot Inventory.CONST_SLOT_LEFT)
    (Inventory.ThingItem InventoryExamples.bow) 1 0
  = Inventory.RETURNVALUE_NOERROR.
Proof. reflexivity. Qed.

(** ** VIP list *)

Section VipFacts.
Import Vip.
Variable FREE_PREMIUM : bool.

Lemma getMaxVIPEntries_cases (p : Player) :
  getMaxVIPEntries FREE_PREMIUM p
  = if maxVipEntries p =? 0
    then (if isPremium FREE_PREMIUM p then 100 else 20)
    else maxVipEntries p.
Proof. unfold getMaxVIPEntries. destruct (maxVipEntries p =? 0); reflexivity. Qed.

Lemma getMaxVIPEntries_nonneg (p : Player) :
  0 <= maxVipEntries p -> 0 <= getMaxVIPEntries FREE_PREMIUM p.
Proof.
  intros H. rewrite getMaxVIPEntries_cases.
  destruct (maxVipEntries p =? 0); [destruct (isPremium FREE_PREMIUM p) |]; lia.
Qed.

Lemma size_add (g : Z) (s : gset Z) : g ∉ s -> size ({[g]} ∪ s) = S (size s).
Proof.
  intros Hg. rewrite size_union by set_solver. rewrite size_singleton. reflexivity.
Qed.

Lemma size_remove (g : Z) (s : gset Z) : (size (s ∖ {[g]}) <= size s)%nat.
Proof. apply subseteq_size. apply subseteq_difference_l. reflexivity. Qed.

(** Every call leaves the group, the flags and the premium days alone, and
    with them the maximum. *)
Lemma call_keeps_maximum (c : VipCall) (p : Player) :
  getMaxVIPEntries FREE_PREMIUM (fst (call FREE_PREMIUM c p))
  = getMaxVIPEntries FREE_PREMIUM p.
Proof.
  destruct c as [g n s | g | g]; simpl;
    unfold addVIP, addVIPInternal, removeVIP;
    repeat match goal with
           | |- context [if ?b then _ else _] => destruct b
           end; reflexivity.
Qed.

Lemma call_within_bound (c : VipCall) (p : Player) :
  within_bound (getMaxVIPEntries FREE_PREMIUM p) p ->
  within_bound (getMaxVIPEntries FREE_PREMIUM p) (fst (call FREE_PREMIUM c p)).
Proof.
  intros [Hmax H200]. unfold within_bound, VIPList_size in *.
  destruct c as [g n s | g | g]; simpl; unfold addVIP, addVIPInternal, removeVIP.
  - destruct (Z.geb_spec (VIPList_size p) (getMaxVIPEntries FREE_PREMIUM p))
      as [Hfull | Hroom]; simpl; [auto |].
    destruct (Z.eqb_spec (VIPList_size p) 200) as [Hcap | Hfree]; simpl; [auto |].
    destruct (decide (g ∈ VIPList p)) as [Hin | Hout]; simpl; [auto |].
    unfold VIPList_size in *.
    destruct (client p); simpl; rewrite size_add by exact Hout; lia.
  - destruct (Z.geb_spec (VIPList_size p) (getMaxVIPEntries FREE_PREMIUM p))
      as [Hfull | Hroom]; simpl; [auto |].
    destruct (Z.eqb_spec (VIPList_size p) 200) as [Hcap | Hfree]; simpl; [auto |].
    destruct (decide (g ∈ VIPList p)) as [Hin | Hout]; simpl; [auto |].
    unfold VIPList_size in *. rewrite size_add by exact Hout. lia.
  - destruct (decide (g ∈ VIPList p)) as [Hin | Hout]; simpl; [| auto].
    pose proof (size_remove g (VIPList p)). lia.
Qed.

Lemma run_within_bound (cs : list VipCall) :
  forall p,
    within_bound (getMaxVIPEntries FREE_PREMIUM p) p ->
    within_bound (getMaxVIPEntries FREE_PREMIUM (run FREE_PREMIUM cs p))
                 (run FREE_PREMIUM cs p).
Proof.
  induction cs as [| c cs IH]; intros p Hp; simpl.
  - exact Hp.
  - apply IH. rewrite call_keeps_maximum. apply call_within_bound. exact Hp.
Qed.

(** Across changes of the premium days the list stays within the largest
    maximum the player can have, and within 200. *)
Lemma account_call_within (c : AccountCall) (p : Player) :
  within_bound (largest_maximum p) p ->
  largest_maximum (account_call FREE_PREMIUM c p) = largest_maximum p
  /\ within_bound (largest_maximum p) (account_call FREE_PREMIUM c p).
Proof.
  intros [Hmax H200].
  assert (Hle : getMaxVIPEntries FREE_PREMIUM p <= largest_maximum p).
  { rewrite getMaxVIPEntries_cases. unfold largest_maximum.
    destruct (maxVipEntries p =? 0); [destruct (isPremium FREE_PREMIUM p) |]; lia. }
  unfold within_bound, VIPList_size in *.
  destruct c as [[g n s | g | g] | v]; simpl;
    unfold addVIP, addVIPInternal, removeVIP.
  - destruct (Z.geb_spec (VIPList_size p) (getMaxVIPEntries FREE_PREMIUM p))
      as [Hfull | Hroom]; simpl; [auto |].
    destruct (Z.eqb_spec (VIPList_size p) 200) as [Hcap | Hfree]; simpl; [auto |].
    destruct (decide (g ∈ VIPList p)) as [Hin | Hout]; simpl; [auto |].
    unfold VIPList_size in *.
    destruct (client p); simpl; rewrite size_add by exact Hout;
      (split; [reflexivity | lia]).
  - destruct (Z.geb_spec (VIPList_size p) (getMaxVIPEntries FREE_PREMIUM p))
      as [Hfull | Hroom]; simpl; [auto |].
    destruct (Z.eqb_spec (VIPList_size p) 200) as [Hcap | Hfree]; simpl; [auto |].
    destruct (decide (g ∈ VIPList p)) as [Hin | Hout]; simpl; [auto |].
    unfold VIPList_size in *. rewrite size_add by exact Hout.
    split; [reflexivity | lia].
  - destruct (decide (g ∈ VIPList p)) as [Hin | Hout]; simpl; [| auto].
    pose proof (size_remove g (VIPList p)). split; [reflexivity | lia].
  - split; [reflexivity | lia].
Qed.

Lemma account_run_within (cs : list AccountCall) :
  forall p,
    within_bound (largest_maximum p) p ->
    within_bound (largest_maximum p) (account_run FREE_PREMIUM cs p).
Proof.
  induction cs as [| c cs IH]; intros p Hp; simpl.
  - exact Hp.
  - destruct (account_call_within c p Hp) as [Hsame Hin].
    rewrite <- Hsame. apply IH. rewrite Hsame. exact Hin.
Qed.

(** C8, as amended: the maximum is the group's when that is set, else 100
    for premium and 20 for free accounts; [addVIP] answers false with a
    failure message and leaves the list alone once the maximum (or 200) is
    reached; starting from an empty list no sequence of [addVIP],
    [addVIPInternal] and [removeVIP] brings the list above the maximum or
    above 200; and with changes of the premium days between them, which
    lower the maximum without trimming the list, the list stays within
    the group's maximum when that is set and within 100 otherwise, and
    within 200. *)
Theorem VIPList_bounded (p : Player) :
  0 <= maxVipEntries p ->
  VIPList p = ∅ ->
  getMaxVIPEntries FREE_PREMIUM p
  = (if maxVipEntries p =? 0
     then (if isPremium FREE_PREMIUM p then 100 else 20)
     else maxVipEntries p)
  /\ (forall calls,
         VIPList_size (run FREE_PREMIUM calls p)
         <= getMaxVIPEntries FREE_PREMIUM (run FREE_PREMIUM calls p)
         /\ VIPList_size (run FREE_PREMIUM calls p) <= 200
         /\ forall vipGuid vipName status,
             getMaxVIPEntries FREE_PREMIUM (run FREE_PREMIUM calls p)
             <= VIPList_size (run FREE_PREMIUM calls p)
             \/ VIPList_size (run FREE_PREMIUM calls p) = 200 ->
             addVIP FREE_PREMIUM vipGuid vipName status (run FREE_PREMIUM calls p)
             = (emit [SendTextMessageFailure "You cannot add more buddies."]
                     (run FREE_PREMIUM calls p), false))
  /\ (forall calls,
         VIPList_size (account_run FREE_PREMIUM calls p)
         <= (if maxVipEntries p =? 0 then 100 else maxVipEntries p)
         /\ VIPList_size (account_run FREE_PREMIUM calls p) <= 200).
Proof.
  intros Hmax Hempty. split; [apply getMaxVIPEntries_cases |].
  split.
  - intros calls.
    assert (Hstart : within_bound (getMaxVIPEntries FREE_PREMIUM p) p).
    { unfold within_bound, VIPList_size. rewrite Hempty, size_empty.
      pose proof (getMaxVIPEntries_nonneg p Hmax). simpl. lia. }
    destruct (run_within_bound calls p Hstart) as [Hb H200].
    split; [exact Hb |]. split; [exact H200 |].
    intros g n s Hfull. unfold addVIP.
    destruct Hfull as [Hfull | Hfull].
    + apply Z.geb_le in Hfull. rewrite Hfull. reflexivity.
    + apply Z.eqb_eq in Hfull. rewrite Hfull, orb_true_r. reflexivity.
  - intros calls. apply (account_run_within calls p).
    unfold within_bound, VIPList_size, largest_maximum.
    rewrite Hempty, size_empty.
    destruct (Z.eqb_spec (maxVipEntries p) 0); simpl; lia.
Qed.
End VipFacts.

(** C8 as stated fails when premium ends: a premium account with
    twenty-one entries keeps them all when its premium days are set to 0,
    and the maximum is then 20. *)
Lemma VIPList_outlives_premium_counterexample :
  Vip.VIPList Vip.subscriber = ∅
  /\ Vip.isPremium false
       (Vip.setPremiumDays 0 (Vip.run false Vip.twenty_one_requests Vip.subscriber))
     = false
  /\ Vip.VIPList_size (Vip.run false Vip.twenty_one_requests Vip.subscriber) = 21
  /\ Vip.getMaxVIPEntries false (Vip.run false Vip.twenty_one_requests Vip.subscriber)
     = 100
  /\ Vip.VIPList_size
       (Vip.setPremiumDays 0 (Vip.run false Vip.twenty_one_requests Vip.subscriber))
     = 21
  /\ Vip.getMaxVIPEntries false
       (Vip.setPremiumDays 0 (Vip.run false Vip.twenty_one_requests Vip.subscriber))
     = 20.
Proof. repeat split; vm_compute; reflexivity. Qed.

(** Twenty-one additions to a free account: the list stays within twenty.
    The same additions to a premium account whose premium then ends: the
    list stays within one hundred. *)
Lemma VIPList_bounded_witness :
  Vip.VIPList_size (Vip.run false Vip.twenty_one_requests Vip.newcomer)
  <= Vip.getMaxVIPEntries false (Vip.run false Vip.twenty_one_requests Vip.newcomer)
  /\ Vip.VIPList_size
       (Vip.account_run false
          (map Vip.ListCall Vip.twenty_one_requests ++ [Vip.CallSetPremiumDays 0])
          Vip.subscriber)
     <= 100.
Proof.
  split.
  - exact (proj1 (proj1 (proj2 (VIPList_bounded false Vip.newcomer
                           (Z.le_refl 0) (eq_refl : Vip.VIPList Vip.newcomer = ∅)))
                   Vip.twenty_one_requests)).
  - exact (proj1 (proj2 (proj2 (VIPList_bounded false Vip.subscriber
                           (Z.le_refl 0) (eq_refl : Vip.VIPList Vip.subscriber = ∅)))
                   (map Vip.ListCall Vip.twenty_one_requests
                    ++ [Vip.CallSetPremiumDays 0]))).
Defined.

(** ** Unjustified kills *)

Section UnjustifiedFacts.
Import Unjustified.
Variable E : Env.

Lemma killsWithin4h_cons (kill : Kill) (kills : list Kill) :
  killsWithin4h E (kill :: kills)
  = (if within4h E kill then 1 else 0) + killsWithin4h E kills.
Proof.
  unfold killsWithin4h. cbn [List.filter].
  destruct (within4h E kill); cbn [length]; lia.
Qed.

(** The day counter is the number of kills within four hours, as a byte. *)
Lemma countKills_day_from (kills : list Kill) :
  forall dayKills weekKills monthKills,
    0 <= dayKills < 256 ->
    fst (fst (fold_left
      (fun '(dayKills, weekKills, monthKills) kill =>
         let diff := now E - time kill in
         (if diff <=? 4 * 60 * 60 then u8 (dayKills + 1) else dayKills,
          if diff <=? 7 * 24 * 60 * 60 then u8 (weekKills + 1) else weekKills,
          if diff <=? 30 * 24 * 60 * 60 then u8 (monthKills + 1) else monthKills))
      kills (dayKills, weekKills, monthKills)))
    = u8 (dayKills + killsWithin4h E kills).
Proof.
  induction kills as [| kill kills IH]; intros d w m Hd.
  - unfold killsWithin4h. simpl. rewrite Z.add_0_r. symmetry. apply u8_small.
    exact Hd.
  - cbn [fold_left]. rewrite killsWithin4h_cons. unfold within4h.
    destruct (now E - time kill <=? 4 * 60 * 60).
    + rewrite IH by (apply (wrap_range 8); lia).
      unfold u8, wrap. rewrite Zplus_mod_idemp_l. f_equal. lia.
    + rewrite IH by exact Hd. f_equal.
Qed.

Lemma countKills_day (kills : list Kill) :
  fst (fst (countKills E kills)) = u8 (killsWithin4h E kills).
Proof. unfold countKills. rewrite countKills_day_from by lia. reflexivity. Qed.

Lemma killsWithin4h_app (kills : list Kill) (kill : Kill) :
  killsWithin4h E (kills ++ [kill])
  = killsWithin4h E kills + (if within4h E kill then 1 else 0).
Proof.
  unfold killsWithin4h. rewrite List.filter_app, length_app. simpl.
  destruct (within4h E kill); simpl; lia.
Qed.

(** C6: a player without the not-gain-in-fight flag, in a world that is
    not enforced PvP, with a daily threshold of 3 and five kills already
    within four hours, whose skull is not black yet (none, or red as the
    third kill leaves it): recording one more kill (of another player)
    sets the skull to black and the skull ticks to BLACK_SKULL_DURATION x
    86400 x 1000. *)
Theorem sixth_kill_is_black (attacked p : Player) :
  hasFlag p PlayerFlag_NotGainInFight = false ->
  id attacked <> id p ->
  getWorldType E <> WORLD_TYPE_PVP_ENFORCED ->
  skull p <> SKULL_BLACK ->
  DAY_KILLS_TO_RED E = 3 ->
  in_i32 (BLACK_SKULL_DURATION E) ->
  killsWithin4h E (unjustifiedKills p) = 5 ->
  skull (addUnjustifiedDead E attacked p) = SKULL_BLACK
  /\ skullTicks (addUnjustifiedDead E attacked p)
     = BLACK_SKULL_DURATION E * 86400 * 1000.
Proof.
  intros Hflag Hother Hworld Hskull Hday Hdur Hfive.
  assert (Hcount : fst (fst (countKills E (unjustifiedKills p
          ++ [{| target := getGUID attacked; time := now E; unavenged := true |}]))) = 6).
  { rewrite countKills_day, killsWithin4h_app, Hfive.
    unfold within4h. cbn [time]. rewrite Z.sub_diag. reflexivity. }
  assert (Hworld' : match getWorldType E with WORLD_TYPE_PVP_ENFORCED => true | _ => false end = false).
  { destruct (getWorldType E); try reflexivity. contradiction. }
  unfold addUnjustifiedDead.
  rewrite Hflag, Hworld'. apply Z.eqb_neq in Hother. rewrite Hother. cbn [orb].
  set (p1 := set_unjustifiedKills _ _).
  assert (Hs1 : getSkull p1 = skull p).
  { unfold getSkull. change (hasFlag p1 PlayerFlag_NotGainInFight)
      with (hasFlag p PlayerFlag_NotGainInFight). rewrite Hflag. reflexivity. }
  change (unjustifiedKills p1)
    with (unjustifiedKills p
          ++ [{| target := getGUID attacked; time := now E; unavenged := true |}]).
  rewrite Hs1.
  destruct (countKills E _) as [[dayKills weekKills] monthKills].
  cbn [fst] in Hcount. subst dayKills.
  rewrite Hday. change (6 >=? 2 * 3) with true. cbn [orb].
  unfold in_i32 in Hdur.
  assert (Hticks : i64 (i64 (BLACK_SKULL_DURATION E) * 24 * 60 * 60 * 1000)
                   = BLACK_SKULL_DURATION E * 86400 * 1000).
  { rewrite (i64_small (BLACK_SKULL_DURATION E)) by lia.
    rewrite i64_small by lia. lia. }
  destruct (skull p); try contradiction; (split; [reflexivity | exact Hticks]).
Qed.
End UnjustifiedFacts.

Lemma sixth_kill_is_black_witness :
  Unjustified.skull Unjustified.after_five_kills = Unjustified.SKULL_RED
  /\ Unjustified.skull
       (Unjustified.addUnjustifiedDead Unjustified.example_env Unjustified.victim
          Unjustified.after_five_kills) = Unjustified.SKULL_BLACK
  /\ Unjustified.skullTicks
       (Unjustified.addUnjustifiedDead Unjustified.example_env Unjustified.victim
          Unjustified.after_five_kills) = 45 * 86400 * 1000.
Proof.
  split; [reflexivity |].
  apply (sixth_kill_is_black Unjustified.example_env Unjustified.victim
           Unjustified.after_five_kills).
  - reflexivity.
  - vm_compute. discriminate.
  - vm_compute. discriminate.
  - vm_compute. discriminate.
  - reflexivity.
  - unfold in_i32. vm_compute. split; [discriminate | reflexivity].
  - reflexivity.
Defined.

(** ** Wheel of Destiny: Battle Instinct *)

Section WheelFacts.
Import Wheel.
Variable E : Env.

(** One tile in the count: nothing past eight, one more for a counting
    tile below eight. *)
Lemma count_tile (n : Z) (counts : bool) :
  0 <= n <= 8 ->
  (if n >=? 8 then n else if counts then u16 (n + 1) else n)
  = Z.min 8 (n + (if counts then 1 else 0)).
Proof.
  intros Hn. destruct (Z.geb_spec n 8); [destruct counts; lia |].
  destruct counts; [rewrite u16_small by lia |]; lia.
Qed.

(** One round of the outer loop: a column of three tiles. *)
Lemma count_column (p : Player) (offsetX n : Z) :
  0 <= n <= 8 ->
  (if n >=? 8 then n
   else fold_left
          (fun creaturesNearby offsetY =>
             if creaturesNearby >=? 8 then creaturesNearby
             else if countsAt E p offsetX offsetY then u16 (creaturesNearby + 1)
             else creaturesNearby)
          [-1; 0; 1] n)
  = Z.min 8 (n + (tile E p offsetX (-1) + tile E p offsetX 0 + tile E p offsetX 1)).
Proof.
  intros Hn. unfold tile.
  assert (Hcol : fold_left
          (fun creaturesNearby offsetY =>
             if creaturesNearby >=? 8 then creaturesNearby
             else if countsAt E p offsetX offsetY then u16 (creaturesNearby + 1)
             else creaturesNearby)
          [-1; 0; 1] n
          = Z.min 8 (n + ((if countsAt E p offsetX (-1) then 1 else 0)
                          + (if countsAt E p offsetX 0 then 1 else 0)
                          + (if countsAt E p offsetX 1 then 1 else 0)))).
  { cbn [fold_left].
    generalize (countsAt E p offsetX (-1)), (countsAt E p offsetX 0),
               (countsAt E p offsetX 1).
    intros b1 b2 b3.
    set (n1 := if n >=? 8 then n else if b1 then u16 (n + 1) else n).
    assert (H1 : n1 = Z.min 8 (n + (if b1 then 1 else 0))) by (apply count_tile; lia).
    clearbody n1.
    set (n2 := if n1 >=? 8 then n1 else if b2 then u16 (n1 + 1) else n1).
    assert (H2 : n2 = Z.min 8 (n1 + (if b2 then 1 else 0))).
    { apply count_tile. destruct b1; lia. }
    clearbody n2.
    rewrite count_tile by (destruct b1, b2; lia).
    destruct b1, b2, b3; lia. }
  rewrite Hcol. destruct (Z.geb_spec n 8); [| reflexivity].
  destruct (countsAt E p offsetX (-1)), (countsAt E p offsetX 0),
           (countsAt E p offsetX 1); lia.
Qed.

Lemma countingTiles_columns (p : Player) :
  countingTiles E p
  = (tile E p (-1) (-1) + tile E p (-1) 0 + tile E p (-1) 1)
    + (tile E p 0 (-1) + tile E p 0 0 + tile E p 0 1)
    + (tile E p 1 (-1) + tile E p 1 0 + tile E p 1 1).
Proof.
  unfold countingTiles, neighborhood, tile. cbn [List.filter].
  destruct (countsAt E p (-1) (-1)), (countsAt E p (-1) 0), (countsAt E p (-1) 1),
           (countsAt E p 0 (-1)), (countsAt E p 0 0), (countsAt E p 0 1),
           (countsAt E p 1 (-1)), (countsAt E p 1 0), (countsAt E p 1 1);
    reflexivity.
Qed.

Lemma tile_range (p : Player) (x y : Z) : 0 <= tile E p x y <= 1.
Proof. unfold tile. destruct (countsAt E p x y); lia. Qed.

(** The counter is the number of counting tiles, capped at eight. *)
Lemma countNearby_capped (p : Player) :
  countNearby E p = Z.min 8 (countingTiles E p).
Proof.
  rewrite countingTiles_columns. unfold countNearby.
  set (h := fun creaturesNearby offsetX => if creaturesNearby >=? 8 then _ else _).
  assert (Hh : forall n x, 0 <= n <= 8 ->
               h n x = Z.min 8 (n + (tile E p x (-1) + tile E p x 0 + tile E p x 1))).
  { intros n x Hn. subst h. cbv beta. apply count_column. exact Hn. }
  clearbody h. cbn [fold_left].
  pose proof (tile_range p (-1) (-1)). pose proof (tile_range p (-1) 0).
  pose proof (tile_range p (-1) 1). pose proof (tile_range p 0 (-1)).
  pose proof (tile_range p 0 0). pose proof (tile_range p 0 1).
  pose proof (tile_range p 1 (-1)). pose proof (tile_range p 1 0).
  pose proof (tile_range p 1 1).
  rewrite (Hh 0 (-1)) by lia.
  rewrite (Hh _ 0) by lia.
  rewrite (Hh _ 1) by lia.
  lia.
Qed.
Lemma countingTiles_range (p : Player) : 0 <= countingTiles E p <= 9.
Proof.
  unfold countingTiles.
  pose proof (List.filter_length_le
                (fun '(offsetX, offsetY) => countsAt E p offsetX offsetY)
                neighborhood) as Hle.
  simpl length in Hle at 2. lia.
Qed.

(** Where the player stands and who it is decide the count; the timer and
    the stored count do not. *)
Lemma countNearby_same_place (p q : Player) :
  self q = self p -> getPosition q = getPosition p ->
  countNearby E q = countNearby E p.
Proof.
  intros Hself Hpos. unfold countNearby, countsAt. rewrite Hself, Hpos. reflexivity.
Qed.

(** C7, as amended: the re-evaluation counts, one per tile of the 3x3
    neighborhood and up to eight, the tiles whose top visible creature is
    neither the player nor one of its summons; when that count n is at
    least 5 it sets the melee major stat to n - 4 and the shield major
    stat to 6 (n - 4), and otherwise it sets both to 0. *)
Theorem battleInstinct_from_five (p : Player) :
  let n := Z.min 8 (countingTiles E p) in
  let p' := fst (checkWheelOfDestinyBattleInstinct E p) in
  (5 <= n -> melee p' = n - 4 /\ shield p' = 6 * (n - 4))
  /\ (n < 5 -> melee p' = 0 /\ shield p' = 0).
Proof.
  intros n p'. subst p'. unfold checkWheelOfDestinyBattleInstinct.
  set (p0 := set_wheelOfDestinyCreaturesNearby 0 _).
  assert (Hn : countNearby E p0 = n).
  { rewrite (countNearby_same_place p p0) by reflexivity. apply countNearby_capped. }
  rewrite Hn.
  assert (Hrange : 0 <= n <= 8).
  { subst n. pose proof (countingTiles_range p). lia. }
  clearbody n. unfold melee, shield.
  destruct (Z.geb_spec n 5) as [Hge | Hlt].
  - split; [intros _ | lia].
    rewrite (u16_small (n - 4)) by lia.
    rewrite (u16_small (1 * (n - 4))) by lia.
    rewrite (u16_small (6 * (n - 4))) by lia.
    match goal with |- context [if ?b then _ else _] => destruct b eqn:Hb end.
    + cbn. split; lia.
    + apply orb_false_iff in Hb. destruct Hb as [Hm Hs].
      apply negb_false_iff in Hm, Hs. apply Z.eqb_eq in Hm, Hs.
      cbn in *. split; lia.
  - split; [lia | intros _].
    match goal with |- context [if ?b then _ else _] => destruct b eqn:Hb end.
    + cbn. split; reflexivity.
    + apply orb_false_iff in Hb. destruct Hb as [Hm Hs].
      apply negb_false_iff in Hm, Hs. apply Z.eqb_eq in Hm, Hs.
      cbn in *. split; assumption.
Qed.
End WheelFacts.

(** C7 as stated fails at exactly five creatures: five is not above five,
    so the stated rule leaves both stats at 0, while the code sets melee to
    1 and shield to 6. *)
Lemma battleInstinct_five_counterexample :
  Wheel.countingTiles Wheel.five_around Wheel.calm_player = 5
  /\ Wheel.countNearby Wheel.five_around Wheel.calm_player = 5
  /\ Wheel.getWheelOfDestinyMajorStat
       (fst (Wheel.checkWheelOfDestinyBattleInstinct Wheel.five_around
               Wheel.calm_player)) Wheel.WHEEL_OF_DESTINY_MAJOR_MELEE = 1
  /\ Wheel.getWheelOfDestinyMajorStat
       (fst (Wheel.checkWheelOfDestinyBattleInstinct Wheel.five_around
               Wheel.calm_player)) Wheel.WHEEL_OF_DESTINY_MAJOR_SHIELD = 6
  /\ Wheel.spec_battleInstinct 5 = (0, 0).
Proof. repeat split; vm_compute; reflexivity. Qed.

Lemma battleInstinct_from_five_witness :
  Wheel.getWheelOfDestinyMajorStat
    (fst (Wheel.checkWheelOfDestinyBattleInstinct Wheel.five_around Wheel.calm_player))
    Wheel.WHEEL_OF_DESTINY_MAJOR_MELEE = 1
  /\ Wheel.getWheelOfDestinyMajorStat
       (fst (Wheel.checkWheelOfDestinyBattleInstinct Wheel.five_around
               Wheel.calm_player)) Wheel.WHEEL_OF_DESTINY_MAJOR_SHIELD = 6.
Proof.
  apply (proj1 (battleInstinct_from_five Wheel.five_around Wheel.calm_player)).
  vm_compute. discriminate.
Defined.

(** * Further properties of the progression code *)

Lemma u64_small (z : Z) : 0 <= z < 2 ^ 64 -> u64 z = z.
Proof. intros H. apply wrap_small. exact H. Qed.


Section ProgressionBehaviour.
Import Progression ProgressionLoops.
Variable E : Env.




Lemma skills_t_eqb_eq (a b : skills_t) : skills_t_eqb a b = true <-> a = b.
Proof. destruct a, b; simpl; split; intros H; try reflexivity; discriminate. Qed.

Lemma skills_t_eqb_refl (a : skills_t) : skills_t_eqb a a = true.
Proof. apply skills_t_eqb_eq. reflexivity. Qed.

Lemma skills_set_skill_same (skill : skills_t) (s : Skill.t) (p : Player) :
  skills (set_skill skill s p) skill = s.
Proof. unfold set_skill. simpl. rewrite skills_t_eqb_refl. reflexivity. Qed.

Lemma skills_set_skill_other (skill k : skills_t) (s : Skill.t) (p : Player) :
  k <> skill -> skills (set_skill skill s p) k = skills p k.
Proof.
  intros Hne. unfold set_skill. simpl.
  destruct (skills_t_eqb k skill) eqn:Hk; [| reflexivity].
  apply skills_t_eqb_eq in Hk. contradiction.
Qed.

Lemma reqSkillTries_range (p : Player) (skill : skills_t) (lvl : Z) :
  0 <= reqSkillTries p skill lvl < 2 ^ 64.
Proof. unfold reqSkillTries. apply u64_range. Qed.

Lemma reqSkillTries_u16 (p : Player) (skill : skills_t) (lvl : Z) :
  reqSkillTries p skill (u16 lvl) = reqSkillTries p skill lvl.
Proof. unfold reqSkillTries, u16, wrap. rewrite Z.mod_mod by lia. reflexivity. Qed.

Lemma reqSkillTries_vocation (p q : Player) (skill : skills_t) (lvl : Z) :
  vocation q = vocation p -> reqSkillTries q skill lvl = reqSkillTries p skill lvl.
Proof. intros H. unfold reqSkillTries. rewrite H. reflexivity. Qed.

Lemma addSkillAdvance_loop_done (p0 : Player) (skill : skills_t) (fuel : nat) :
  forall p count curr next send,
    vocation p = vocation p0 ->
    (forall k, k <> skill -> skills p k = skills p0 k) ->
    magLevel p = magLevel p0 -> manaSpent p = manaSpent p0 ->
    level p = level p0 -> experience p = experience p0 ->
    curr = reqSkillTries p0 skill (Skill.level (skills p skill)) ->
    next = reqSkillTries p0 skill (Skill.level (skills p skill) + 1) ->
    curr < next ->
    0 <= count < 2 ^ 64 ->
    ((Skill.tries (skills p skill) = 0 /\ (Z.to_nat count < fuel)%nat)
     \/ (advance_fuel (Skill.tries (skills p skill)) count next <= fuel)%nat) ->
    advance_done p0 skill (addSkillAdvance_loop fuel skill p count curr next send).
Proof.
  induction fuel as [| fuel IH];
    intros p count curr next send Hv Hk Hml Hms Hlv Hex Hc Hn Hrise Hcount Hfuel.
  { exfalso. unfold advance_fuel in Hfuel. lia. }
  cbn [addSkillAdvance_loop].
  pose proof (reqSkillTries_range p0 skill (Skill.level (skills p skill))) as Hcr.
  pose proof (reqSkillTries_range p0 skill (Skill.level (skills p skill) + 1)) as Hnr.
  rewrite <- Hc in Hcr. rewrite <- Hn in Hnr.
  destruct (Z.geb_spec (u64 (Skill.tries (skills p skill) + count)) next)
    as [Hgo | Hstop].
  2:{ unfold advance_done. repeat split; try assumption. left. exact Hstop. }
  set (newLevel := u16 (Skill.level (skills p skill) + 1)).
  set (p1 := emit _ (set_skill skill _ p)).
  assert (Hs1 : skills p1 skill
                = {| Skill.level := newLevel; Skill.tries := 0; Skill.percent := 0 |}).
  { subst p1. unfold emit.
    change (skills (set_trace ?t ?q)) with (skills q).
    apply skills_set_skill_same. }
  assert (Hk1 : forall k, k <> skill -> skills p1 k = skills p0 k).
  { intros k Hne. subst p1. unfold emit.
    change (skills (set_trace ?t ?q)) with (skills q).
    rewrite skills_set_skill_other by exact Hne. apply Hk. exact Hne. }
  assert (Hv1 : vocation p1 = vocation p0) by (rewrite <- Hv; reflexivity).
  assert (Hml1 : magLevel p1 = magLevel p0) by (rewrite <- Hml; reflexivity).
  assert (Hms1 : manaSpent p1 = manaSpent p0) by (rewrite <- Hms; reflexivity).
  assert (Hlv1 : level p1 = level p0) by (rewrite <- Hlv; reflexivity).
  assert (Hex1 : experience p1 = experience p0) by (rewrite <- Hex; reflexivity).
  assert (Hc1 : next = reqSkillTries p0 skill (Skill.level (skills p1 skill))).
  { rewrite Hs1. cbn [Skill.level]. subst newLevel.
    rewrite reqSkillTries_u16. exact Hn. }
  assert (Hn1 : reqSkillTries p1 skill (newLevel + 1)
                = reqSkillTries p0 skill (Skill.level (skills p1 skill) + 1)).
  { rewrite Hs1. cbn [Skill.level]. apply reqSkillTries_vocation. exact Hv1. }
  clearbody p1.
  destruct (Z.geb_spec next (reqSkillTries p1 skill (newLevel + 1)))
    as [Hbreak | Hmore].
  { unfold advance_done. repeat split; try assumption.
    right. rewrite Hs1. cbn [Skill.tries]. auto. }
  apply IH; try assumption.
  { apply u64_range. }
  left. rewrite Hs1. cbn [Skill.tries]. split; [reflexivity |].
  destruct Hfuel as [[Ht Hf] | Hf].
  - rewrite Ht in *. rewrite Z.add_0_l in Hgo. rewrite Z.sub_0_r.
    rewrite (u64_small count) in Hgo by exact Hcount.
    rewrite (u64_small next) by exact Hnr.
    rewrite u64_small by lia. lia.
  - unfold advance_fuel in Hf. lia.
Qed.

(** X2 ([addSkillAdvance]): when the skill is not at a plateau and the
    event hook leaves a count other than zero, the call ends with the
    tries of the skill below the requirement of the next level, or at a
    plateau with no tries; no other skill, nor the magic level, the mana
    spent, the level or the experience, is changed. *)
Theorem addSkillAdvance_settles (skill : skills_t) (count : Z) (p : Player) :
  reqSkillTries p skill (Skill.level (skills p skill))
  < reqSkillTries p skill (Skill.level (skills p skill) + 1) ->
  u64 (eventPlayerOnGainSkillTries E p skill count) <> 0 ->
  (Skill.tries (skills (addSkillAdvance E skill count p) skill)
   < reqSkillTries p skill
       (Skill.level (skills (addSkillAdvance E skill count p) skill) + 1)
   \/ (Skill.tries (skills (addSkillAdvance E skill count p) skill) = 0
       /\ reqSkillTries p skill
            (Skill.level (skills (addSkillAdvance E skill count p) skill) + 1)
          <= reqSkillTries p skill
               (Skill.level (skills (addSkillAdvance E skill count p) skill))))
  /\ (forall k, k <> skill -> skills (addSkillAdvance E skill count p) k = skills p k)
  /\ magLevel (addSkillAdvance E skill count p) = magLevel p
  /\ manaSpent (addSkillAdvance E skill count p) = manaSpent p
  /\ level (addSkillAdvance E skill count p) = level p
  /\ experience (addSkillAdvance E skill count p) = experience p.
Proof.
  intros Hrise Hhook. unfold addSkillAdvance.
  destruct (Z.geb_spec (reqSkillTries p skill (Skill.level (skills p skill)))
              (reqSkillTries p skill (Skill.level (skills p skill) + 1)))
    as [Hflat | _]; [lia |].
  apply Z.eqb_neq in Hhook. rewrite Hhook.
  set (c := u64 (eventPlayerOnGainSkillTries E p skill count)).
  pose proof (addSkillAdvance_loop_done p skill
                (advance_fuel (Skill.tries (skills p skill)) c
                   (reqSkillTries p skill (Skill.level (skills p skill) + 1)))
                p c (reqSkillTries p skill (Skill.level (skills p skill)))
                (reqSkillTries p skill (Skill.level (skills p skill) + 1)) false
                eq_refl (fun k _ => eq_refl) eq_refl eq_refl eq_refl eq_refl
                eq_refl eq_refl Hrise (u64_range _) (or_intror (Nat.le_refl _))) as Hdone.
  destruct (addSkillAdvance_loop _ skill p c _ _ false)
    as [[[[p1 count1] curr1] next1] send1].
  destruct Hdone as (Hv & Hc & Hn & Hpost & Hk & Hml & Hms & Hlv & Hex).
  set (sk1 := skills p1 skill) in *.
  set (final := {| Skill.level := Skill.level sk1;
                   Skill.tries := u64 (Skill.tries sk1 + count1);
                   Skill.percent := _ |}).
  assert (Hfinal : forall q, q = set_skill skill final p1
                        \/ q = emit [SendSkills; SendStats] (set_skill skill final p1) ->
            skills q skill = final
            /\ (forall k, k <> skill -> skills q k = skills p k)
            /\ magLevel q = magLevel p /\ manaSpent q = manaSpent p
            /\ level q = level p /\ experience q = experience p).
  { intros q [-> | ->]; unfold emit;
      try change (skills (set_trace ?t ?x)) with (skills x).
    all: split; [apply skills_set_skill_same |].
    all: split; [intros k Hne; rewrite skills_set_skill_other by exact Hne;
                 apply Hk; exact Hne |].
    all: rewrite <- Hml, <- Hms, <- Hlv, <- Hex; repeat split. }
  match goal with
  | |- context [if ?b then emit ?o ?q else ?q] =>
    assert (Hq : (if b then emit o q else q) = q
                 \/ (if b then emit o q else q) = emit o q)
      by (destruct b; auto);
    generalize dependent (if b then emit o q else q)
  end.
  intros q Hq. destruct (Hfinal q Hq) as (Hs & Hrest).
  split; [| exact Hrest].
  rewrite Hs. subst final. cbn [Skill.tries Skill.level].
  destruct Hpost as [Hlt | (Hz & Ht & Hflat)].
  - left. rewrite <- Hn. exact Hlt.
  - right. rewrite Hz, Ht. rewrite <- Hn, <- Hc. split; [reflexivity | exact Hflat].
Qed.


(** X3 ([addSkillAdvance]): a count that does not reach the next
    requirement is added to the tries of the skill and leaves its level
    alone. *)
Theorem addSkillAdvance_accumulates (skill : skills_t) (count : Z) (p : Player) :
  reqSkillTries p skill (Skill.level (skills p skill))
  < reqSkillTries p skill (Skill.level (skills p skill) + 1) ->
  u64 (eventPlayerOnGainSkillTries E p skill count) <> 0 ->
  0 <= Skill.tries (skills p skill) ->
  Skill.tries (skills p skill) + u64 (eventPlayerOnGainSkillTries E p skill count)
  < reqSkillTries p skill (Skill.level (skills p skill) + 1) ->
  Skill.level (skills (addSkillAdvance E skill count p) skill)
  = Skill.level (skills p skill)
  /\ Skill.tries (skills (addSkillAdvance E skill count p) skill)
     = Skill.tries (skills p skill)
       + u64 (eventPlayerOnGainSkillTries E p skill count).
Proof.
  intros Hrise Hhook Htries Hroom. unfold addSkillAdvance.
  destruct (Z.geb_spec (reqSkillTries p skill (Skill.level (skills p skill)))
              (reqSkillTries p skill (Skill.level (skills p skill) + 1)))
    as [Hflat | _]; [lia |].
  apply Z.eqb_neq in Hhook. rewrite Hhook.
  set (c := u64 (eventPlayerOnGainSkillTries E p skill count)) in *.
  pose proof (u64_range (eventPlayerOnGainSkillTries E p skill count)) as Hc.
  fold c in Hc.
  pose proof (reqSkillTries_range p skill (Skill.level (skills p skill) + 1)) as Hn.
  unfold advance_fuel. cbn [addSkillAdvance_loop].
  assert (Hsum : u64 (Skill.tries (skills p skill) + c)
                 = Skill.tries (skills p skill) + c) by (apply u64_small; lia).
  rewrite Hsum.
  destruct (Z.geb_spec (Skill.tries (skills p skill) + c)
              (reqSkillTries p skill (Skill.level (skills p skill) + 1)))
    as [Hge | _]; [lia |].
  match goal with
  | |- context [if ?b then emit ?o ?q else ?q] =>
    assert (Hq : (if b then emit o q else q) = q
                 \/ (if b then emit o q else q) = emit o q)
      by (destruct b; auto);
    generalize dependent (if b then emit o q else q)
  end.
  intros q [-> | ->]; unfold emit;
    try change (skills (set_trace ?t ?x)) with (skills x);
    rewrite skills_set_skill_same; cbn [Skill.level Skill.tries]; split;
    try reflexivity; exact Hsum.
Qed.

Lemma reqMana_range (p : Player) (lvl : Z) : 0 <= reqMana p lvl < 2 ^ 64.
Proof. unfold reqMana. apply u64_range. Qed.

Lemma reqMana_u32 (p : Player) (lvl : Z) : reqMana p (u32 lvl) = reqMana p lvl.
Proof. unfold reqMana, u32, wrap. rewrite Z.mod_mod by lia. reflexivity. Qed.

Lemma reqMana_vocation (p q : Player) (lvl : Z) :
  vocation q = vocation p -> reqMana q lvl = reqMana p lvl.
Proof. intros H. unfold reqMana. rewrite H. reflexivity. Qed.

Lemma addManaSpent_loop_done (p0 : Player) (fuel : nat) :
  forall p amount curr next send,
    vocation p = vocation p0 -> skills p = skills p0 ->
    level p = level p0 -> experience p = experience p0 ->
    curr = reqMana p0 (magLevel p) -> next = reqMana p0 (magLevel p + 1) ->
    curr < next ->
    0 <= amount < 2 ^ 64 ->
    ((manaSpent p = 0 /\ (Z.to_nat amount < fuel)%nat)
     \/ (advance_fuel (manaSpent p) amount next <= fuel)%nat) ->
    mana_done p0 (addManaSpent_loop fuel p amount curr next send).
Proof.
  induction fuel as [| fuel IH];
    intros p amount curr next send Hv Hsk Hlv Hex Hc Hn Hrise Hamount Hfuel.
  { exfalso. unfold advance_fuel in Hfuel. lia. }
  cbn [addManaSpent_loop].
  pose proof (reqMana_range p0 (magLevel p)) as Hcr.
  pose proof (reqMana_range p0 (magLevel p + 1)) as Hnr.
  rewrite <- Hc in Hcr. rewrite <- Hn in Hnr.
  destruct (Z.geb_spec (u64 (manaSpent p + amount)) next) as [Hgo | Hstop].
  2:{ unfold mana_done. repeat split; assumption. }
  set (newLevel := u32 (magLevel p + 1)).
  set (p1 := emit _ (set_manaSpent 0 (set_magLevel newLevel p))).
  assert (Hm1 : magLevel p1 = newLevel) by reflexivity.
  assert (Hs1 : manaSpent p1 = 0) by reflexivity.
  assert (Hv1 : vocation p1 = vocation p0) by (rewrite <- Hv; reflexivity).
  assert (Hsk1 : skills p1 = skills p0) by (rewrite <- Hsk; reflexivity).
  assert (Hlv1 : level p1 = level p0) by (rewrite <- Hlv; reflexivity).
  assert (Hex1 : experience p1 = experience p0) by (rewrite <- Hex; reflexivity).
  assert (Hc1 : next = reqMana p0 (magLevel p1)).
  { rewrite Hm1. subst newLevel. rewrite reqMana_u32. exact Hn. }
  assert (Hn1 : reqMana p1 (newLevel + 1) = reqMana p0 (magLevel p1 + 1)).
  { rewrite Hm1. apply reqMana_vocation. exact Hv1. }
  clearbody p1.
  destruct (Z.geb_spec next (reqMana p1 (newLevel + 1))) as [Hbreak | Hmore].
  { unfold mana_done. repeat split; try assumption.
    rewrite <- Hn1, <- Hc1. exact Hbreak. }
  apply IH; try assumption.
  { apply u64_range. }
  left. split; [exact Hs1 |].
  destruct Hfuel as [[Ht Hf] | Hf].
  - rewrite Ht in *. rewrite Z.add_0_l in Hgo. rewrite Z.sub_0_r.
    rewrite (u64_small amount) in Hgo by exact Hamount.
    rewrite (u64_small next) by exact Hnr.
    rewrite u64_small by lia. lia.
  - unfold advance_fuel in Hf. lia.
Qed.

(** X4 ([addManaSpent]): for a player who may gain mana, not at a plateau,
    with a hook count other than zero, the call ends with the mana spent
    below the requirement of the next magic level, or at a plateau with no
    mana spent; skills, level and experience are not changed. *)
Theorem addManaSpent_settles (amount : Z) (p : Player) :
  hasFlag p PlayerFlag_NotGainMana = false ->
  reqMana p (magLevel p) < reqMana p (magLevel p + 1) ->
  u64 (eventPlayerOnGainSkillTries E p SKILL_MAGLEVEL amount) <> 0 ->
  (manaSpent (addManaSpent E amount p)
   < reqMana p (magLevel (addManaSpent E amount p) + 1)
   \/ (manaSpent (addManaSpent E amount p) = 0
       /\ reqMana p (magLevel (addManaSpent E amount p) + 1)
          <= reqMana p (magLevel (addManaSpent E amount p))))
  /\ skills (addManaSpent E amount p) = skills p
  /\ level (addManaSpent E amount p) = level p
  /\ experience (addManaSpent E amount p) = experience p.
Proof.
  intros Hflag Hrise Hhook. unfold addManaSpent. rewrite Hflag.
  destruct (Z.geb_spec (reqMana p (magLevel p)) (reqMana p (magLevel p + 1)))
    as [Hflat | _]; [lia |].
  apply Z.eqb_neq in Hhook. rewrite Hhook.
  set (c := u64 (eventPlayerOnGainSkillTries E p SKILL_MAGLEVEL amount)).
  pose proof (addManaSpent_loop_done p
                (advance_fuel (manaSpent p) c (reqMana p (magLevel p + 1)))
                p c (reqMana p (magLevel p)) (reqMana p (magLevel p + 1)) false
                eq_refl eq_refl eq_refl eq_refl eq_refl eq_refl Hrise
                (u64_range _) (or_intror (Nat.le_refl _))) as Hdone.
  destruct (addManaSpent_loop _ p c _ _ false)
    as [[[[[p1 amount1] curr1] next1] send1] | p1]; cbn [mana_done] in Hdone.
  - destruct Hdone as (Hv & Hsk & Hlv & Hex & Hc & Hn & Hr & Hlt).
    match goal with
    | |- context [if ?b then emit ?o ?q else ?q] =>
      assert (Hq : (if b then emit o q else q) = q
                   \/ (if b then emit o q else q) = emit o q)
        by (destruct b; auto);
      generalize dependent (if b then emit o q else q)
    end.
    intros q Hq.
    assert (Hfacts : manaSpent q = u64 (manaSpent p1 + amount1)
                     /\ magLevel q = magLevel p1 /\ skills q = skills p1
                     /\ level q = level p1 /\ experience q = experience p1).
    { destruct Hq as [-> | ->]; repeat split. }
    destruct Hfacts as (Hms & Hml & Hsq & Hlq & Heq).
    rewrite Hms, Hml, Hsq, Hlq, Heq, <- Hn.
    repeat split; try assumption. left. exact Hlt.
  - destruct Hdone as (Hv & Hsk & Hlv & Hex & Hms & Hflat).
    repeat split; try assumption. right. split; assumption.
Qed.

(** X5 ([addManaSpent]): an amount that does not reach the next
    requirement is added to the mana spent and leaves the magic level
    alone. *)
Theorem addManaSpent_accumulates (amount : Z) (p : Player) :
  hasFlag p PlayerFlag_NotGainMana = false ->
  reqMana p (magLevel p) < reqMana p (magLevel p + 1) ->
  u64 (eventPlayerOnGainSkillTries E p SKILL_MAGLEVEL amount) <> 0 ->
  0 <= manaSpent p ->
  manaSpent p + u64 (eventPlayerOnGainSkillTries E p SKILL_MAGLEVEL amount)
  < reqMana p (magLevel p + 1) ->
  magLevel (addManaSpent E amount p) = magLevel p
  /\ manaSpent (addManaSpent E amount p)
     = manaSpent p + u64 (eventPlayerOnGainSkillTries E p SKILL_MAGLEVEL amount).
Proof.
  intros Hflag Hrise Hhook Hspent Hroom. unfold addManaSpent. rewrite Hflag.
  destruct (Z.geb_spec (reqMana p (magLevel p)) (reqMana p (magLevel p + 1)))
    as [Hflat | _]; [lia |].
  apply Z.eqb_neq in Hhook. rewrite Hhook.
  set (c := u64 (eventPlayerOnGainSkillTries E p SKILL_MAGLEVEL amount)) in *.
  pose proof (u64_range (eventPlayerOnGainSkillTries E p SKILL_MAGLEVEL amount)) as Hc.
  fold c in Hc.
  pose proof (reqMana_range p (magLevel p + 1)) as Hn.
  unfold advance_fuel. cbn [addManaSpent_loop].
  assert (Hsum : u64 (manaSpent p + c) = manaSpent p + c) by (apply u64_small; lia).
  rewrite Hsum.
  destruct (Z.geb_spec (manaSpent p + c) (reqMana p (magLevel p + 1)))
    as [Hge | _]; [lia |].
  match goal with
  | |- context [if ?b then emit ?o ?q else ?q] => destruct b
  end; split; simpl; try reflexivity; exact Hsum.
Qed.


Ltac untouched_member := intros ? ?; reflexivity.

(** The level and experience [addExperience] ends with are those its loop
    ends with, started from the experience already added. *)
Lemma addExperience_result (exp : Z) (sendText : bool) (p : Player) :
  expForLevel E (level p) < expForLevel E (level p + 1) ->
  u64 (eventPlayerOnGainExperience E p exp) <> 0 ->
  exists p0 p1 c n,
    level p0 = level p
    /\ experience p0 = u64 (experience p + u64 (eventPlayerOnGainExperience E p exp))
    /\ addExperience_loop E (addExperience_fuel p0 (expForLevel E (level p + 1)))
         p0 (expForLevel E (level p)) (expForLevel E (level p + 1)) = (p1, c, n)
    /\ level (addExperience E exp sendText p) = level p1
    /\ experience (addExperience E exp sendText p) = experience p1.
Proof.
  intros Hgo Hhook. unfold addExperience.
  destruct (Z.geb_spec (expForLevel E (level p)) (expForLevel E (level p + 1)))
    as [Hmax | _]; [lia |].
  apply Z.eqb_neq in Hhook. rewrite Hhook.
  set (p0 := if sendText then _ else _).
  exists p0.
  destruct (addExperience_loop E _ p0 _ _) as [[p1 c] n].
  exists p1, c, n.
  split; [subst p0; destruct sendText; reflexivity |].
  split; [subst p0; destruct sendText; reflexivity |].
  split; [reflexivity |].
  destruct (negb (level p0 =? level p1)); [simpl; destruct (party p1) |];
    split; reflexivity.
Qed.

(** X6 ([addExperience]): below the level plateau and with a hook amount
    other than zero, the experience grows by exactly that amount (in
    64-bit arithmetic) and the level reached is one whose next threshold
    is above the experience, or a level at which the table stops
    growing. *)
Theorem addExperience_settles (exp : Z) (sendText : bool) (p : Player) :
  expForLevel E (level p) < expForLevel E (level p + 1) ->
  u64 (eventPlayerOnGainExperience E p exp) <> 0 ->
  experience (addExperience E exp sendText p)
  = u64 (experience p + u64 (eventPlayerOnGainExperience E p exp))
  /\ (experience (addExperience E exp sendText p)
      < expForLevel E (level (addExperience E exp sendText p) + 1)
      \/ expForLevel E (level (addExperience E exp sendText p) + 1)
         <= expForLevel E (level (addExperience E exp sendText p))).
Proof.
  intros Hgo Hhook.
  destruct (addExperience_result exp sendText p Hgo Hhook)
    as (p0 & p1 & c & n & Hl0 & He0 & Hrun & Hl & He).
  pose proof (addExperience_loop_locals E
                (addExperience_fuel p0 (expForLevel E (level p + 1)))
                p0 (expForLevel E (level p)) (expForLevel E (level p + 1))) as Hloop.
  rewrite Hl0 in Hloop. specialize (Hloop eq_refl eq_refl).
  pose proof (addExperience_loop_exits E
                (addExperience_fuel p0 (expForLevel E (level p + 1)))
                p0 (expForLevel E (level p)) (expForLevel E (level p + 1))
                (Nat.le_refl _)) as Hexit.
  rewrite Hrun in Hloop, Hexit. destruct Hloop as (Hc & Hn & He1).
  rewrite Hl, He, <- Hc, <- Hn. split; [congruence | exact Hexit].
Qed.

Lemma removeExperience_loop_level (fuel : nat) :
  forall p c,
    in_u32 (level p) ->
    level (fst (removeExperience_loop E fuel p c)) <= level p.
Proof.
  induction fuel as [| fuel IH]; intros p c Hrange; cbn [removeExperience_loop].
  - simpl. lia.
  - destruct (Z.gtb_spec (level p) 1) as [Hgt | Hle]; [| simpl; lia].
    destruct (experience p <? c); [| simpl; lia].
    cbn [andb].
    assert (Hl : level (levelDown E p) = level p - 1).
    { rewrite levelDown_level. apply wrap_small. unfold in_u32 in Hrange. lia. }
    assert (Hr : in_u32 (level (levelDown E p))).
    { unfold in_u32 in *. rewrite Hl. lia. }
    specialize (IH (levelDown E p) (expForLevel E (level (levelDown E p))) Hr).
    lia.
Qed.

Lemma removeExperience_result (exp : Z) (sendText : bool) (p : Player) :
  experience p <> 0 -> exp <> 0 ->
  u64 (eventPlayerOnLoseExperience E p exp) <> 0 ->
  exists p0 p1 c,
    level p0 = level p
    /\ experience p0
       = Z.max 0 (i64 (u64 (experience p - u64 (eventPlayerOnLoseExperience E p exp))))
    /\ removeExperience_loop E (Z.to_nat (level p0)) p0 (expForLevel E (level p0))
       = (p1, c)
    /\ level (removeExperience E exp sendText p) = level p1
    /\ experience (removeExperience E exp sendText p) = experience p1.
Proof.
  intros He Hexp Hhook. unfold removeExperience.
  apply Z.eqb_neq in He, Hexp, Hhook. rewrite He, Hexp, Hhook. simpl orb. cbv iota.
  set (p0 := if sendText then _ else _).
  exists p0.
  destruct (removeExperience_loop E _ p0 _) as [p1 c].
  exists p1, c.
  split; [subst p0; destruct sendText; reflexivity |].
  split; [subst p0; destruct sendText; reflexivity |].
  split; [reflexivity |].
  destruct (negb (level p0 =? level p1)); [simpl; destruct (party p1) |];
    split; reflexivity.
Qed.

(** X7 ([removeExperience]): the experience never goes below zero, the
    level never rises, and the level reached is 1 or a level whose
    threshold the remaining experience still meets. *)
Theorem removeExperience_settles (exp : Z) (sendText : bool) (p : Player) :
  in_u32 (level p) ->
  experience p <> 0 -> exp <> 0 ->
  u64 (eventPlayerOnLoseExperience E p exp) <> 0 ->
  0 <= experience (removeExperience E exp sendText p)
  /\ level (removeExperience E exp sendText p) <= level p
  /\ (level (removeExperience E exp sendText p) <= 1
      \/ expForLevel E (level (removeExperience E exp sendText p))
         <= experience (removeExperience E exp sendText p)).
Proof.
  intros Hrange He Hexp Hhook.
  destruct (removeExperience_result exp sendText p He Hexp Hhook)
    as (p0 & p1 & c & Hl0 & He0 & Hrun & Hl & He').
  assert (Hr0 : in_u32 (level p0)) by (rewrite Hl0; exact Hrange).
  pose proof (removeExperience_loop_locals E (Z.to_nat (level p0)) p0
                (expForLevel E (level p0)) eq_refl) as Hloop.
  pose proof (removeExperience_loop_exits E (Z.to_nat (level p0)) p0
                (expForLevel E (level p0)) Hr0 (Nat.le_refl _)) as Hexit.
  pose proof (removeExperience_loop_level (Z.to_nat (level p0)) p0
                (expForLevel E (level p0)) Hr0) as Hle.
  rewrite Hrun in Hloop, Hexit, Hle. destruct Hloop as (Hc & He1). cbn [fst] in Hle.
  rewrite Hl, He', <- Hc. lia.
Qed.

(** X8 ([death]): a player whose [skillLoss] is off loses nothing by
    dying, neither level, experience, magic level, mana spent nor skills,
    and [skillLoss] is switched on for the next death. *)
Theorem death_without_skillLoss_is_free (c : option Creature) (p : Player) :
  skillLoss p = false ->
  skillLoss (death E c p) = true
  /\ level (death E c p) = level p
  /\ experience (death E c p) = experience p
  /\ magLevel (death E c p) = magLevel p
  /\ manaSpent (death E c p) = manaSpent p
  /\ skills (death E c p) = skills p.
Proof.
  intros Hs. unfold death. simpl. rewrite Hs.
  repeat split; unfold emit at 1.
  - change (skillLoss (set_trace ?t (set_health ?v ?q))) with (skillLoss q).
    rewrite (death_conditions_keeps E skillLoss) by untouched_member. reflexivity.
  - change (level (set_trace ?t (set_health ?v ?q))) with (level q).
    rewrite (death_conditions_keeps E level) by untouched_member. reflexivity.
  - change (experience (set_trace ?t (set_health ?v ?q))) with (experience q).
    rewrite (death_conditions_keeps E experience) by untouched_member. reflexivity.
  - change (magLevel (set_trace ?t (set_health ?v ?q))) with (magLevel q).
    rewrite (death_conditions_keeps E magLevel) by untouched_member. reflexivity.
  - change (manaSpent (set_trace ?t (set_health ?v ?q))) with (manaSpent q).
    rewrite (death_conditions_keeps E manaSpent) by untouched_member. reflexivity.
  - change (skills (set_trace ?t (set_health ?v ?q))) with (skills q).
    rewrite (death_conditions_keeps E skills) by untouched_member. reflexivity.
Qed.

Lemma death_conditions_conditions (p : Player) :
  conditions (death_conditions E p)
  = List.filter (fun cond => negb (isPersistent cond)) (conditions p).
Proof.
  unfold death_conditions. cbv zeta.
  apply (fold_left_invariant
           (fun q => conditions q
                     = List.filter (fun cond => negb (isPersistent cond))
                                   (conditions p)));
    [| reflexivity].
  intros q c Hq. rewrite (onEndCondition_keeps E conditions) by untouched_member.
  exact Hq.
Qed.

(** X9 ([death]): a death with [skillLoss] on leaves exactly the
    conditions that are not persistent, in their order, whatever was lost
    on the way. *)
Theorem death_ends_persistent_conditions (c : option Creature) (p : Player) :
  skillLoss p = true ->
  conditions (death E c p)
  = List.filter (fun cond => negb (isPersistent cond)) (conditions p).
Proof.
  intros Hloss. unfold death.
  change (skillLoss (emit ?o (set_loginPosition ?v p))) with (skillLoss p).
  rewrite Hloss.
  set (p0 := emit [SendSingleSoundEffect] (set_loginPosition (templePosition p) p)).
  set (pvp := death_pvpDeath E c p0).
  set (dlp := death_deathLossPercent E c p0).
  set (p4 := emit _ (death_blessings E pvp _)).
  assert (H4 : conditions p4 = conditions p).
  { subst p4. unfold emit at 1.
    change (conditions (set_trace ?t ?q)) with (conditions q).
    rewrite (death_blessings_keeps E conditions) by untouched_member.
    rewrite (death_levelLoss_keeps E conditions) by untouched_member.
    rewrite (death_skillLoss_keeps conditions) by untouched_member.
    rewrite (death_magicLoss_keeps conditions) by untouched_member.
    reflexivity. }
  clearbody p4.
  destruct (getSkull p4); rewrite death_conditions_conditions; simpl; rewrite H4;
    reflexivity.
Qed.

(** X10 ([death]): the unfair fight reduction is always between 20 and
    100, and it is 100 whenever the death is not a PvP death or the
    attackers' summed level does not exceed the player's. *)
Theorem unfairFightReduction_range (c : option Creature) (p : Player) :
  0 <= level p ->
  20 <= death_unfairFightReduction E c p <= 100
  /\ (death_pvpDeath E c p = false \/ death_sumLevels E p <= level p ->
      death_unfairFightReduction E c p = 100).
Proof.
  intros Hlvl. unfold death_unfairFightReduction, death_sumLevels.
  destruct (death_damage E p) as [[playerDmg othersDmg] sumLevels]. cbn [snd].
  destruct (death_pvpDeath E c p); cbn [andb].
  - destruct (Z.gtb_spec sumLevels (level p)) as [Hgt | Hle].
    + pose proof (reduction_range (level p) sumLevels ltac:(lia)) as Hr.
      split; [exact Hr |]. intros [Hf | Hs]; [discriminate | lia].
    + split; [lia | reflexivity].
  - split; [lia | reflexivity].
Qed.
End ProgressionBehaviour.


Lemma addSkillAdvance_settles_witness :
  Skill.tries
    (Progression.skills
       (Progression.addSkillAdvance Progression.lonely_env Progression.SKILL_SWORD 1000
          Progression.knight_level5) Progression.SKILL_SWORD)
  < Progression.reqSkillTries Progression.knight_level5 Progression.SKILL_SWORD
      (Skill.level
         (Progression.skills
            (Progression.addSkillAdvance Progression.lonely_env
               Progression.SKILL_SWORD 1000 Progression.knight_level5)
            Progression.SKILL_SWORD) + 1)
  \/ (Skill.tries
        (Progression.skills
           (Progression.addSkillAdvance Progression.lonely_env
              Progression.SKILL_SWORD 1000 Progression.knight_level5)
           Progression.SKILL_SWORD) = 0
      /\ Progression.reqSkillTries Progression.knight_level5 Progression.SKILL_SWORD
           (Skill.level
              (Progression.skills
                 (Progression.addSkillAdvance Progression.lonely_env
                    Progression.SKILL_SWORD 1000 Progression.knight_level5)
                 Progression.SKILL_SWORD) + 1)
         <= Progression.reqSkillTries Progression.knight_level5
              Progression.SKILL_SWORD
              (Skill.level
                 (Progression.skills
                    (Progression.addSkillAdvance Progression.lonely_env
                       Progression.SKILL_SWORD 1000 Progression.knight_level5)
                    Progression.SKILL_SWORD))).
Proof.
  refine (proj1 (addSkillAdvance_settles Progression.lonely_env
                   Progression.SKILL_SWORD 1000 Progression.knight_level5 _ _));
    vm_compute; congruence.
Defined.

Lemma addSkillAdvance_accumulates_witness :
  Skill.level
    (Progression.skills
       (Progression.addSkillAdvance Progression.lonely_env Progression.SKILL_SWORD 100
          Progression.knight_level5) Progression.SKILL_SWORD) = 10
  /\ Skill.tries
       (Progression.skills
          (Progression.addSkillAdvance Progression.lonely_env Progression.SKILL_SWORD
             100 Progression.knight_level5) Progression.SKILL_SWORD) = 100.
Proof.
  refine (addSkillAdvance_accumulates Progression.lonely_env Progression.SKILL_SWORD
            100 Progression.knight_level5 _ _ _ _);
    vm_compute; congruence.
Defined.

Lemma addManaSpent_settles_witness :
  Progression.level
    (Progression.addManaSpent Progression.lonely_env 5000 Progression.knight_level5)
  = 5.
Proof.
  refine (proj1 (proj2 (proj2 (addManaSpent_settles Progression.lonely_env 5000
                                 Progression.knight_level5 _ _ _))));
    vm_compute; congruence.
Defined.

Lemma addManaSpent_accumulates_witness :
  Progression.magLevel
    (Progression.addManaSpent Progression.lonely_env 1000 Progression.knight_level5)
  = 0
  /\ Progression.manaSpent
       (Progression.addManaSpent Progression.lonely_env 1000 Progression.knight_level5)
     = 1000.
Proof.
  refine (addManaSpent_accumulates Progression.lonely_env 1000
            Progression.knight_level5 _ _ _ _ _);
    vm_compute; congruence.
Defined.

Lemma addExperience_settles_witness :
  Progression.experience
    (Progression.addExperience Progression.lonely_env 5000 true
       Progression.knight_level5) = 5800.
Proof.
  refine (proj1 (addExperience_settles Progression.lonely_env 5000 true
                   Progression.knight_level5 _ _));
    vm_compute; congruence.
Defined.

Lemma removeExperience_settles_witness :
  0 <= Progression.experience
         (Progression.removeExperience Progression.lonely_env 5000 true
            (Progression.knight 9 6500 Progression.SKULL_NONE [])).
Proof.
  refine (proj1 (removeExperience_settles Progression.lonely_env 5000 true
                   (Progression.knight 9 6500 Progression.SKULL_NONE []) _ _ _ _));
    vm_compute; try split; congruence.
Defined.

Lemma death_without_skillLoss_is_free_witness :
  Progression.experience
    (Progression.death Progression.lonely_env None ProgressionLoops.spared_knight)
  = 800.
Proof.
  refine (proj1 (proj2 (proj2 (death_without_skillLoss_is_free Progression.lonely_env
                                 None ProgressionLoops.spared_knight _))));
    vm_compute; congruence.
Defined.

Lemma death_ends_persistent_conditions_witness :
  Progression.conditions
    (Progression.death Progression.lonely_env None ProgressionLoops.cursed_knight)
  = [ {| Progression.conditionType := 2; Progression.isPersistent := false |} ].
Proof.
  refine (death_ends_persistent_conditions Progression.lonely_env None
            ProgressionLoops.cursed_knight _);
    vm_compute; congruence.
Defined.

Lemma unfairFightReduction_range_witness :
  20 <= Progression.death_unfairFightReduction Progression.triple_env
          (Some Progression.a_player) Progression.knight_level10_hit <= 100.
Proof.
  refine (proj1 (unfairFightReduction_range Progression.triple_env
                   (Some Progression.a_player) Progression.knight_level10_hit _));
    vm_compute; congruence.
Defined.

(** * Mounts *)

Lemma land_bit (k v : Z) :
  0 <= k -> (Z.land (Z.shiftl 1 k) v =? 0) = negb (Z.testbit v k).
Proof.
  intros Hk. rewrite Z.shiftl_1_l.
  destruct (Z.testbit v k) eqn:Hb; simpl.
  - apply Z.eqb_neq. intros H0.
    assert (Ht : Z.testbit (Z.land (2 ^ k) v) k = true).
    { rewrite Z.land_spec, Z.pow2_bits_true by exact Hk. exact Hb. }
    rewrite H0, Z.bits_0 in Ht. discriminate.
  - apply Z.eqb_eq. apply Z.bits_inj'. intros n Hn.
    rewrite Z.land_spec, Z.bits_0.
    destruct (Z.eq_dec n k) as [-> | Hne].
    + rewrite Hb. apply andb_false_r.
    + rewrite Z.pow2_bits_false by lia. reflexivity.
Qed.

Lemma lor_bit_nonneg (k v : Z) : 0 <= k -> 0 <= v -> 0 <= Z.lor v (Z.shiftl 1 k).
Proof.
  intros Hk Hv. apply Z.lor_nonneg. split; [exact Hv |].
  rewrite Z.shiftl_1_l. apply Z.pow_nonneg. lia.
Qed.

Lemma land_lnot_bit_not_sentinel (k v : Z) :
  0 <= k -> Z.land v (Z.lnot (Z.shiftl 1 k)) <> -1.
Proof.
  intros Hk H.
  assert (Ht : Z.testbit (Z.land v (Z.lnot (Z.shiftl 1 k))) k = true).
  { rewrite H. apply Z.bits_m1. exact Hk. }
  rewrite Z.land_spec, Z.lnot_spec, Z.shiftl_1_l, Z.pow2_bits_true in Ht by exact Hk.
  rewrite andb_false_r in Ht. discriminate.
Qed.

Lemma u32_add_inj (a x y : Z) :
  0 <= x < 2 ^ 32 -> 0 <= y < 2 ^ 32 -> u32 (a + x) = u32 (a + y) -> x = y.
Proof.
  intros Hx Hy H. unfold u32, wrap in H.
  assert (Hd : ((a + x) - (a + y)) mod 2 ^ 32 = 0).
  { rewrite Zminus_mod, H, Z.sub_diag. reflexivity. }
  replace (a + x - (a + y)) with (x - y) in Hd by lia.
  apply Z.mod_divide in Hd; [| lia].
  destruct Hd as [q Hq]. nia.
Qed.

Lemma u32_idem (z : Z) : u32 (u32 z) = u32 z.
Proof. unfold u32, wrap. apply Z.mod_mod. lia. Qed.

Section MountFacts.
Import Mounts.
Variable E : Env.

Lemma mountBit_range (mountId : Z) : 0 <= mountBit mountId < 31.
Proof. unfold mountBit. apply Z.mod_pos_bound. lia. Qed.

Lemma mountGroup_range (mountId : Z) : 0 <= u8 (mountId - 1) / 31 < 2 ^ 32.
Proof.
  pose proof (wrap_range 8 (mountId - 1) ltac:(lia)) as H. fold (u8 (mountId - 1)) in H.
  change (2 ^ 8) with 256 in H.
  split.
  - apply Z.div_pos; lia.
  - apply Z.div_lt_upper_bound; lia.
Qed.

(** The value [getStorageValue] finds after an [addStorageValue] under a
    key that reaches the map. *)
Lemma getStorageValue_addStorageValue (key value : Z) (p : Player) :
  Storage.reaches_map (ranges E) (u32 key) -> value <> -1 ->
  getStorageValue (addStorageValue E key value p) key = (true, value).
Proof.
  intros Hreach Hval. unfold getStorageValue, addStorageValue. cbn [storage set_storage].
  unfold Storage.getStorageValue.
  rewrite (addStorageValue_reaches_map (ranges E) (dispatcherCycle E) (u32 key) value
             false (storage p) Hreach).
  unfold Storage.store. apply Z.eqb_neq in Hval. rewrite Hval. cbn.
  rewrite lookup_insert_eq. reflexivity.
Qed.

Lemma getStorageValue_addStorageValue_other (key key' value : Z) (p : Player) :
  u32 key <> u32 key' ->
  getStorageValue (addStorageValue E key value p) key' = getStorageValue p key'.
Proof.
  intros Hne. unfold getStorageValue, addStorageValue. cbn [storage set_storage].
  unfold Storage.getStorageValue, Storage.addStorageValue, Storage.store.
  destruct (Storage.in_RESERVED_RANGE (ranges E) (u32 key));
    [destruct (Storage.in_OUTFITS_RANGE (ranges E) (u32 key));
     [| destruct (Storage.in_MOUNTS_RANGE (ranges E) (u32 key));
        [| destruct (Storage.in_FAMILIARS_RANGE (ranges E) (u32 key))]] |];
    try reflexivity.
  all: destruct (negb (value =? -1)); cbn;
    [rewrite lookup_insert_ne by exact Hne | rewrite lookup_delete_ne by exact Hne];
    reflexivity.
Qed.

Lemma lookup_addStorageValue (key value : Z) (p : Player) :
  u32 key = key ->
  Storage.reaches_map (ranges E) key -> value <> -1 ->
  Storage.storageMap (storage (addStorageValue E key value p)) !! key = Some value.
Proof.
  intros Hkey Hreach Hval. rewrite <- Hkey in Hreach.
  pose proof (getStorageValue_addStorageValue key value p Hreach Hval) as H.
  unfold getStorageValue, Storage.getStorageValue in H. rewrite Hkey in H.
  destruct (Storage.storageMap (storage (addStorageValue E key value p)) !! key);
    congruence.
Qed.

Lemma lookup_addStorageValue_other (key value key' : Z) (p : Player) :
  u32 key <> key' ->
  Storage.storageMap (storage (addStorageValue E key value p)) !! key'
  = Storage.storageMap (storage p) !! key'.
Proof.
  intros Hne. unfold addStorageValue. cbn [storage set_storage].
  unfold Storage.addStorageValue, Storage.store.
  destruct (Storage.in_RESERVED_RANGE (ranges E) (u32 key));
    [destruct (Storage.in_OUTFITS_RANGE (ranges E) (u32 key));
     [| destruct (Storage.in_MOUNTS_RANGE (ranges E) (u32 key));
        [| destruct (Storage.in_FAMILIARS_RANGE (ranges E) (u32 key))]] |];
    try reflexivity.
  all: destruct (negb (value =? -1)); cbn;
    [rewrite lookup_insert_ne by exact Hne | rewrite lookup_delete_ne by exact Hne];
    reflexivity.
Qed.

(** A key that does not reach the map leaves the map alone. *)
Lemma storageMap_addStorageValue_refused (key value : Z) (p : Player) :
  ~ Storage.reaches_map (ranges E) (u32 key) ->
  Storage.storageMap (storage (addStorageValue E key value p))
  = Storage.storageMap (storage p).
Proof.
  intros Hno. unfold addStorageValue. cbn [storage set_storage].
  unfold Storage.addStorageValue. unfold Storage.reaches_map in Hno.
  destruct (Storage.in_RESERVED_RANGE (ranges E) (u32 key)); [| tauto].
  destruct (Storage.in_OUTFITS_RANGE (ranges E) (u32 key)); [reflexivity |].
  destruct (Storage.in_MOUNTS_RANGE (ranges E) (u32 key)); [tauto |].
  destruct (Storage.in_FAMILIARS_RANGE (ranges E) (u32 key)); reflexivity.
Qed.

Lemma reaches_map_dec (key : Z) :
  Storage.reaches_map (ranges E) key \/ ~ Storage.reaches_map (ranges E) key.
Proof.
  unfold Storage.reaches_map.
  destruct (Storage.in_RESERVED_RANGE (ranges E) key); [| auto].
  destruct (Storage.in_OUTFITS_RANGE (ranges E) key);
    destruct (Storage.in_MOUNTS_RANGE (ranges E) key); intuition congruence.
Qed.

(** [hasMount] reads one bit of one stored value. *)
Lemma hasMount_bit (p : Player) (mount : Mount) :
  hasMount E p mount
  = if isAccessPlayer p then true
    else if premium mount && negb (isPremium E p) then false
    else match Storage.storageMap (storage p) !! mountKey E (id mount) with
         | Some v => Z.testbit v (mountBit (id mount))
         | None => false
         end.
Proof.
  unfold hasMount, getStorageValue, Storage.getStorageValue, mountKey, mountBit.
  destruct (isAccessPlayer p); [reflexivity |].
  destruct (premium mount && negb (isPremium E p)); [reflexivity |].
  destruct (Storage.storageMap (storage p) !! _) as [v |]; [| reflexivity].
  cbn [negb]. rewrite land_bit by (apply Z.mod_pos_bound; lia).
  apply negb_involutive.
Qed.

Lemma mountKey_u32 (mountId : Z) : u32 (mountKey E mountId) = mountKey E mountId.
Proof. unfold mountKey. apply u32_idem. Qed.

(** Mount ids of different groups have different keys; mount ids of one
    group have different bits. *)
Lemma mountKey_mountBit (a b : Z) :
  u8 (a - 1) <> u8 (b - 1) ->
  mountKey E a <> mountKey E b \/ (mountKey E a = mountKey E b /\ mountBit a <> mountBit b).
Proof.
  intros Hne. unfold mountKey, mountBit.
  destruct (Z.eq_dec (u8 (a - 1) / 31) (u8 (b - 1) / 31)) as [Hq | Hq].
  - right. split; [rewrite Hq; reflexivity |].
    intros Hr. apply Hne.
    rewrite (Z.div_mod (u8 (a - 1)) 31), (Z.div_mod (u8 (b - 1)) 31) by lia.
    rewrite Hq, Hr. reflexivity.
  - left. intros Hk. apply Hq.
    apply (u32_add_inj (PSTRG_MOUNTS_RANGE_START E)); [apply mountGroup_range .. |].
    exact Hk.
Qed.

(** Having a mount after a value was stored for its group. *)
Lemma hasMount_stored (value : Z) (p : Player) (mount : Mount) :
  Storage.reaches_map (ranges E) (mountKey E (id mount)) -> value <> -1 ->
  hasMount E (addStorageValue E (mountKey E (id mount)) value p) mount
  = if isAccessPlayer p then true
    else if premium mount && negb (isPremium E p) then false
    else Z.testbit value (mountBit (id mount)).
Proof.
  intros Hreach Hval. rewrite hasMount_bit.
  change (isAccessPlayer (addStorageValue E (mountKey E (id mount)) value p))
    with (isAccessPlayer p).
  change (isPremium E (addStorageValue E (mountKey E (id mount)) value p))
    with (isPremium E p).
  rewrite lookup_addStorageValue;
    [reflexivity | apply mountKey_u32 | exact Hreach | exact Hval].
Qed.

(** X11 ([tameMount], [hasMount]): after taming an existing mount the
    player has it, provided the key of its group reaches the storage map,
    the value stored for the group is not negative, and the account may
    ride the mount. *)
Theorem tameMount_hasMount (mountId : Z) (mount : Mount) (p : Player) :
  0 <= mountId < 256 ->
  getMountByID E mountId <> None ->
  id mount = mountId ->
  Storage.reaches_map (ranges E) (mountKey E mountId) ->
  group_clean E p mountId ->
  (premium mount = true -> isPremium E p = true) ->
  snd (tameMount E mountId p) = true
  /\ hasMount E (fst (tameMount E mountId p)) mount = true.
Proof.
  intros _ Hexists Hid Hreach Hclean Hprem. subst mountId. unfold tameMount.
  destruct (getMountByID E (id mount)) as [m |]; [clear Hexists | congruence].
  fold (mountKey E (id mount)). fold (mountBit (id mount)).
  pose proof (mountBit_range (id mount)) as Hbit.
  unfold getStorageValue. rewrite mountKey_u32. unfold Storage.getStorageValue.
  unfold group_clean in Hclean.
  assert (Hp : premium mount && negb (isPremium E p) = false).
  { destruct (premium mount); [rewrite (Hprem eq_refl) |]; reflexivity. }
  destruct (Storage.storageMap (storage p) !! mountKey E (id mount)) as [v |] eqn:Hv;
    cbn [fst snd]; (split; [reflexivity |]).
  - pose proof (lor_bit_nonneg (mountBit (id mount)) v ltac:(lia) (Hclean v eq_refl)).
    rewrite hasMount_stored by (assumption || lia).
    rewrite Hp. destruct (isAccessPlayer p); [reflexivity |].
    rewrite Z.lor_spec, Z.shiftl_1_l, Z.pow2_bits_true by lia. apply orb_true_r.
  - assert (0 <= Z.shiftl 1 (mountBit (id mount)))
      by (rewrite Z.shiftl_1_l; apply Z.pow_nonneg; lia).
    rewrite hasMount_stored by (assumption || lia).
    rewrite Hp. destruct (isAccessPlayer p); [reflexivity |].
    rewrite Z.shiftl_1_l. apply Z.pow2_bits_true. lia.
Qed.

(** The account data and the stored values that [untameMount] leaves. *)
(** [dismount] touches the outfit and the speed only. *)
Lemma dismount_keeps (p : Player) :
  storage (dismount E p) = storage p /\ access (dismount E p) = access p
  /\ groupFlags (dismount E p) = groupFlags p
  /\ premiumDays (dismount E p) = premiumDays p.
Proof.
  unfold dismount. destruct (getMountByID E (getCurrentMount E p)) as [m |];
    [destruct (speed m >? 0) |]; repeat split.
Qed.

Lemma untameMount_account (mountId : Z) (p : Player) :
  access (fst (untameMount E mountId p)) = access p
  /\ groupFlags (fst (untameMount E mountId p)) = groupFlags p
  /\ premiumDays (fst (untameMount E mountId p)) = premiumDays p.
Proof.
  unfold untameMount.
  destruct (getMountByID E mountId); [| repeat split].
  destruct (getStorageValue p _) as [[|] value]; cbn [negb fst]; [| repeat split].
  destruct (getCurrentMount E _ =? mountId); [| repeat split].
  destruct (isMounted E _); [| repeat split].
  match goal with
  | |- context [dismount E ?q] =>
    destruct (dismount_keeps q) as (_ & Ha & Hg & Hd)
  end.
  repeat split;
    (etransitivity; [| first [exact Ha | exact Hg | exact Hd]]); reflexivity.
Qed.

(** X12 ([untameMount], [hasMount]): after untaming an existing mount a
    player without access rights no longer has it, also when the reset of
    the current mount writes to the same key. *)
Theorem untameMount_hasMount (mountId : Z) (mount : Mount) (p : Player) :
  0 <= mountId < 256 ->
  getMountByID E mountId <> None ->
  id mount = mountId ->
  Storage.reaches_map (ranges E) (mountKey E mountId) ->
  isAccessPlayer p = false ->
  snd (untameMount E mountId p) = true
  /\ hasMount E (fst (untameMount E mountId p)) mount = false.
Proof.
  intros _ Hexists Hid Hreach Haccess. subst mountId.
  pose proof (untameMount_account (id mount) p) as (Ha & Hg & Hd).
  rewrite hasMount_bit. unfold isAccessPlayer in *. rewrite Ha, Haccess.
  unfold isPremium, hasFlag. rewrite Hg, Hd. fold (hasFlag p). fold (isPremium E p).
  clear Ha Hg Hd.
  unfold untameMount.
  destruct (getMountByID E (id mount)) as [m |]; [clear Hexists | congruence].
  fold (mountKey E (id mount)). fold (mountBit (id mount)).
  pose proof (mountBit_range (id mount)) as Hbit.
  unfold getStorageValue. rewrite mountKey_u32. unfold Storage.getStorageValue.
  destruct (Storage.storageMap (storage p) !! mountKey E (id mount)) as [v |] eqn:Hv;
    cbn [negb fst snd].
  2:{ split; [reflexivity |]. rewrite Hv. destruct (premium mount && _); reflexivity. }
  set (value := Z.land v (Z.lnot (Z.shiftl 1 (mountBit (id mount))))).
  assert (Hval : value <> -1) by (apply land_lnot_bit_not_sentinel; lia).
  assert (Hoff : Z.testbit value (mountBit (id mount)) = false).
  { subst value.
    rewrite Z.land_spec, Z.lnot_spec, Z.shiftl_1_l, Z.pow2_bits_true by lia.
    apply andb_false_r. }
  set (p1 := addStorageValue E (mountKey E (id mount)) value p).
  assert (H1 : Storage.storageMap (storage p1) !! mountKey E (id mount) = Some value).
  { subst p1.
    apply lookup_addStorageValue; [apply mountKey_u32 | exact Hreach | exact Hval]. }
  split; [reflexivity |].
  match goal with
  | |- (if ?c then false else _) = false => destruct c; [reflexivity |]
  end.
  destruct (getCurrentMount E p1 =? id mount).
  - set (p2 := if isMounted E p1 then _ else p1).
    assert (H2 : storage p2 = storage p1).
    { subst p2. destruct (isMounted E p1); [| reflexivity].
      unfold emit. cbn [storage]. apply dismount_keeps. }
    unfold setCurrentMount.
    destruct (Z.eq_dec (u32 (PSTRG_MOUNTS_CURRENTMOUNT E)) (mountKey E (id mount)))
      as [Hsame | Hother].
    + assert (H0 : Storage.storageMap
                     (storage (addStorageValue E (PSTRG_MOUNTS_CURRENTMOUNT E) 0 p2))
                   !! mountKey E (id mount) = Some 0).
      { rewrite <- Hsame.
        pose proof (getStorageValue_addStorageValue (PSTRG_MOUNTS_CURRENTMOUNT E) 0 p2)
          as H.
        rewrite Hsame in H. specialize (H Hreach ltac:(lia)).
        unfold getStorageValue, Storage.getStorageValue in H.
        destruct (Storage.storageMap _ !! u32 (PSTRG_MOUNTS_CURRENTMOUNT E));
          congruence. }
      rewrite H0. apply Z.bits_0.
    + rewrite lookup_addStorageValue_other by exact Hother.
      rewrite H2, H1. exact Hoff.
  - rewrite H1. exact Hoff.
Qed.

Lemma hasMount_same_bit (p q : Player) (mount : Mount) :
  access q = access p -> groupFlags q = groupFlags p ->
  premiumDays q = premiumDays p ->
  stored_bit E q mount = stored_bit E p mount ->
  hasMount E q mount = hasMount E p mount.
Proof.
  intros Ha Hg Hd Hm. rewrite !hasMount_bit. fold (stored_bit E q mount).
  fold (stored_bit E p mount).
  unfold isAccessPlayer, isPremium, hasFlag. rewrite Ha, Hg, Hd, Hm. reflexivity.
Qed.

(** X13 ([tameMount], [hasMount]): taming one mount neither gives nor
    takes any other mount, in the same group of 31 or in another one. *)
Theorem tameMount_keeps_other (mountId : Z) (mount : Mount) (p : Player) :
  0 <= mountId < 256 ->
  u8 (id mount - 1) <> u8 (mountId - 1) ->
  group_clean E p mountId ->
  hasMount E (fst (tameMount E mountId p)) mount = hasMount E p mount.
Proof.
  intros _ Hne Hclean. unfold tameMount.
  destruct (getMountByID E mountId) as [m |]; [| reflexivity].
  fold (mountKey E mountId). fold (mountBit mountId).
  pose proof (mountBit_range mountId) as Hbit.
  pose proof (mountBit_range (id mount)) as Hbit'.
  unfold getStorageValue. rewrite mountKey_u32. unfold Storage.getStorageValue.
  unfold group_clean in Hclean.
  set (value := match Storage.storageMap (storage p) !! mountKey E mountId with
                | Some v => Z.lor v (Z.shiftl 1 (mountBit mountId))
                | None => Z.shiftl 1 (mountBit mountId)
                end).
  assert (Hstep : fst (let '(found, v) :=
                         match Storage.storageMap (storage p) !! mountKey E mountId with
                         | Some v => (true, v) | None => (false, -1) end in
                       (addStorageValue E (mountKey E mountId)
                          (if found then Z.lor v (Z.shiftl 1 (mountBit mountId))
                           else Z.shiftl 1 (mountBit mountId)) p, true))
                  = addStorageValue E (mountKey E mountId) value p).
  { subst value. destruct (Storage.storageMap (storage p) !! mountKey E mountId);
      reflexivity. }
  rewrite Hstep. clear Hstep.
  apply hasMount_same_bit; try reflexivity. unfold stored_bit.
  destruct (mountKey_mountBit (id mount) mountId Hne) as [Hkey | [Hkey Hb]].
  { rewrite lookup_addStorageValue_other; [reflexivity |].
    rewrite mountKey_u32. congruence. }
  destruct (reaches_map_dec (mountKey E mountId)) as [Hreach | Hrefused].
  2:{ rewrite storageMap_addStorageValue_refused; [reflexivity |].
      rewrite mountKey_u32. exact Hrefused. }
  rewrite Hkey.
  assert (Hval : 0 <= value).
  { subst value. destruct (Storage.storageMap (storage p) !! mountKey E mountId) as [v |].
    - apply lor_bit_nonneg; [lia | apply Hclean; reflexivity].
    - rewrite Z.shiftl_1_l. apply Z.pow_nonneg. lia. }
  rewrite lookup_addStorageValue; [| apply mountKey_u32 | exact Hreach | lia].
  subst value.
  destruct (Storage.storageMap (storage p) !! mountKey E mountId) as [v |].
  - rewrite Z.lor_spec, Z.shiftl_1_l, Z.pow2_bits_false by lia. apply orb_false_r.
  - rewrite Z.shiftl_1_l. apply Z.pow2_bits_false. lia.
Qed.

(** X14 ([untameMount], [hasMount]): untaming one mount neither gives
    nor takes any other mount, as long as the key of the current mount is
    not the key of that mount's group. *)
Theorem untameMount_keeps_other (mountId : Z) (mount : Mount) (p : Player) :
  0 <= mountId < 256 ->
  u8 (id mount - 1) <> u8 (mountId - 1) ->
  u32 (PSTRG_MOUNTS_CURRENTMOUNT E) <> mountKey E (id mount) ->
  hasMount E (fst (untameMount E mountId p)) mount = hasMount E p mount.
Proof.
  intros _ Hne Hcurrent.
  pose proof (untameMount_account mountId p) as (Ha & Hg & Hd).
  apply hasMount_same_bit; try assumption. clear Ha Hg Hd.
  unfold stored_bit, untameMount.
  destruct (getMountByID E mountId) as [m |]; [| reflexivity].
  fold (mountKey E mountId). fold (mountBit mountId).
  pose proof (mountBit_range mountId) as Hbit.
  pose proof (mountBit_range (id mount)) as Hbit'.
  unfold getStorageValue. rewrite mountKey_u32. unfold Storage.getStorageValue.
  destruct (Storage.storageMap (storage p) !! mountKey E mountId) as [v |] eqn:Hv;
    cbn [negb fst snd]; [| reflexivity].
  set (value := Z.land v (Z.lnot (Z.shiftl 1 (mountBit mountId)))).
  assert (Hval : value <> -1) by (apply land_lnot_bit_not_sentinel; lia).
  set (p1 := addStorageValue E (mountKey E mountId) value p).
  assert (H1 : match Storage.storageMap (storage p1) !! mountKey E (id mount) with
               | Some v => Z.testbit v (mountBit (id mount))
               | None => false
               end
               = match Storage.storageMap (storage p) !! mountKey E (id mount) with
                 | Some v => Z.testbit v (mountBit (id mount))
                 | None => false
                 end).
  { subst p1.
    destruct (mountKey_mountBit (id mount) mountId Hne) as [Hkey | [Hkey Hb]].
    { rewrite lookup_addStorageValue_other; [reflexivity |].
      rewrite mountKey_u32. congruence. }
    destruct (reaches_map_dec (mountKey E mountId)) as [Hreach | Hrefused].
    2:{ rewrite storageMap_addStorageValue_refused; [reflexivity |].
        rewrite mountKey_u32. exact Hrefused. }
    rewrite Hkey.
    rewrite lookup_addStorageValue; [| apply mountKey_u32 | exact Hreach | exact Hval].
    rewrite Hv. subst value.
    rewrite Z.land_spec, Z.lnot_spec, Z.shiftl_1_l, Z.pow2_bits_false by lia.
    apply andb_true_r. }
  destruct (getCurrentMount E p1 =? mountId); [| exact H1].
  set (p2 := if isMounted E p1 then _ else p1).
  assert (H2 : storage p2 = storage p1).
  { subst p2. destruct (isMounted E p1); [| reflexivity].
    unfold emit. cbn [storage]. apply dismount_keeps. }
  unfold setCurrentMount.
  rewrite lookup_addStorageValue_other by exact Hcurrent.
  rewrite H2. exact H1.
Qed.
End MountFacts.

Lemma tameMount_hasMount_witness :
  Mounts.hasMount Mounts.upstream_env
    (fst (Mounts.tameMount Mounts.upstream_env 5 Mounts.rider)) (Mounts.mount_of 5)
  = true.
Proof.
  refine (proj2 (tameMount_hasMount Mounts.upstream_env 5 (Mounts.mount_of 5)
                   Mounts.rider _ _ _ _ _ _)).
  - lia.
  - vm_compute. discriminate.
  - reflexivity.
  - right. split; reflexivity.
  - intros v Hv. vm_compute in Hv. discriminate.
  - intros Hp. vm_compute in Hp. discriminate.
Defined.

Lemma untameMount_hasMount_witness :
  Mounts.hasMount Mounts.upstream_env
    (fst (Mounts.untameMount Mounts.upstream_env 5
            (fst (Mounts.tameMount Mounts.upstream_env 5 Mounts.rider))))
    (Mounts.mount_of 5)
  = false.
Proof.
  refine (proj2 (untameMount_hasMount Mounts.upstream_env 5 (Mounts.mount_of 5)
                   (fst (Mounts.tameMount Mounts.upstream_env 5 Mounts.rider))
                   _ _ _ _ _)).
  - lia.
  - vm_compute. discriminate.
  - reflexivity.
  - right. split; reflexivity.
  - reflexivity.
Defined.

Lemma tameMount_keeps_other_witness :
  Mounts.hasMount Mounts.upstream_env
    (fst (Mounts.tameMount Mounts.upstream_env 5
            (fst (Mounts.tameMount Mounts.upstream_env 7 Mounts.rider))))
    (Mounts.mount_of 7)
  = Mounts.hasMount Mounts.upstream_env
      (fst (Mounts.tameMount Mounts.upstream_env 7 Mounts.rider)) (Mounts.mount_of 7).
Proof.
  refine (tameMount_keeps_other Mounts.upstream_env 5 (Mounts.mount_of 7)
            (fst (Mounts.tameMount Mounts.upstream_env 7 Mounts.rider)) _ _ _).
  - lia.
  - vm_compute. discriminate.
  - intros v Hv. vm_compute in Hv. injection Hv as <-. lia.
Defined.

Lemma untameMount_keeps_other_witness :
  Mounts.hasMount Mounts.upstream_env
    (fst (Mounts.untameMount Mounts.upstream_env 5
            (fst (Mounts.tameMount Mounts.upstream_env 7 Mounts.rider))))
    (Mounts.mount_of 7)
  = Mounts.hasMount Mounts.upstream_env
      (fst (Mounts.tameMount Mounts.upstream_env 7 Mounts.rider)) (Mounts.mount_of 7).
Proof.
  refine (untameMount_keeps_other Mounts.upstream_env 5 (Mounts.mount_of 7)
            (fst (Mounts.tameMount Mounts.upstream_env 7 Mounts.rider)) _ _ _).
  - lia.
  - vm_compute. discriminate.
  - vm_compute. discriminate.
Defined.

(** * Open containers *)

Section ContainerFacts.
Import Containers.
Variable E : Env.

Lemma openContainers_addContainer (cid container : Z) (p : Player) :
  cid <= 15 -> container <> 0 ->
  openContainers (addContainer E cid container p)
  = <[cid := {| Containers.container := container; index := 0 |}]> (openContainers p).
Proof.
  intros Hcid Hc. unfold addContainer.
  destruct (Z.gtb_spec cid 15) as [Hgt | _]; [lia |].
  apply Z.eqb_neq in Hc. rewrite Hc.
  destruct (getID E container =? ITEM_BROWSEFIELD E); cbn [openContainers emit];
    destruct (openContainers p !! cid) as [old |]; try reflexivity;
    destruct (getID E (Containers.container old) =? ITEM_BROWSEFIELD E); reflexivity.
Qed.

Lemma openContainers_closeContainer (cid : Z) (p : Player) :
  openContainers (closeContainer E cid p) = delete cid (openContainers p).
Proof.
  unfold closeContainer. destruct (openContainers p !! cid) as [old |] eqn:Hold.
  - destruct (negb _ && _); reflexivity.
  - symmetry. apply delete_id. exact Hold.
Qed.

(** X15 ([addContainer], [getContainerByID], [getContainerIndex]): a
    container opened under a cid from 0 to 15 is the one found under that
    cid, at index 0, whatever was open there before; every other cid keeps
    its container and its index. *)
Theorem addContainer_getContainerByID (cid container : Z) (p : Player) :
  0 <= cid <= 15 -> container <> 0 ->
  getContainerByID cid (addContainer E cid container p) = container
  /\ getContainerIndex cid (addContainer E cid container p) = 0
  /\ (forall other, other <> cid ->
        getContainerByID other (addContainer E cid container p)
        = getContainerByID other p
        /\ getContainerIndex other (addContainer E cid container p)
           = getContainerIndex other p).
Proof.
  intros Hcid Hc. unfold getContainerByID, getContainerIndex.
  rewrite openContainers_addContainer by lia.
  rewrite lookup_insert_eq. repeat split; rewrite lookup_insert_ne by congruence;
    reflexivity.
Qed.

Lemma call_well_kept (c : ContainerCall) (p : Player) :
  byte_cid c -> well_kept p -> well_kept (call E c p).
Proof.
  intros Hbyte Hp. destruct c as [cid container | cid | cid idx]; cbn [call byte_cid] in *.
  - destruct (Z.gtb_spec cid 15) as [Hgt | Hle].
    { unfold addContainer. apply Z.gtb_lt in Hgt. rewrite Hgt. exact Hp. }
    destruct (Z.eq_dec container 0) as [-> | Hc].
    { unfold addContainer. destruct (cid >? 15); exact Hp. }
    intros k oc. rewrite openContainers_addContainer by assumption.
    destruct (Z.eq_dec k cid) as [-> | Hne].
    + rewrite lookup_insert_eq. intros [= <-]. cbn. split; [lia | exact Hc].
    + rewrite lookup_insert_ne by congruence. apply Hp.
  - intros k oc. rewrite openContainers_closeContainer.
    intros Hk. apply lookup_delete_Some in Hk. apply Hp. apply Hk.
  - unfold setContainerIndex.
    destruct (openContainers p !! cid) as [old |] eqn:Hold; [| exact Hp].
    intros k oc. cbn [openContainers set_openContainers].
    destruct (Z.eq_dec k cid) as [-> | Hne].
    + rewrite lookup_insert_eq. intros [= <-]. cbn. apply (Hp cid old Hold).
    + rewrite lookup_insert_ne by congruence. apply Hp.
Qed.

Lemma run_well_kept (cs : list ContainerCall) :
  forall p, Forall byte_cid cs -> well_kept p -> well_kept (run E cs p).
Proof.
  induction cs as [| c cs IH]; intros p Hbytes Hp; [exact Hp |].
  inversion Hbytes as [| ? ? Hc Hcs]; subst.
  cbn [run fold_left]. apply IH; [exact Hcs |]. apply call_well_kept; assumption.
Qed.

Lemma well_kept_size (p : Player) :
  well_kept p -> (size (openContainers p) <= 16)%nat.
Proof.
  intros Hp. rewrite <- size_dom.
  assert (Hsub : dom (openContainers p) ⊆ (list_to_set (seqZ 0 16) : gset Z)).
  { intros k Hk. apply elem_of_dom in Hk as [oc Hoc].
    apply elem_of_list_to_set, elem_of_seqZ. pose proof (Hp k oc Hoc). lia. }
  apply subseteq_size in Hsub.
  rewrite size_list_to_set in Hsub by apply NoDup_seqZ.
  rewrite length_seqZ in Hsub. exact Hsub.
Qed.

(** X16 ([addContainer], [closeContainer], [setContainerIndex]): however
    the three are called, starting with nothing open, at most sixteen
    containers are open and no cid above 15 holds one. *)
Theorem openContainers_bounded (cs : list ContainerCall) :
  Forall byte_cid cs ->
  (size (openContainers (run E cs nobody)) <= 16)%nat
  /\ forall cid, 15 < cid -> getContainerByID cid (run E cs nobody) = 0.
Proof.
  intros Hbytes.
  assert (Hkept : well_kept (run E cs nobody)).
  { apply run_well_kept; [exact Hbytes |]. intros k oc Hk.
    cbn in Hk. rewrite lookup_empty in Hk. discriminate. }
  split; [apply well_kept_size; exact Hkept |].
  intros cid Hcid. unfold getContainerByID.
  destruct (openContainers (run E cs nobody) !! cid) as [oc |] eqn:Hoc; [| reflexivity].
  pose proof (Hkept cid oc Hoc). lia.
Qed.

(** The first hit of [find] on an ascending run of numbers. *)
Lemma find_seqZ_first (f : Z -> bool) (n : nat) :
  forall a x,
    List.find f (seqZ a (Z.of_nat n)) = Some x ->
    a <= x < a + Z.of_nat n /\ f x = true /\ forall y, a <= y < x -> f y = false.
Proof.
  induction n as [| n IH]; intros a x Hfind.
  - discriminate.
  - rewrite seqZ_cons in Hfind by lia. cbn [List.find] in Hfind.
    destruct (f a) eqn:Hfa.
    + injection Hfind as <-. repeat split; try lia. exact Hfa.
    + replace (Z.pred (Z.of_nat (S n))) with (Z.of_nat n) in Hfind by lia.
      destruct (IH (Z.succ a) x Hfind) as (Hr & Hx & Hfirst).
      repeat split; try lia; [exact Hx |].
      intros y Hy. destruct (Z.eq_dec y a) as [-> | Hne]; [exact Hfa |].
      apply Hfirst. lia.
Qed.

(** X17 ([getContainerID]): for a container that is not null the answer
    is -1 exactly when no cid holds it, and otherwise the smallest cid that
    holds it, as [getContainerByID] confirms. *)
Theorem getContainerID_finds (container : Z) (p : Player) :
  well_kept p -> container <> 0 ->
  (getContainerID container p = -1
   /\ forall cid, getContainerByID cid p <> container)
  \/ (0 <= getContainerID container p <= 15
      /\ getContainerByID (getContainerID container p) p = container
      /\ forall cid, cid < getContainerID container p ->
           getContainerByID cid p <> container).
Proof.
  intros Hp Hc. unfold getContainerID.
  set (f := fun cid => match openContainers p !! cid with
                       | Some openContainer =>
                         Containers.container openContainer =? container
                       | None => false
                       end).
  assert (Hf : forall cid, f cid = false -> getContainerByID cid p <> container).
  { intros cid Hcid. unfold getContainerByID. subst f. cbn beta in Hcid.
    destruct (openContainers p !! cid) as [oc |]; [| congruence].
    apply Z.eqb_neq. exact Hcid. }
  destruct (List.find f (seqZ 0 256)) as [cid |] eqn:Hfind.
  - right. change 256 with (Z.of_nat 256) in Hfind.
    destruct (find_seqZ_first f 256 0 cid Hfind) as (Hr & Hx & Hfirst).
    assert (Hcid : 0 <= cid <= 15).
    { subst f. cbn beta in Hx.
      destruct (openContainers p !! cid) as [oc |] eqn:Hoc; [| discriminate].
      apply (Hp cid oc Hoc). }
    assert (Hs : swrap 8 cid = cid) by (apply swrap_small; cbn; lia).
    rewrite Hs. split; [exact Hcid |]. split.
    + unfold getContainerByID. subst f. cbn beta in Hx.
      destruct (openContainers p !! cid) as [oc |]; [| discriminate].
      apply Z.eqb_eq. exact Hx.
    + intros y Hy. destruct (Z.le_gt_cases 0 y) as [Hy0 | Hneg].
      * apply Hf. apply Hfirst. lia.
      * unfold getContainerByID.
        destruct (openContainers p !! y) as [oc |] eqn:Hoc; [| congruence].
        pose proof (Hp y oc Hoc). lia.
  - left. split; [reflexivity |]. intros cid.
    unfold getContainerByID.
    destruct (openContainers p !! cid) as [oc |] eqn:Hoc; [| congruence].
    pose proof (Hp cid oc Hoc) as [Hr _].
    assert (Hin : In cid (seqZ 0 256)).
    { apply list_elem_of_In, elem_of_seqZ. lia. }
    pose proof (List.find_none f _ Hfind cid Hin) as Hno.
    subst f. cbn beta in Hno. rewrite Hoc in Hno. apply Z.eqb_neq. exact Hno.
Qed.






End ContainerFacts.

Lemma addContainer_getContainerByID_witness :
  Containers.getContainerByID 3
    (Containers.addContainer Containers.example_env 3 2000 Containers.nobody) = 2000.
Proof.
  refine (proj1 (addContainer_getContainerByID Containers.example_env 3 2000
                   Containers.nobody _ _)); lia.
Defined.

Lemma openContainers_bounded_witness :
  (size (Containers.openContainers
           (Containers.run Containers.example_env
              [Containers.CallAddContainer 0 2000; Containers.CallAddContainer 16 2001;
               Containers.CallCloseContainer 0]
              Containers.nobody)) <= 16)%nat.
Proof.
  refine (proj1 (openContainers_bounded Containers.example_env
                   [Containers.CallAddContainer 0 2000;
                    Containers.CallAddContainer 16 2001;
                    Containers.CallCloseContainer 0] _)).
  repeat constructor; cbn; lia.
Defined.

(** The bag that is open under the cids 3 and 5 is found under 3, the
    smaller one, past the other bag under cid 1. *)
Lemma getContainerID_finds_witness :
  Containers.getContainerID 2000 Containers.two_windows = 3
  /\ Containers.getContainerByID 1 Containers.two_windows = 2001
  /\ Containers.getContainerByID 5 Containers.two_windows = 2000
  /\ 0 <= Containers.getContainerID 2000 Containers.two_windows <= 15
  /\ Containers.getContainerByID
       (Containers.getContainerID 2000 Containers.two_windows) Containers.two_windows
     = 2000
  /\ forall cid,
       cid < Containers.getContainerID 2000 Containers.two_windows ->
       Containers.getContainerByID cid Containers.two_windows <> 2000.
Proof.
  split; [vm_compute; reflexivity |].
  split; [vm_compute; reflexivity |].
  split; [vm_compute; reflexivity |].
  destruct (getContainerID_finds 2000 Containers.two_windows) as [[Hnone _] | Hfound].
  - apply run_well_kept.
    + repeat constructor; cbn; lia.
    + intros cid oc Hoc. cbn in Hoc. rewrite lookup_empty in Hoc. discriminate.
  - lia.
  - vm_compute in Hnone. discriminate.
  - exact Hfound.
Defined.


(** * Storage, VIP list and skulls: further properties *)

Section StorageBehaviour.
Import Storage.
Variable R : KeyRanges.
Variable dispatcherCycle : Z.

(** X19 ([addStorageValue], [getStorageValue]): a write or an erase
    under one key, reserved or not, leaves what [getStorageValue] finds
    under every other key as it was. *)
Theorem addStorageValue_other_key (key other value : Z) (isLogin : bool) (p : Player) :
  other <> key ->
  getStorageValue (addStorageValue R dispatcherCycle key value isLogin p) other
  = getStorageValue p other.
Proof.
  intros Hne. unfold getStorageValue, addStorageValue, store.
  destruct (in_RESERVED_RANGE R key);
    [destruct (in_OUTFITS_RANGE R key);
     [| destruct (in_MOUNTS_RANGE R key); [| destruct (in_FAMILIARS_RANGE R key)]] |];
    try reflexivity.
  all: destruct (negb (value =? -1)); cbn [storageMap];
    [rewrite lookup_insert_ne by congruence | rewrite lookup_delete_ne by congruence];
    reflexivity.
Qed.

(** X20 ([addStorageValue]): of two calls with the same key the second
    decides what the storage map holds: the map is the one the second call
    alone would have left, whether the calls write, erase or are turned
    away as reserved. *)
Theorem addStorageValue_last_write_wins (key first second : Z) (isLogin isLogin' : bool)
    (p : Player) :
  storageMap (addStorageValue R dispatcherCycle key second isLogin'
                (addStorageValue R dispatcherCycle key first isLogin p))
  = storageMap (addStorageValue R dispatcherCycle key second isLogin' p).
Proof.
  unfold addStorageValue, store.
  destruct (in_RESERVED_RANGE R key);
    [destruct (in_OUTFITS_RANGE R key);
     [| destruct (in_MOUNTS_RANGE R key); [| destruct (in_FAMILIARS_RANGE R key)]] |];
    try reflexivity.
  all: destruct (negb (first =? -1)); destruct (negb (second =? -1));
    cbn [storageMap].
  all: apply map_eq; intros k; destruct (decide (k = key)) as [-> | Hne];
    rewrite ?lookup_insert_eq, ?lookup_delete_eq; try reflexivity;
    rewrite ?lookup_insert_ne, ?lookup_delete_ne by congruence;
    rewrite ?lookup_insert_ne, ?lookup_delete_ne by congruence; reflexivity.
Qed.
End StorageBehaviour.

Section VipBehaviour.
Import Vip.
Variable FREE_PREMIUM : bool.

Lemma added_differs (g : Z) (L : gset Z) : g ∉ L -> {[g]} ∪ L <> L.
Proof.
  intros Hout Heq. apply Hout. rewrite <- Heq.
  apply elem_of_union_l, elem_of_singleton. reflexivity.
Qed.

Lemma removed_differs (g : Z) (L : gset Z) : g ∈ L -> L ∖ {[g]} <> L.
Proof.
  intros Hin Heq. rewrite <- Heq in Hin.
  apply elem_of_difference in Hin as [_ Hn]. apply Hn, elem_of_singleton.
  reflexivity.
Qed.

Lemma added_removed (g : Z) (L : gset Z) : g ∉ L -> ({[g]} ∪ L) ∖ {[g]} = L.
Proof.
  intros Hout. apply set_eq. intros x.
  rewrite elem_of_difference, elem_of_union, elem_of_singleton.
  split.
  - intros [[Hx | Hx] Hn]; [contradiction | exact Hx].
  - intros Hx. split; [right; exact Hx |]. intros ->. contradiction.
Qed.

(** X21 ([addVIP], [addVIPInternal], [removeVIP]): each of the three
    answers true exactly when it has changed the VIP list. *)
Theorem call_reports_change (c : VipCall) (p : Player) :
  snd (call FREE_PREMIUM c p) = true
  <-> VIPList (fst (call FREE_PREMIUM c p)) <> VIPList p.
Proof.
  destruct c as [g n s | g | g]; cbn [call].
  - unfold addVIP.
    destruct ((VIPList_size p >=? getMaxVIPEntries FREE_PREMIUM p)
              || (VIPList_size p =? 200)); cbn [fst snd].
    { split; [discriminate | intros H; exfalso; apply H; reflexivity]. }
    destruct (decide (g ∈ VIPList p)) as [Hin | Hout]; cbn [fst snd].
    { split; [discriminate | intros H; exfalso; apply H; reflexivity]. }
    split; [intros _ | reflexivity].
    assert (Hl : VIPList (if client (emit [AddVIPEntry (accountNumber p) g]
                                       (set_VIPList ({[g]} ∪ VIPList p) p))
                          then emit [SendVIP g n s]
                                 (emit [AddVIPEntry (accountNumber p) g]
                                    (set_VIPList ({[g]} ∪ VIPList p) p))
                          else emit [AddVIPEntry (accountNumber p) g]
                                 (set_VIPList ({[g]} ∪ VIPList p) p))
                 = {[g]} ∪ VIPList p).
    { destruct (client _); reflexivity. }
    cbn [accountNumber set_VIPList] in Hl |- *. rewrite Hl.
    apply added_differs. exact Hout.
  - unfold addVIPInternal.
    destruct ((VIPList_size p >=? getMaxVIPEntries FREE_PREMIUM p)
              || (VIPList_size p =? 200)); cbn [fst snd].
    { split; [discriminate | intros H; exfalso; apply H; reflexivity]. }
    destruct (decide (g ∈ VIPList p)) as [Hin | Hout]; cbn [fst snd].
    { split; [discriminate | intros H; exfalso; apply H; reflexivity]. }
    split; [intros _ | reflexivity]. cbn. apply added_differs. exact Hout.
  - unfold removeVIP.
    destruct (decide (g ∈ VIPList p)) as [Hin | Hout]; cbn [fst snd].
    + split; [intros _ | reflexivity]. cbn. apply removed_differs. exact Hin.
    + split; [discriminate | intros H; exfalso; apply H; reflexivity].
Qed.

(** X22 ([addVIP], [removeVIP]): removing an entry that [addVIP] has
    just added succeeds and gives back the list as it was. *)
Theorem addVIP_removeVIP (vipGuid : Z) (vipName : string) (status : Z) (p : Player) :
  snd (addVIP FREE_PREMIUM vipGuid vipName status p) = true ->
  snd (removeVIP vipGuid (fst (addVIP FREE_PREMIUM vipGuid vipName status p))) = true
  /\ VIPList (fst (removeVIP vipGuid
                     (fst (addVIP FREE_PREMIUM vipGuid vipName status p))))
     = VIPList p.
Proof.
  unfold addVIP.
  destruct ((VIPList_size p >=? getMaxVIPEntries FREE_PREMIUM p)
            || (VIPList_size p =? 200)); cbn [fst snd]; [discriminate |].
  destruct (decide (vipGuid ∈ VIPList p)) as [Hin | Hout]; cbn [fst snd];
    [discriminate |].
  intros _.
  set (q := if client _ then _ else _).
  assert (Hq : VIPList q = {[vipGuid]} ∪ VIPList p).
  { subst q. destruct (client _); reflexivity. }
  clearbody q. unfold removeVIP.
  destruct (decide (vipGuid ∈ VIPList q)) as [Hin | Hno]; cbn [fst snd].
  - split; [reflexivity |]. cbn. rewrite Hq. apply added_removed. exact Hout.
  - exfalso. apply Hno. rewrite Hq. apply elem_of_union_l, elem_of_singleton.
    reflexivity.
Qed.
End VipBehaviour.

Section UnjustifiedBehaviour.
Import Unjustified.
Variable E : Env.

(** X23 ([addUnjustifiedDead]): a further kill neither takes a black
    skull away nor changes the time left on it. *)
Theorem black_skull_is_not_renewed (attacked p : Player) :
  skull p = SKULL_BLACK ->
  skull (addUnjustifiedDead E attacked p) = SKULL_BLACK
  /\ skullTicks (addUnjustifiedDead E attacked p) = skullTicks p.
Proof.
  intros Hblack. unfold addUnjustifiedDead.
  destruct (hasFlag p PlayerFlag_NotGainInFight) eqn:Hflag; cbn [orb];
    [split; [exact Hblack | reflexivity] |].
  destruct ((id attacked =? id p) || _); [split; [exact Hblack | reflexivity] |].
  set (p1 := set_unjustifiedKills _ (emit _ p)).
  destruct (countKills E (unjustifiedKills p1)) as [[dayKills weekKills] monthKills].
  assert (Hg : getSkull p1 = SKULL_BLACK).
  { unfold getSkull, hasFlag. subst p1. cbn. unfold hasFlag in Hflag.
    rewrite Hflag. exact Hblack. }
  rewrite Hg. split; [exact Hblack | reflexivity].
Qed.
End UnjustifiedBehaviour.

Lemma addStorageValue_other_key_witness :
  Storage.getStorageValue
    (Storage.addStorageValue Storage.upstream_ranges 0 5 42 false
       (Storage.addStorageValue Storage.upstream_ranges 0 6 17 false
          Storage.empty_player)) 6
  = Storage.getStorageValue
      (Storage.addStorageValue Storage.upstream_ranges 0 6 17 false
         Storage.empty_player) 6.
Proof.
  refine (addStorageValue_other_key Storage.upstream_ranges 0 5 6 42 false
            (Storage.addStorageValue Storage.upstream_ranges 0 6 17 false
               Storage.empty_player) _).
  lia.
Defined.

Lemma addVIP_removeVIP_witness :
  Vip.VIPList
    (fst (Vip.removeVIP 7 (fst (Vip.addVIP false 7 "Bob" 0 Vip.newcomer))))
  = Vip.VIPList Vip.newcomer.
Proof.
  refine (proj2 (addVIP_removeVIP false 7 "Bob" 0 Vip.newcomer _)).
  vm_compute. reflexivity.
Defined.

Lemma black_skull_is_not_renewed_witness :
  Unjustified.skullTicks
    (Unjustified.addUnjustifiedDead Unjustified.example_env Unjustified.victim
       SkullTicks.marked)
  = 60000.
Proof.
  refine (proj2 (black_skull_is_not_renewed Unjustified.example_env Unjustified.victim
                   SkullTicks.marked _)).
  reflexivity.
Defined.

(** * Skull time, hands and Battle Instinct: further properties *)

Section SkullTicksFacts.
Import Unjustified SkullTicks.

(** [checkSkullTicks] without the 64-bit arithmetic. *)
Lemma checkSkullTicks_plain (inFight : bool) (ticks : Z) (p : Player) :
  0 <= ticks < 2 ^ 63 -> 0 <= skullTicks p < 2 ^ 62 ->
  checkSkullTicks inFight ticks p
  = if match skull p with SKULL_RED | SKULL_BLACK => true | _ => false end
       && (Z.max 0 (skullTicks p - ticks) <? 1) && negb inFight
    then setSkull SKULL_NONE (set_skullTicks (Z.max 0 (skullTicks p - ticks)) p)
    else set_skullTicks (Z.max 0 (skullTicks p - ticks)) p.
Proof.
  intros Hticks Hp. unfold checkSkullTicks.
  rewrite i64_small by lia.
  destruct (Z.ltb_spec (skullTicks p - ticks) 0) as [Hneg | Hpos].
  - rewrite Z.max_l by lia. reflexivity.
  - rewrite Z.max_r by lia. reflexivity.
Qed.

(** X24 ([checkSkullTicks]): counting the skull time down in two steps
    leaves the player as one step by the sum does, skull, remaining time
    and the update sent alike, as long as nothing overflows. *)
Theorem checkSkullTicks_in_steps (inFight : bool) (first second : Z) (p : Player) :
  0 <= first < 2 ^ 62 -> 0 <= second < 2 ^ 62 -> 0 <= skullTicks p < 2 ^ 62 ->
  checkSkullTicks inFight second (checkSkullTicks inFight first p)
  = checkSkullTicks inFight (first + second) p.
Proof.
  intros Hfirst Hsecond Hticks.
  rewrite (checkSkullTicks_plain inFight first p) by lia.
  rewrite (checkSkullTicks_plain inFight (first + second) p) by lia.
  assert (Hmax : Z.max 0 (Z.max 0 (skullTicks p - first) - second)
                 = Z.max 0 (skullTicks p - (first + second))) by lia.
  destruct p as [pid name guid flags sk ticks kills tr]. cbn [skullTicks skull] in *.
  destruct (match sk with SKULL_RED | SKULL_BLACK => true | _ => false end
            && (Z.max 0 (ticks - first) <? 1) && negb inFight) eqn:Hgone.
  - (* the first step already takes the skull *)
    apply andb_prop in Hgone as [Hgone Hfight]. apply andb_prop in Hgone as [Hsk Hlt].
    apply Z.ltb_lt in Hlt.
    rewrite checkSkullTicks_plain by (cbn; lia).
    cbn [setSkull set_skull set_skullTicks emit skull skullTicks id getName getGUID
         groupFlags unjustifiedKills trace andb].
    rewrite Hsk, Hfight.
    assert (H0 : Z.max 0 (ticks - first) = 0) by lia.
    assert (H1 : Z.max 0 (ticks - (first + second)) = 0) by lia.
    rewrite H0, H1. cbn. rewrite Z.max_l by lia. reflexivity.
  - rewrite checkSkullTicks_plain by (cbn; lia).
    cbn [setSkull set_skull set_skullTicks emit skull skullTicks id getName getGUID
         groupFlags unjustifiedKills trace].
    rewrite Hmax. reflexivity.
Qed.
End SkullTicksFacts.

Section HandFacts.
Import Inventory.
Variable E : Env.

(** The checks behind the slot test turn a refusal into no acceptance. *)
Lemma queryAdd_checks_accepts (p : Player) (index : Index) (item : Item) (count : Z)
    (ret : ReturnValue) :
  queryAdd_checks E p index item count ret = RETURNVALUE_NOERROR ->
  ret = RETURNVALUE_NOERROR /\ hasCapacity p item count = true.
Proof.
  unfold queryAdd_checks.
  destruct (ReturnValue_eqb ret RETURNVALUE_NOERROR
            || ReturnValue_eqb ret RETURNVALUE_NOTENOUGHROOM) eqn:Hret.
  - destruct (match getInventoryItem p index with Some _ => _ | None => false end);
      [discriminate |].
    destruct (hasCapacity p item count); cbn [negb]; [| discriminate].
    destruct (onPlayerEquip E p item index); cbn [negb]; [| discriminate].
    intros ->. split; reflexivity.
  - intros ->. discriminate.
Qed.

Lemma has_lor_l (a b mask : Z) : has a mask = true -> has (Z.lor a b) mask = true.
Proof.
  unfold has. intros Ha. apply negb_true_iff in Ha. apply Z.eqb_neq in Ha.
  apply negb_true_iff. apply Z.eqb_neq. intros H0. apply Ha.
  rewrite Z.land_lor_distr_l in H0. apply Z.lor_eq_0_iff in H0. apply H0.
Qed.

(** X25 ([queryAdd]): without classic equipment slots, an item made for
    the right hand is accepted there only if it is a shield or a quiver,
    and next to a two-handed item in the left hand only as a quiver beside
    a distance weapon. *)
Theorem queryAdd_right_hand (p : Player) (item : Item) (count flags : Z) :
  CLASSIC_EQUIPMENT_SLOTS E = false ->
  has flags (FLAG_CHILDISOWNER E) = false ->
  has (getSlotPosition item) (SLOTP_RIGHT E) = true ->
  queryAdd E p (Slot CONST_SLOT_RIGHT) (ThingItem item) count flags
  = RETURNVALUE_NOERROR ->
  (getWeaponType item = WEAPON_SHIELD \/ getWeaponType item = WEAPON_QUIVER)
  /\ forall leftItem,
       inventory p CONST_SLOT_LEFT = Some leftItem ->
       has (getSlotPosition leftItem) (SLOTP_TWO_HAND E) = true ->
       getWeaponType item = WEAPON_QUIVER
       /\ getWeaponType leftItem = WEAPON_DISTANCE.
Proof.
  intros Hclassic Hflag Hright Hok. unfold queryAdd in Hok. cbn [getItem] in Hok.
  rewrite Hflag in Hok.
  destruct (isPickupable item); cbn [negb] in Hok; [| discriminate].
  apply queryAdd_checks_accepts in Hok as [Hswitch _].
  unfold queryAdd_switch, queryAdd_right in Hswitch.
  rewrite Hright, Hclassic in Hswitch. cbn [negb] in Hswitch.
  destruct (getWeaponType item) eqn:Htype; cbn in Hswitch; try discriminate.
  - split; [left; reflexivity |]. intros leftItem Hleft Htwo.
    rewrite Hleft in Hswitch.
    rewrite (has_lor_l _ (getSlotPosition item) _ Htwo) in Hswitch. discriminate.
  - split; [right; reflexivity |]. intros leftItem Hleft Htwo.
    rewrite Hleft in Hswitch.
    rewrite (has_lor_l _ (getSlotPosition item) _ Htwo) in Hswitch.
    destruct (getWeaponType leftItem); cbn in Hswitch; try discriminate.
    split; reflexivity.
Qed.

(** X26 ([queryAdd], [hasCapacity]): a player flagged as unable to pick
    up items is never answered no-error, whatever the thing and the slot,
    unless the query comes from a child container and skips the limits. *)
Theorem queryAdd_cannot_pickup (p : Player) (index : Index) (thing : Thing)
    (count flags : Z) :
  hasFlag p PlayerFlag_CannotPickupItem = true ->
  has flags (FLAG_CHILDISOWNER E) && has flags (FLAG_NOLIMIT E) = false ->
  ReturnValue_eqb (queryAdd E p index thing count flags) RETURNVALUE_NOERROR = false.
Proof.
  intros Hbarred Hflags.
  destruct (ReturnValue_eqb (queryAdd E p index thing count flags)
              RETURNVALUE_NOERROR) eqn:Heqb; [exfalso | reflexivity].
  assert (Hok : queryAdd E p index thing count flags = RETURNVALUE_NOERROR)
    by (destruct (queryAdd E p index thing count flags); try discriminate; reflexivity).
  clear Heqb.
  assert (Hcap : forall item, hasCapacity p item count = false).
  { intros item. unfold hasCapacity. rewrite Hbarred. reflexivity. }
  unfold queryAdd in Hok. destruct (getItem thing) as [item |]; [| discriminate].
  destruct (has flags (FLAG_CHILDISOWNER E)); cbn [andb] in Hflags.
  - rewrite Hflags, Hcap in Hok. discriminate.
  - destruct (isPickupable item); cbn [negb] in Hok; [| discriminate].
    apply queryAdd_checks_accepts in Hok as [_ Hc]. rewrite Hcap in Hc. discriminate.
Qed.
End HandFacts.

Section WheelBehaviour.
Import Wheel.
Variable E : Env.

(** X27 ([checkWheelOfDestinyBattleInstinct]): the answer is true exactly
    when the melee or the shield major stat has changed; the distance and
    magic major stats are never touched. *)
Theorem battleInstinct_reports_change (p : Player) :
  (snd (checkWheelOfDestinyBattleInstinct E p) = true
   <-> melee (fst (checkWheelOfDestinyBattleInstinct E p)) <> melee p
       \/ shield (fst (checkWheelOfDestinyBattleInstinct E p)) <> shield p)
  /\ getWheelOfDestinyMajorStat (fst (checkWheelOfDestinyBattleInstinct E p))
       WHEEL_OF_DESTINY_MAJOR_DISTANCE
     = getWheelOfDestinyMajorStat p WHEEL_OF_DESTINY_MAJOR_DISTANCE
  /\ getWheelOfDestinyMajorStat (fst (checkWheelOfDestinyBattleInstinct E p))
       WHEEL_OF_DESTINY_MAJOR_MAGIC
     = getWheelOfDestinyMajorStat p WHEEL_OF_DESTINY_MAJOR_MAGIC.
Proof.
  unfold checkWheelOfDestinyBattleInstinct, melee, shield.
  set (p0 := set_wheelOfDestinyCreaturesNearby 0 _).
  generalize (countNearby E p0). intros n.
  destruct (n >=? 5).
  - set (m := u16 (1 * u16 (n - 4))). set (s := u16 (6 * u16 (n - 4))).
    change (getWheelOfDestinyMajorStat (set_wheelOfDestinyCreaturesNearby n p0) ?k)
      with (getWheelOfDestinyMajorStat p k).
    destruct (Z.eqb_spec (getWheelOfDestinyMajorStat p WHEEL_OF_DESTINY_MAJOR_MELEE) m)
      as [Hm | Hm];
      destruct (Z.eqb_spec (getWheelOfDestinyMajorStat p WHEEL_OF_DESTINY_MAJOR_SHIELD) s)
        as [Hs | Hs]; cbn [negb orb fst snd]; (split; [| split; reflexivity]).
    + split; [discriminate | intros [H | H]; exfalso; apply H; reflexivity].
    + split; [intros _ | reflexivity]. right. cbn. congruence.
    + split; [intros _ | reflexivity]. left. cbn. congruence.
    + split; [intros _ | reflexivity]. left. cbn. congruence.
  - change (getWheelOfDestinyMajorStat p0 ?k) with (getWheelOfDestinyMajorStat p k).
    destruct (Z.eqb_spec (getWheelOfDestinyMajorStat p WHEEL_OF_DESTINY_MAJOR_MELEE) 0)
      as [Hm | Hm];
      destruct (Z.eqb_spec (getWheelOfDestinyMajorStat p WHEEL_OF_DESTINY_MAJOR_SHIELD) 0)
        as [Hs | Hs]; cbn [negb orb fst snd]; (split; [| split; reflexivity]).
    + split; [discriminate | intros [H | H]; exfalso; apply H; reflexivity].
    + split; [intros _ | reflexivity]. right. cbn. congruence.
    + split; [intros _ | reflexivity]. left. cbn. congruence.
    + split; [intros _ | reflexivity]. left. cbn. congruence.
Qed.

(** What one evaluation leaves in the player. *)
Lemma battleInstinct_result (p : Player) :
  let n := countNearby E p in
  let q := fst (checkWheelOfDestinyBattleInstinct E p) in
  self q = self p /\ getPosition q = getPosition p
  /\ battleInstinctTimer q = OTSYS_TIME E + 2000
  /\ wheelOfDestinyCreaturesNearby q = (if n >=? 5 then n else 0)
  /\ melee q = (if n >=? 5 then u16 (1 * u16 (n - 4)) else 0)
  /\ shield q = (if n >=? 5 then u16 (6 * u16 (n - 4)) else 0).
Proof.
  intros n q. subst q. unfold checkWheelOfDestinyBattleInstinct, melee, shield.
  set (p0 := set_wheelOfDestinyCreaturesNearby 0 _).
  assert (Hn : countNearby E p0 = n) by (apply countNearby_same_place; reflexivity).
  rewrite Hn. clearbody n.
  destruct (n >=? 5).
  - match goal with |- context [if ?b then _ else _] => destruct b eqn:Hb end;
      cbn [fst]; [repeat split |].
    apply orb_false_iff in Hb. destruct Hb as [Hm Hs].
    apply negb_false_iff in Hm, Hs. apply Z.eqb_eq in Hm, Hs.
    repeat split; assumption.
  - match goal with |- context [if ?b then _ else _] => destruct b eqn:Hb end;
      cbn [fst]; [repeat split |].
    apply orb_false_iff in Hb. destruct Hb as [Hm Hs].
    apply negb_false_iff in Hm, Hs. apply Z.eqb_eq in Hm, Hs.
    repeat split; assumption.
Qed.

(** X28 ([checkWheelOfDestinyBattleInstinct]): evaluated again at once,
    in the same surroundings, it changes nothing and answers false. *)
Theorem battleInstinct_settles (p : Player) :
  checkWheelOfDestinyBattleInstinct E (fst (checkWheelOfDestinyBattleInstinct E p))
  = (fst (checkWheelOfDestinyBattleInstinct E p), false).
Proof.
  pose proof (battleInstinct_result p) as Hq. cbv zeta in Hq.
  set (q := fst (checkWheelOfDestinyBattleInstinct E p)) in *.
  destruct Hq as (Hself & Hpos & Htimer & Hnear & Hmelee & Hshield).
  unfold melee, shield in Hmelee, Hshield.
  clearbody q. unfold checkWheelOfDestinyBattleInstinct.
  set (q0 := set_wheelOfDestinyCreaturesNearby 0 _).
  assert (Hn : countNearby E q0 = countNearby E p)
    by (apply countNearby_same_place; assumption).
  rewrite Hn. clear Hn. set (n := countNearby E p) in *. clearbody n.
  change (getWheelOfDestinyMajorStat (set_wheelOfDestinyCreaturesNearby ?m q0) ?k)
    with (getWheelOfDestinyMajorStat q k).
  change (getWheelOfDestinyMajorStat q0 ?k) with (getWheelOfDestinyMajorStat q k).
  subst q0. destruct q as [qself qpos qstats qnear qtimer].
  cbn [self getPosition battleInstinctTimer wheelOfDestinyCreaturesNearby] in *.
  destruct (n >=? 5); rewrite Hmelee, Hshield, !Z.eqb_refl;
    cbn; subst; reflexivity.
Qed.
End WheelBehaviour.

Lemma checkSkullTicks_in_steps_witness :
  SkullTicks.checkSkullTicks false 50000
    (SkullTicks.checkSkullTicks false 20000 SkullTicks.marked)
  = SkullTicks.checkSkullTicks false (20000 + 50000) SkullTicks.marked.
Proof.
  refine (checkSkullTicks_in_steps false 20000 50000 SkullTicks.marked _ _ _);
    cbn; lia.
Defined.

Lemma queryAdd_right_hand_witness :
  Inventory.getWeaponType InventoryExamples.quiver = Inventory.WEAPON_SHIELD
  \/ Inventory.getWeaponType InventoryExamples.quiver = Inventory.WEAPON_QUIVER.
Proof.
  refine (proj1 (queryAdd_right_hand (Inventory.upstream_env false)
                   (HandExamples.holding_left InventoryExamples.bow)
                   InventoryExamples.quiver 1 0 _ _ _ _));
    reflexivity.
Defined.

Lemma queryAdd_cannot_pickup_witness :
  Inventory.ReturnValue_eqb
    (Inventory.queryAdd (Inventory.upstream_env false) HandExamples.barred
       (Inventory.Slot Inventory.CONST_SLOT_LEFT)
       (Inventory.ThingItem InventoryExamples.bow) 1 0)
    Inventory.RETURNVALUE_NOERROR
  = false.
Proof.
  refine (queryAdd_cannot_pickup (Inventory.upstream_env false) HandExamples.barred
            (Inventory.Slot Inventory.CONST_SLOT_LEFT)
            (Inventory.ThingItem InventoryExamples.bow) 1 0 _ _);
    reflexivity.
Defined.

(** * Outfits *)

Lemma land_u8 (x w : Z) : 0 <= w < 256 -> Z.land (u8 x) w = Z.land x w.
Proof.
  intros Hw. unfold u8, wrap. rewrite <- Z.land_ones by lia.
  rewrite <- Z.land_assoc. f_equal.
  rewrite Z.land_comm, Z.land_ones by lia. apply Z.mod_small. exact Hw.
Qed.

Lemma land_absorb (a w : Z) : Z.lor (Z.land a w) w = w.
Proof.
  apply Z.bits_inj'. intros n Hn. rewrite Z.lor_spec, Z.land_spec.
  destruct (Z.testbit a n), (Z.testbit w n); reflexivity.
Qed.

(** Addons already held, or held by what is added, are held by the union. *)
Lemma land_lor_holds (a b w : Z) :
  Z.land a w = w \/ Z.land b w = w -> Z.land (Z.lor a b) w = w.
Proof.
  intros [H | H]; rewrite Z.land_lor_distr_l, H.
  - rewrite Z.lor_comm. apply land_absorb.
  - apply land_absorb.
Qed.

Section OutfitFacts.
Import Outfits.
Variable E : Env.

Lemma first_entry_update (lookType : Z) (f : Z -> Z) (entries : list (Z * Z)) :
  match update_first lookType f entries with
  | Some entries' =>
    exists entryAddons,
      first_entry lookType entries = Some (lookType, entryAddons)
      /\ first_entry lookType entries' = Some (lookType, f entryAddons)
  | None => first_entry lookType entries = None
  end.
Proof.
  induction entries as [| [l a] rest IH]; cbn [update_first]; [reflexivity |].
  unfold first_entry in *. cbn [List.find fst].
  destruct (Z.eqb_spec l lookType) as [-> | Hne].
  - exists a. cbn [List.find fst]. rewrite Z.eqb_refl. split; reflexivity.
  - destruct (update_first lookType f rest) as [rest' |].
    + destruct IH as (a0 & H0 & H1). exists a0. cbn [List.find fst].
      apply Z.eqb_neq in Hne. rewrite Hne. split; assumption.
    + exact IH.
Qed.

Lemma first_entry_update_other (lookType other : Z) (f : Z -> Z)
    (entries entries' : list (Z * Z)) :
  other <> lookType -> update_first lookType f entries = Some entries' ->
  first_entry other entries' = first_entry other entries.
Proof.
  intros Hne. revert entries'.
  induction entries as [| [l a] rest IH]; intros entries' Hup; cbn [update_first] in Hup;
    [discriminate |].
  unfold first_entry in *.
  destruct (Z.eqb_spec l lookType) as [-> | Hl].
  - injection Hup as <-. cbn [List.find fst].
    destruct (Z.eqb_spec lookType other) as [Heq | _]; [congruence | reflexivity].
  - destruct (update_first lookType f rest) as [rest' |]; [| discriminate].
    injection Hup as <-. cbn [List.find fst].
    destruct (l =? other); [reflexivity |]. apply IH. reflexivity.
Qed.

Lemma first_entry_erase_other (lookType other : Z) (entries entries' : list (Z * Z)) :
  other <> lookType -> erase_first lookType entries = Some entries' ->
  first_entry other entries' = first_entry other entries.
Proof.
  intros Hne. revert entries'.
  induction entries as [| [l a] rest IH]; intros entries' Hup; cbn [erase_first] in Hup;
    [discriminate |].
  unfold first_entry in *.
  destruct (Z.eqb_spec l lookType) as [-> | Hl].
  - injection Hup as <-. cbn [List.find fst].
    destruct (Z.eqb_spec lookType other) as [Heq | _]; [congruence | reflexivity].
  - destruct (erase_first lookType rest) as [rest' |]; [| discriminate].
    injection Hup as <-. cbn [List.find fst].
    destruct (l =? other); [reflexivity |]. apply IH. reflexivity.
Qed.

Lemma first_entry_app (lookType : Z) (entries : list (Z * Z)) (entry : Z * Z) :
  first_entry lookType (entries ++ [entry])
  = match first_entry lookType entries with
    | Some found => Some found
    | None => if fst entry =? lookType then Some entry else None
    end.
Proof.
  unfold first_entry. induction entries as [| [l a] rest IH]; cbn [app List.find fst].
  - reflexivity.
  - destruct (l =? lookType); [reflexivity | exact IH].
Qed.

(** [canWear] reads the list through the first entry of the look type. *)
Lemma canWear_first_entry (lookType addons : Z) (p q : Player) :
  sex q = sex p -> access q = access p -> groupFlags q = groupFlags p ->
  premiumDays q = premiumDays p ->
  first_entry lookType (outfits q) = first_entry lookType (outfits p) ->
  canWear E lookType addons q = canWear E lookType addons p.
Proof.
  intros Hs Ha Hg Hd Hf. unfold canWear, isPremium, hasFlag.
  rewrite Hs, Ha, Hg, Hd, Hf. reflexivity.
Qed.

(** X29 ([addOutfit], [canWear]): after [addOutfit] a registered look
    type can be worn with every set of addons contained in the added ones,
    and with every set it could be worn with before. *)
Theorem addOutfit_canWear (lookType addons wanted : Z) (outfit : Outfit) (p : Player) :
  0 <= wanted < 256 ->
  getOutfitByLookType E (sex p) lookType = Some outfit ->
  (premium outfit = true -> isPremium E p = true) ->
  Z.land addons wanted = wanted \/ canWear E lookType wanted p = true ->
  canWear E lookType wanted (addOutfit lookType addons p) = true.
Proof.
  intros Hwanted Hreg Hprem Hhas.
  assert (Hp : premium outfit && negb (isPremium E p) = false).
  { destruct (premium outfit); [rewrite (Hprem eq_refl) |]; reflexivity. }
  unfold canWear in Hhas |- *. unfold addOutfit.
  pose proof (first_entry_update lookType (fun a => u8 (Z.lor a addons)) (outfits p))
    as Hup.
  destruct (update_first lookType _ (outfits p)) as [entries |].
  - change (sex (set_outfits entries p)) with (sex p).
    change (access (set_outfits entries p)) with (access p).
    change (isPremium E (set_outfits entries p)) with (isPremium E p).
    change (outfits (set_outfits entries p)) with entries.
    destruct (access p); [reflexivity |].
    rewrite Hreg in Hhas |- *. rewrite Hp in Hhas |- *.
    destruct (unlocked outfit && (wanted =? 0)); [reflexivity |].
    destruct Hup as (a0 & H0 & H1). rewrite H0 in Hhas. rewrite H1.
    cbn [snd] in Hhas |- *. apply Z.eqb_eq.
    rewrite land_u8 by exact Hwanted. apply land_lor_holds.
    destruct Hhas as [Hadd | Hold]; [right; exact Hadd | left].
    apply Z.eqb_eq. exact Hold.
  - change (sex (set_outfits ?e p)) with (sex p).
    change (access (set_outfits ?e p)) with (access p).
    change (isPremium E (set_outfits ?e p)) with (isPremium E p).
    change (outfits (set_outfits ?e p)) with e.
    destruct (access p); [reflexivity |].
    rewrite Hreg in Hhas |- *. rewrite Hp in Hhas |- *.
    destruct (unlocked outfit && (wanted =? 0)); [reflexivity |].
    rewrite first_entry_app, Hup. cbn [fst]. rewrite Z.eqb_refl. cbn [snd].
    rewrite Hup in Hhas.
    destruct Hhas as [Hadd | Hold]; [| discriminate].
    apply Z.eqb_eq. exact Hadd.
Qed.

(** X30 ([addOutfit], [removeOutfit], [removeOutfitAddon], [canWear]):
    adding or removing a look type or its addons does not change what
    [canWear] answers for any other look type. *)
Theorem outfit_changes_keep_other (lookType other addons wanted : Z) (p : Player) :
  other <> lookType ->
  canWear E other wanted (addOutfit lookType addons p) = canWear E other wanted p
  /\ canWear E other wanted (fst (removeOutfit lookType p)) = canWear E other wanted p
  /\ canWear E other wanted (fst (removeOutfitAddon lookType addons p))
     = canWear E other wanted p.
Proof.
  intros Hne. repeat split.
  - unfold addOutfit.
    destruct (update_first lookType _ (outfits p)) as [entries |] eqn:Hup;
      apply canWear_first_entry; try reflexivity.
    + apply (first_entry_update_other lookType other _ _ _ Hne Hup).
    + cbn [outfits set_outfits]. rewrite first_entry_app.
      destruct (first_entry other (outfits p)); [reflexivity |]. cbn [fst].
      destruct (Z.eqb_spec lookType other) as [Heq | _]; [congruence | reflexivity].
  - unfold removeOutfit.
    destruct (erase_first lookType (outfits p)) as [entries |] eqn:Hup; cbn [fst];
      [| reflexivity].
    apply canWear_first_entry; try reflexivity.
    apply (first_entry_erase_other lookType other _ _ Hne Hup).
  - unfold removeOutfitAddon.
    destruct (update_first lookType _ (outfits p)) as [entries |] eqn:Hup; cbn [fst];
      [| reflexivity].
    apply canWear_first_entry; try reflexivity.
    apply (first_entry_update_other lookType other _ _ _ Hne Hup).
Qed.
End OutfitFacts.

Lemma addOutfit_canWear_witness :
  Outfits.canWear Outfits.example_env 128 1
    (Outfits.addOutfit 128 3 Outfits.citizen) = true.
Proof.
  refine (addOutfit_canWear Outfits.example_env 128 3 1
            {| Outfits.lookType := 128; Outfits.premium := false;
               Outfits.unlocked := false |}
            Outfits.citizen _ _ _ _).
  - lia.
  - reflexivity.
  - intros H. discriminate H.
  - left. reflexivity.
Defined.

Lemma outfit_changes_keep_other_witness :
  Outfits.canWear Outfits.example_env 128 0 (Outfits.addOutfit 129 3 Outfits.citizen)
  = Outfits.canWear Outfits.example_env 128 0 Outfits.citizen.
Proof.
  refine (proj1 (outfit_changes_keep_other Outfits.example_env 129 128 3 0
                   Outfits.citizen _)).
  lia.
Defined.
